(** * Progress analytics of the learning-tracker site

    A shallow embedding of the aggregation logic of [js/core.js] (the [Core]
    module: dashboard, analytics helpers) and of the attempt panel of the
    earlier [js/js/core.js], together with the properties its specification
    states about them.

    Conventions.
    - Counters ([attempts], [passes], sums of them) are JavaScript Numbers
      holding non-negative integers; they are modelled in [N].  An addition
      of such integers is exact in binary64 as long as its result stays
      below [2^53], and only then: [2^53 + 1] is [2^53].  A statement that
      says what a sum is carries that bound as a hypothesis.
    - The one place where the code leaves the integers is the percentage
      [Math.round((a / b) * 100)]: it is modelled with the binary64
      operations of [SpecFloat].
    - A [Date] is its time value: milliseconds since the epoch, in [Z].
      Outside the range of [Date] (8.64e15 ms either side of the epoch)
      [new Date(w)] is an invalid date and [toISOString] throws a
      [RangeError]; the model records where that stops the code.
    - A read [obj[name]] of an object sees the properties inherited from
      [Object.prototype] ([constructor], [toString], ...) when [obj] has
      no property of its own under that name; the model records what the
      code does with such a value.
    - [toISOString().slice(0, 10)] is the text [YYYY-MM-DD] of the UTC day of
      an instant; for years 0000 to 9999 it is a one-to-one rendering of the
      UTC day number, which is what the model uses as day key.  Instants
      are taken in that range, as the values of [Date.now()] are.
    - Texts are strings of ASCII characters.
    - The DOM is left out: a rendering function returns the data it
      prints. *)

From Stdlib Require Import ZArith NArith List String Ascii Bool Lia.
From Stdlib Require Import Sorted Permutation.
From Stdlib Require Import SpecFloat.
Import ListNotations.

Local Open Scope Z_scope.

(* ================================================================== *)
(** * JavaScript Numbers *)
(* ================================================================== *)

Module JsNumber.

(** Binary64: 53 bits of precision, exponent of the infinities 1024. *)
Definition prec : Z := 53.
Definition emax : Z := 1024.

(** The Number holding the integer [n] (rounded to nearest-even when [n]
    has more than 53 bits). *)
Definition of_N (n : N) : spec_float :=
  binary_normalize prec emax (Z.of_N n) 0 false.

(** [x / y], [x * y] and [x + y]. *)
Definition div (x y : spec_float) : spec_float := SFdiv prec emax x y.
Definition mul (x y : spec_float) : spec_float := SFmul prec emax x y.
Definition add (x y : spec_float) : spec_float := SFadd prec emax x y.

(** The integers below which every sum of counters is exact. *)
Definition safe (n : N) : Prop := (n < 2 ^ 53)%N.

(** [Math.round(x)]: the integer closest to [x], ties going up; that is
    [floor (x + 1/2)] computed exactly.  [None] stands for [NaN] and the
    infinities; the sign of a zero result is not kept. *)
Definition Math_round (x : spec_float) : option Z :=
  match x with
  | S754_zero _ => Some 0
  | S754_finite s m e =>
      let v := if s then Z.neg m else Z.pos m in
      Some (if 0 <=? e
            then v * 2 ^ e
            else (2 * v + 2 ^ (- e)) / 2 ^ (- e + 1))
  | S754_infinity _ => None
  | S754_nan => None
  end.

(** A Number that is zero or positive, at most the integer [B], with a
    non-positive exponent. *)
Definition atMost (B : Z) (x : spec_float) : Prop :=
  match x with
  | S754_zero _ => True
  | S754_finite false m e => e <= 0 /\ Z.pos m <= B * 2 ^ (- e)
  | _ => False
  end.

(** The state of a right shift (mantissa, round bit, sticky bit) at
    exponent [e] stands for a value that is at most [B]. *)
Definition below (B e : Z) (mrs : shr_record) : Prop :=
  0 <= shr_m mrs /\
  shr_m mrs + (if shr_r mrs || shr_s mrs then 1 else 0) <= B * 2 ^ (- e).

(** The rounding of [100 * p / a] to the nearest integer, ties going up,
    in exact arithmetic: what the percentage is meant to be. *)
Definition exact_percent (p a : N) : Z :=
  (200 * Z.of_N p + Z.of_N a) / (2 * Z.of_N a).

End JsNumber.

(* ================================================================== *)
(** * Dates *)
(* ================================================================== *)

Module Clock.

Definition msPerDay : Z := 86400000.

(** The host's time zone, as the abstract operation [LocalTZA(t, isUTC)]
    of ECMAScript: the offset of local time from UTC, in milliseconds,
    at the UTC instant [t] ([isUTC = true]) or at the local time [t]
    ([isUTC = false]).  The offset of a zone with daylight saving time
    changes with [t]. *)
Record TimeZone : Type := mkTimeZone { LocalTZA : Z -> bool -> Z }.

Definition LocalTime (tz : TimeZone) (t : Z) : Z := t + LocalTZA tz t true.
Definition UTC (tz : TimeZone) (t : Z) : Z := t - LocalTZA tz t false.

(** A zone without transitions: the same offset at every instant. *)
Definition fixedZone (offset : Z) : TimeZone := mkTimeZone (fun _ _ => offset).

(** [const d = new Date(today); d.setDate(today.getDate() - i)]:
    [setDate] rebuilds the local time from the year and month of [today],
    the day-of-month [getDate() - i] and the time within the day;
    [MakeDay] carries a day-of-month outside the month over to the
    neighbouring months, so the local time moves back by exactly [i]
    days, and is then mapped back to UTC. *)
Definition daysBefore (tz : TimeZone) (today : Z) (i : Z) : Z :=
  UTC tz (LocalTime tz today - i * msPerDay).

(** [d.toISOString().slice(0, 10)]: the UTC day of the instant. *)
Definition isoDay (t : Z) : Z := t / msPerDay.

(** The time values of valid dates: [new Date(w).toISOString()] throws a
    [RangeError] for any other [w]. *)
Definition maxTime : Z := 8640000000000000.
Definition validTime (w : Z) : bool := (- maxTime <=? w) && (w <=? maxTime).

(** The calendar day of the instant on the host's local clock. *)
Definition localDay (tz : TimeZone) (t : Z) : Z := LocalTime tz t / msPerDay.

End Clock.

(* ================================================================== *)
(** * Data model *)
(* ================================================================== *)

(** [{attempts, passes, last}], one per problem id.  [last] is [null] on a
    fresh entry and a [Date.now()] value afterwards. *)
Module AttemptStat.
Record t : Type := mk { attempts : N; passes : N; last : option Z }.

(** The test [if (s.last)]: [null] and the number [0] are falsy. *)
Definition dated (s : t) : option Z :=
  match last s with
  | Some w => if w =? 0 then None else Some w
  | None => None
  end.
End AttemptStat.

(** A track's progress object, as the association list of its stats in
    the order in which [Object.values] and [Object.entries] enumerate
    them: keys that are array indices first, in numeric order, then the
    other keys in insertion order.  Problem ids are names, not numbers:
    a new entry comes last. *)
Definition ProgressRecord : Type := list (string * AttemptStat.t).

Module TestCase.
Record t : Type := mk { input : string; expected : string }.
End TestCase.

Module Problem.
Record t : Type := mk
  { id : string; title : string; topic : string; difficulty : string;
    statement : string; explain : option string; tests : list TestCase.t }.
End Problem.

(** [{title, problemsUrl, trackKey, key, page}]. *)
Module Track.
Record t : Type := mk
  { title : string; problemsUrl : string; trackKey : string;
    key : string; page : string }.
End Track.

(** The names of the properties that every object created by [{}] or by
    [JSON.parse] inherits from [Object.prototype].  Their values are
    functions, and the prototype object itself for [__proto__]: all of
    them truthy, none of them a stat. *)
Definition prototypeNames : list string :=
  ["constructor"; "hasOwnProperty"; "isPrototypeOf"; "propertyIsEnumerable";
   "toLocaleString"; "toString"; "valueOf"; "__proto__";
   "__defineGetter__"; "__defineSetter__"; "__lookupGetter__";
   "__lookupSetter__"]%string.

Definition inherited (name : string) : bool :=
  existsb (String.eqb name) prototypeNames.

(** The entry that [progress] holds under [id] as a property of its own;
    [progress[id]] is that entry, and without one the inherited value when
    [inherited id], [undefined] otherwise. *)
Fixpoint lookup (id : string) (progress : ProgressRecord) : option AttemptStat.t :=
  match progress with
  | [] => None
  | (k, s) :: rest => if String.eqb k id then Some s else lookup id rest
  end.

(** [progress[id] = stat]: an existing key keeps its place, a new key is
    added at the end. *)
Fixpoint assign (id : string) (stat : AttemptStat.t) (progress : ProgressRecord)
  : ProgressRecord :=
  match progress with
  | [] => [(id, stat)]
  | (k, s) :: rest =>
      if String.eqb k id then (k, stat) :: rest else (k, s) :: assign id stat rest
  end.

(** [Object.values(progress)]. *)
Definition values (progress : ProgressRecord) : list AttemptStat.t :=
  map snd progress.

(* ================================================================== *)
(** * The browser: local storage and the network *)
(* ================================================================== *)

(** What [localStorage.getItem(key)] holds: nothing, a text that
    [JSON.parse] rejects, or the JSON text of a progress object. *)
Inductive StoredItem : Type :=
| Missing
| Malformed
| Json (progress : ProgressRecord).

Definition LocalStorage : Type := string -> StoredItem.

(** The outcome of fetching a problem list: [None] when the request fails,
    answers with a status that is not ok, or carries no JSON. *)
Definition Network : Type := string -> option (list Problem.t).

Module Store.
(** [Store.get(key, {})]: the default on a missing key and on a parse
    error. *)
Definition get (ls : LocalStorage) (key : string) : ProgressRecord :=
  match ls key with
  | Json progress => progress
  | Missing => []
  | Malformed => []
  end.

(** [Store.set(key, val)]. *)
Definition set (ls : LocalStorage) (key : string) (val : ProgressRecord)
  : LocalStorage :=
  fun k => if String.eqb k key then Json val else ls k.
End Store.

(* ================================================================== *)
(** * The attempt panel ([js/js/core.js]) *)
(* ================================================================== *)

Module Practice.

(** The white space of [\s] and of [trim] among the ASCII characters:
    tab, line feed, vertical tab, form feed, carriage return, space. *)
Definition isWhiteSpace (c : ascii) : bool :=
  let n := nat_of_ascii c in
  ((9 <=? n) && (n <=? 13))%nat || (n =? 32)%nat.

Definition lowerChar (c : ascii) : ascii :=
  let n := nat_of_ascii c in
  if ((65 <=? n) && (n <=? 90))%nat then ascii_of_nat (n + 32) else c.

Fixpoint toLowerCase (s : string) : string :=
  match s with
  | EmptyString => EmptyString
  | String c r => String (lowerChar c) (toLowerCase r)
  end.

Fixpoint trimStart (s : string) : string :=
  match s with
  | EmptyString => EmptyString
  | String c r => if isWhiteSpace c then trimStart r else s
  end.

Fixpoint trimEnd (s : string) : string :=
  match s with
  | EmptyString => EmptyString
  | String c r =>
      match trimEnd r with
      | EmptyString => if isWhiteSpace c then EmptyString else String c EmptyString
      | r' => String c r'
      end
  end.

Definition trim (s : string) : string := trimEnd (trimStart s).

(** [s.replace(/\s+/g, ' ')]: every maximal run of white space becomes
    one space; [inRun] tells that the previous character was white
    space. *)
Fixpoint collapseFrom (inRun : bool) (s : string) : string :=
  match s with
  | EmptyString => EmptyString
  | String c r =>
      if isWhiteSpace c
      then if inRun then collapseFrom true r
           else String " "%char (collapseFrom true r)
      else String c (collapseFrom false r)
  end.

Definition collapse (s : string) : string := collapseFrom false s.

(** [(s || '').trim().replace(/\s+/g, ' ').toLowerCase()]; [None] is
    [undefined]. *)
Definition normalize (s : option string) : string :=
  let text := match s with Some t => t | None => EmptyString end in
  toLowerCase (collapse (trim text)).

(** [normalize(answers[i]) === normalize(p.tests[i].expected)]. *)
Definition testOk (answer : option string) (test : TestCase.t) : bool :=
  String.eqb (normalize answer) (normalize (Some (TestCase.expected test))).

(** The loop over [p.tests]: [results] in order. *)
Fixpoint checkFrom (i : nat) (tests : list TestCase.t) (answers : list string)
  : list bool :=
  match tests with
  | [] => []
  | t :: rest => testOk (nth_error answers i) t :: checkFrom (S i) rest answers
  end.

Definition results (p : Problem.t) (answers : list string) : list bool :=
  checkFrom 0 (Problem.tests p) answers.

Definition passAll (p : Problem.t) (answers : list string) : bool :=
  forallb (fun ok => ok) (results p answers).

(** The [// update progress] block of the submit handler; [now] is
    [Date.now()].  [stat] is the entry of the problem, or a fresh one.
    When [progress] has no entry of its own under an inherited name,
    [progress[p.id]] is the inherited value and it is that value whose
    properties are set; [progress[p.id] = stat] then gives [progress] a
    property holding a function, which [JSON.stringify] leaves out and
    which every later read yields again, or changes nothing
    ([__proto__]): the stats of [progress] are what they were.
    [Object.prototype] is taken as the language defines it when the
    handler starts; a submission for [__proto__] itself adds [attempts]
    and [last] to it, so what is said of several submissions in a row
    leaves that id out. *)
Definition recordAttempt (progress : ProgressRecord) (pid : string)
    (allPassed : bool) (now : Z) : ProgressRecord :=
  let update (stat : AttemptStat.t) :=
    let attempts' := (AttemptStat.attempts stat + 1)%N in
    let passes' :=
      if allPassed then (AttemptStat.passes stat + 1)%N
      else AttemptStat.passes stat in
    assign pid (AttemptStat.mk attempts' passes' (Some now)) progress in
  match lookup pid progress with
  | Some s => update s
  | None => if inherited pid then progress
            else update (AttemptStat.mk 0 0 None)
  end.

(** The submit handler: the new progress object and the storage after
    [Store.set(trackKey, progress)]. *)
Definition submit (ls : LocalStorage) (trackKey : string)
    (progress : ProgressRecord) (p : Problem.t) (answers : list string)
    (now : Z) : ProgressRecord * LocalStorage :=
  let progress' := recordAttempt progress (Problem.id p) (passAll p answers) now in
  (progress', Store.set ls trackKey progress').

End Practice.

(* ================================================================== *)
(** * Percentages *)
(* ================================================================== *)

(** [total ? Math.round((passed / total) * 100) : 0], the body of [pct],
    repeated inline in [renderDashboardMulti] and in
    [computeTrackAnalytics]. *)
Definition pct (passed total : N) : option Z :=
  if (total =? 0)%N then Some 0
  else JsNumber.Math_round
         (JsNumber.mul (JsNumber.div (JsNumber.of_N passed) (JsNumber.of_N total))
                       (JsNumber.of_N 100)).

(* ================================================================== *)
(** * The multi-track dashboard ([renderDashboardMulti]) *)
(* ================================================================== *)

Module Dashboard.

Record Overall : Type := mkOverall
  { totalProblems : N; attempts : N; passes : N; solved : N }.

(** An element of [recent]. *)
Record RecentItem : Type := mkRecent
  { when : Z; pid : string; track : string; passed : bool; title : string }.

(** The figures printed on a track card. *)
Record Card : Type := mkCard
  { cardTitle : string; cardSolved : N; cardTotal : N; cardAttempts : N;
    cardPasses : N; acc : option Z; solvedPerc : option Z }.

(** What the function renders. *)
Record View : Type := mkView
  { overall : Overall; accOverall : option Z; solvedPercAll : option Z;
    cards : list Card; feed : list RecentItem }.

(** [Object.values(progress).forEach(st => { attempts += st.attempts;
    passes += st.passes; if (st.passes > 0) solved++; })]. *)
Definition tallyStep (acc : N * N * N) (st : AttemptStat.t) : N * N * N :=
  let '(a, p, s) := acc in
  ((a + AttemptStat.attempts st)%N,
   (p + AttemptStat.passes st)%N,
   if (0 <? AttemptStat.passes st)%N then (s + 1)%N else s).

Definition tally (progress : ProgressRecord) : N * N * N :=
  fold_left tallyStep (values progress) (0, 0, 0)%N.

(** [(problems.find(p => p.id === pid)?.title) || pid]. *)
Definition titleOf (problems : list Problem.t) (pid : string) : string :=
  match find (fun p => String.eqb (Problem.id p) pid) problems with
  | Some p =>
      match Problem.title p with
      | EmptyString => pid
      | t => t
      end
  | None => pid
  end.

(** The entries a section pushes on [recent]. *)
Definition recentOf (s : Track.t) (problems : list Problem.t)
    (progress : ProgressRecord) : list RecentItem :=
  flat_map
    (fun entry : string * AttemptStat.t =>
       match AttemptStat.dated (snd entry) with
       | Some w =>
           [mkRecent w (fst entry) (Track.title s)
                     (0 <? AttemptStat.passes (snd entry))%N
                     (titleOf problems (fst entry))]
       | None => []
       end)
    progress.

(** The state the section callbacks share: [overall], [recent] and the
    cards returned so far. *)
Definition Shared : Type := Overall * list RecentItem * list Card.

(** The body of the callback given to [sections.map].  [loadJson] throws
    when the fetch fails; nothing in the callback catches it, and the
    promise of the callback is rejected: [None]. *)
Definition sectionStep (net : Network) (ls : LocalStorage)
    (shared : Shared) (s : Track.t) : option Shared :=
  match net (Track.problemsUrl s) with
  | None => None
  | Some problems =>
      let '(ov, recent, cs) := shared in
      let progress := Store.get ls (Track.trackKey s) in
      let total := N.of_nat (List.length problems) in
      let '(a, p, sv) := tally progress in
      let ov' := mkOverall (totalProblems ov + total) (attempts ov + a)
                           (passes ov + p) (solved ov + sv) in
      let card := mkCard (Track.title s) sv total a p (pct p a) (pct sv total) in
      Some (ov', recent ++ recentOf s problems progress, cs ++ [card])
  end.

(** [await Promise.all(sections.map(async s => ...))]: rejected as soon
    as one callback is.  The callbacks resume as their fetches complete;
    [runSections] resumes them in the order of its list.  The cards are
    the values of the promises, in the order of [sections] whatever the
    order of completion. *)
Fixpoint runSections (net : Network) (ls : LocalStorage)
    (sections : list Track.t) (shared : Shared) : option Shared :=
  match sections with
  | [] => Some shared
  | s :: rest =>
      match sectionStep net ls shared s with
      | None => None
      | Some shared' => runSections net ls rest shared'
      end
  end.

(** [recent.sort((a, b) => b.when - a.when)]: [Array.prototype.sort] is
    stable; [a] stays before [b] unless [b.when] is greater. *)
Fixpoint insertDesc (x : RecentItem) (l : list RecentItem) : list RecentItem :=
  match l with
  | [] => [x]
  | y :: rest =>
      if when y <=? when x then x :: y :: rest else y :: insertDesc x rest
  end.

Definition sortRecent (l : list RecentItem) : list RecentItem :=
  fold_right insertDesc [] l.

(** [renderDashboardMulti] with the fetches completing in the order of
    [sections]. *)
Definition renderDashboardMulti (net : Network) (ls : LocalStorage)
    (sections : list Track.t) : option View :=
  match runSections net ls sections (mkOverall 0 0 0 0, [], []) with
  | None => None
  | Some (ov, recent, cs) =>
      Some (mkView ov
                   (pct (passes ov) (attempts ov))
                   (pct (solved ov) (totalProblems ov))
                   cs
                   (firstn 10 (sortRecent recent)))
  end.

(** [renderDashboardMulti] with the fetches completing in the order
    [schedule], a rearrangement of [sections]: [overall] and [recent] are
    filled in that order, the cards stay in the order of [sections]. *)
Definition renderDashboardMultiIn (net : Network) (ls : LocalStorage)
    (sections schedule : list Track.t) : option View :=
  match runSections net ls schedule (mkOverall 0 0 0 0, [], []),
        runSections net ls sections (mkOverall 0 0 0 0, [], []) with
  | Some (ov, recent, _), Some (_, _, cs) =>
      Some (mkView ov
                   (pct (passes ov) (attempts ov))
                   (pct (solved ov) (totalProblems ov))
                   cs
                   (firstn 10 (sortRecent recent)))
  | _, _ => None
  end.

End Dashboard.

(* ================================================================== *)
(** * Dashboard analytics helpers *)
(* ================================================================== *)

Module Analytics.
Import Clock.

(** [getProgress(trackKey)]:
    [JSON.parse(localStorage.getItem(trackKey) || '{}')], and [{}] when
    that throws. *)
Definition getProgress (ls : LocalStorage) (trackKey : string) : ProgressRecord :=
  match ls trackKey with
  | Json progress => progress
  | Missing => []
  | Malformed => []
  end.

(** The object [counts]: day key to count. *)
Definition Counts : Type := list (Z * N).

Fixpoint countsGet (k : Z) (c : Counts) : option N :=
  match c with
  | [] => None
  | (k', v) :: rest => if k' =? k then Some v else countsGet k rest
  end.

Fixpoint countsSet (k : Z) (v : N) (c : Counts) : Counts :=
  match c with
  | [] => [(k, v)]
  | (k', v') :: rest =>
      if k' =? k then (k', v) :: rest else (k', v') :: countsSet k v rest
  end.

(** The loop [for (let i = days - 1; i >= 0; i--)], [n] iterations
    left: the next one has [i = n - 1]. *)
Fixpoint fillWindow (tz : TimeZone) (today : Z) (n : nat)
    (labels : list Z) (counts : Counts) : list Z * Counts :=
  match n with
  | O => (labels, counts)
  | S i =>
      let key := isoDay (daysBefore tz today (Z.of_nat i)) in
      fillWindow tz today i (labels ++ [key]) (countsSet key 0%N counts)
  end.

(** The callback of [Object.values(p).forEach]. *)
Definition addStat (counts : Counts) (s : AttemptStat.t) : Counts :=
  match AttemptStat.dated s with
  | None => counts
  | Some w =>
      let dayKey := isoDay w in
      match countsGet dayKey counts with
      | Some c =>
          let weight := if (AttemptStat.attempts s =? 0)%N then 1%N
                        else AttemptStat.attempts s in
          countsSet dayKey (c + weight)%N counts
      | None => counts
      end
  end.

(** Whether [toISOString] returns on the [last] of a stat that the loops
    do not skip. *)
Definition dateOk (s : AttemptStat.t) : bool :=
  match AttemptStat.dated s with
  | Some w => validTime w
  | None => true
  end.

(** The stats that [forEach] visits before [toISOString] throws. *)
Fixpoint readable (stats : list AttemptStat.t) : list AttemptStat.t :=
  match stats with
  | [] => []
  | s :: rest => if dateOk s then s :: readable rest else []
  end.

(** The callback of [trackKeys.forEach].  Its [catch] ignores a text that
    does not parse, and the [RangeError] of an invalid date: what the
    stats visited so far have added stays, the rest of the track is
    skipped. *)
Definition addTrack (ls : LocalStorage) (counts : Counts) (k : string) : Counts :=
  match ls k with
  | Json p => fold_left addStat (readable (values p)) counts
  | Missing => counts
  | Malformed => counts
  end.

Record DailySeries : Type := mkSeries { labels : list Z; series : list N }.

(** [buildDailySeries(trackKeys, days)]; [today] is [new Date()]. *)
Definition buildDailySeries (tz : TimeZone) (ls : LocalStorage) (today : Z)
    (trackKeys : list string) (days : nat) : DailySeries :=
  let '(labels, counts0) := fillWindow tz today days [] [] in
  let counts := fold_left (addTrack ls) trackKeys counts0 in
  mkSeries labels
           (map (fun l => match countsGet l counts with
                          | Some v => v
                          | None => 0%N
                          end) labels).

(** The default arguments. *)
Definition defaultTrackKeys : list string := ["jc_progress"; "mj_progress"]%string.
Definition defaultDays : nat := 14.

(** A [Set] of day keys, in insertion order. *)
Definition setHas (k : Z) (set : list Z) : bool := existsb (Z.eqb k) set.
Definition setAdd (k : Z) (set : list Z) : list Z :=
  if setHas k set then set else set ++ [k].

(** The loop of [calcStreak], [remaining] iterations left
    ([offset + remaining = 365]). *)
Fixpoint streakLoop (tz : TimeZone) (today : Z) (set : list Z)
    (remaining : nat) (offset : Z) (streak : N) : N :=
  match remaining with
  | O => streak
  | S remaining' =>
      let key := isoDay (daysBefore tz today offset) in
      if setHas key set
      then streakLoop tz today set remaining' (offset + 1) (streak + 1)%N
      else if offset =? 0
           then streakLoop tz today set remaining' (offset + 1) streak
           else streak
  end.

Definition calcStreak (tz : TimeZone) (today : Z) (set : list Z) : N :=
  streakLoop tz today set 365 0 0%N.

(** [stats]. [lastActive] is kept as the instant its ISO text denotes. *)
Record TrackStats : Type := mkStats
  { solved : N; total : N; attempts : N; passes : N;
    accuracy : option Z; lastActive : option Z; streak : N }.

(** [window.__problemsCache]: [None] for a key that is absent or holds
    [null]. *)
Definition Cache : Type := string -> option (list Problem.t).

(** The first [Object.values(progress).forEach] of
    [computeTrackAnalytics], on [attempts], [passes], [solved] and
    [lastActive]. *)
Definition statStep (acc : N * N * N * option Z) (s : AttemptStat.t)
  : N * N * N * option Z :=
  let '(a, p, sv, la) := acc in
  ((a + AttemptStat.attempts s)%N,
   (p + AttemptStat.passes s)%N,
   (if (0 <? AttemptStat.passes s)%N then (sv + 1)%N else sv),
   match AttemptStat.dated s with
   | None => la
   | Some d =>
       match la with
       | None => Some d
       | Some l => if l <? d then Some d else la
       end
   end).

(** The second one, filling [daysSet]. *)
Definition dayStep (set : list Z) (s : AttemptStat.t) : list Z :=
  match AttemptStat.dated s with
  | None => set
  | Some w => setAdd (isoDay w) set
  end.

(** Whether [computeTrackAnalytics] returns for a track: its second loop
    calls [toISOString] on every stat it does not skip, and nothing
    catches the [RangeError]. *)
Definition datesValid (ls : LocalStorage) (trackKey : string) : bool :=
  forallb dateOk (values (getProgress ls trackKey)).

(** The object [stats] that [computeTrackAnalytics(track)] returns, when
    it returns. *)
Definition computeTrackAnalytics (cache : Cache) (tz : TimeZone)
    (ls : LocalStorage) (today : Z) (track : Track.t) : TrackStats :=
  let pList := cache (Track.trackKey track) in
  let progress := getProgress ls (Track.trackKey track) in
  let total := match pList with
               | Some l => N.of_nat (List.length l)
               | None => 0%N
               end in
  let '(a, p, sv, la) :=
    fold_left statStep (values progress) (0%N, 0%N, 0%N, None) in
  let accuracy :=
    if (a =? 0)%N then Some 0
    else JsNumber.Math_round
           (JsNumber.mul (JsNumber.div (JsNumber.of_N p) (JsNumber.of_N a))
                         (JsNumber.of_N 100)) in
  let daysSet := fold_left dayStep (values progress) [] in
  mkStats sv total a p accuracy la (calcStreak tz today daysSet).

(** [preloadProblemsForTracks(tracks)]: a track without [problemsUrl] is
    skipped; a failed fetch is caught and leaves [null] in the cache.
    The fetches are taken to complete in the order of [tracks]; the
    order matters only to tracks that share a storage key. *)
Definition preloadStep (net : Network) (cache : Cache) (t : Track.t) : Cache :=
  match Track.problemsUrl t with
  | EmptyString => cache
  | url => fun k => if String.eqb k (Track.trackKey t) then net url else cache k
  end.

Definition preloadProblemsForTracks (net : Network) (cache : Cache)
    (tracks : list Track.t) : Cache :=
  fold_left (preloadStep net) tracks cache.

(** [renderAnalytics(tracks)]: the statistics shown on each card, when
    every call of [computeTrackAnalytics] returns. *)
Definition renderAnalytics (net : Network) (cache : Cache) (tz : TimeZone)
    (ls : LocalStorage) (today : Z) (tracks : list Track.t)
  : list (Track.t * TrackStats) :=
  let cache' := preloadProblemsForTracks net cache tracks in
  map (fun t => (t, computeTrackAnalytics cache' tz ls today t)) tracks.

(** The calls with their outcome: [None] when a [RangeError] leaves the
    function.  [tracks.map] stops at the first callback that throws, and
    [innerHTML] is not assigned. *)
Definition computeTrackAnalytics_call (cache : Cache) (tz : TimeZone)
    (ls : LocalStorage) (today : Z) (track : Track.t) : option TrackStats :=
  if datesValid ls (Track.trackKey track)
  then Some (computeTrackAnalytics cache tz ls today track)
  else None.

Fixpoint cardsFrom (cache : Cache) (tz : TimeZone) (ls : LocalStorage)
    (today : Z) (tracks : list Track.t) : option (list (Track.t * TrackStats)) :=
  match tracks with
  | [] => Some []
  | t :: rest =>
      match computeTrackAnalytics_call cache tz ls today t with
      | None => None
      | Some st =>
          match cardsFrom cache tz ls today rest with
          | None => None
          | Some cards => Some ((t, st) :: cards)
          end
      end
  end.

Definition renderAnalytics_call (net : Network) (cache : Cache) (tz : TimeZone)
    (ls : LocalStorage) (today : Z) (tracks : list Track.t)
  : option (list (Track.t * TrackStats)) :=
  cardsFrom (preloadProblemsForTracks net cache tracks) tz ls today tracks.

End Analytics.

(* ================================================================== *)
(** * The problem list ([renderList], [filterProblems], [initPractice]) *)
(* ================================================================== *)

Module Listing.
Import Practice.

(** The three badges of a list item: solved, in progress, untouched. *)
Inductive Badge : Type := Solved | InProgress | Untouched.

(** [const stat = progress[p.id] || { attempts: 0, passes: 0 }] and the
    badge chosen from it.  An inherited value has no counters that
    compare greater than 0: the badge is the one of a fresh stat. *)
Definition badge (progress : ProgressRecord) (id : string) : Badge :=
  let stat :=
    match lookup id progress with
    | Some s => s
    | None => AttemptStat.mk 0 0 None
    end in
  if (0 <? AttemptStat.passes stat)%N then Solved
  else if (0 <? AttemptStat.attempts stat)%N then InProgress
       else Untouched.

(** [renderList]: one item per problem, in order, with its badge. *)
Definition renderList (problems : list Problem.t) (progress : ProgressRecord)
  : list (Badge * Problem.t) :=
  map (fun p => (badge progress (Problem.id p), p)) problems.

(** [s.startsWith(q)] and [s.includes(q)]. *)
Fixpoint startsWith (s q : string) : bool :=
  match q with
  | EmptyString => true
  | String c q' =>
      match s with
      | EmptyString => false
      | String d s' => Ascii.eqb c d && startsWith s' q'
      end
  end.

Fixpoint includes (s q : string) : bool :=
  startsWith s q ||
  match s with
  | EmptyString => false
  | String _ r => includes r q
  end.

(** The predicate given to [list.filter], [q] already in lower case. *)
Definition matches (q : string) (p : Problem.t) : bool :=
  includes (toLowerCase (Problem.title p)) q ||
  includes (toLowerCase (Problem.topic p)) q ||
  includes (toLowerCase (Problem.difficulty p)) q.

(** [filterProblems(list, q)]: an empty query keeps the list. *)
Definition filterProblems (items : list Problem.t) (q : string) : list Problem.t :=
  match q with
  | EmptyString => items
  | _ => filter (matches (toLowerCase q)) items
  end.

(** [refreshList] of [initPractice]. *)
Definition refreshList (problems : list Problem.t) (progress : ProgressRecord)
    (search : string) : list (Badge * Problem.t) :=
  renderList (filterProblems problems search) progress.

End Listing.

(* ================================================================== *)
(** * A practice session ([initPractice] of [js/js/core.js]) *)
(* ================================================================== *)

Module Session.

(** One submission: the problem on screen, the answers typed and the value
    of [Date.now()]. *)
Record Submission : Type := mkSubmission
  { problem : Problem.t; answers : list string; time : Z }.

(** The submit handler runs on the progress object that [initPractice]
    loaded, and stores it.  The state is made of the stats of that
    object and of the storage. *)
Definition step (trackKey : string) (state : ProgressRecord * LocalStorage)
    (sub : Submission) : ProgressRecord * LocalStorage :=
  Practice.submit (snd state) trackKey (fst state)
                  (problem sub) (answers sub) (time sub).

(** [const progress = Store.get(trackKey, {})], then the submissions in
    order. *)
Definition run (ls : LocalStorage) (trackKey : string)
    (subs : list Submission) : ProgressRecord * LocalStorage :=
  fold_left (step trackKey) subs (Store.get ls trackKey, ls).

End Session.

(* ================================================================== *)
(** * Sorting entries by their last instant *)
(* ================================================================== *)

Section SortEntries.

(** [last] of an entry that passed the filter [s.last]. *)
Definition lastOf (entry : string * AttemptStat.t) : Z :=
  match AttemptStat.last (snd entry) with
  | Some w => w
  | None => 0
  end.

(** [Object.entries(progress).filter(([, s]) => s.last)]. *)
Definition datedEntries (progress : ProgressRecord) : ProgressRecord :=
  filter (fun entry => match AttemptStat.dated (snd entry) with
                       | Some _ => true
                       | None => false
                       end) progress.

(** [.sort((a, b) => b[1].last - a[1].last)], a stable sort. *)
Fixpoint insertEntry (x : string * AttemptStat.t) (l : ProgressRecord)
  : ProgressRecord :=
  match l with
  | [] => [x]
  | y :: rest =>
      if lastOf y <=? lastOf x then x :: y :: rest else y :: insertEntry x rest
  end.

Definition sortEntries (l : ProgressRecord) : ProgressRecord :=
  fold_right insertEntry [] l.

End SortEntries.

(* ================================================================== *)
(** * The single-track dashboard ([renderDashboard]) *)
(* ================================================================== *)

Module TrackDashboard.

(** The four summary cards. *)
Record Summary : Type := mkSummary
  { solved : N; totalProblems : N; attempts : N; passes : N;
    accuracy : option Z }.

(** [Object.values(progress).forEach(s => { attempts += s.attempts;
    passes += s.passes; })]. *)
Definition totalsStep (acc : N * N) (s : AttemptStat.t) : N * N :=
  ((fst acc + AttemptStat.attempts s)%N, (snd acc + AttemptStat.passes s)%N).

Definition totals (progress : ProgressRecord) : N * N :=
  fold_left totalsStep (values progress) (0, 0)%N.

(** [Object.values(progress).filter(s => s.passes > 0).length]. *)
Definition solvedCount (progress : ProgressRecord) : N :=
  N.of_nat (List.length
              (filter (fun s => (0 <? AttemptStat.passes s)%N) (values progress))).

(** The object [topicStats]: topic to [(total, solved)], in the order the
    topics first appear. *)
Definition TopicStats : Type := list (string * (N * N)).

Fixpoint topicGet (topic : string) (ts : TopicStats) : option (N * N) :=
  match ts with
  | [] => None
  | (k, v) :: rest => if String.eqb k topic then Some v else topicGet topic rest
  end.

Fixpoint topicSet (topic : string) (v : N * N) (ts : TopicStats) : TopicStats :=
  match ts with
  | [] => [(topic, v)]
  | (k, v') :: rest =>
      if String.eqb k topic then (k, v) :: rest
      else (k, v') :: topicSet topic v rest
  end.

(** The callback of [problems.forEach]:
    [topicStats[p.topic] ||= { total: 0, solved: 0 }], [total++], and
    [solved++] when [(progress[p.id]?.passes || 0) > 0].  Under an
    inherited name [topicStats[p.topic]] is the inherited value, which is
    truthy: nothing is assigned, the increments go to that value and
    [topicStats] gets no key. *)
Definition topicStep (progress : ProgressRecord) (ts : TopicStats)
    (p : Problem.t) : TopicStats :=
  if inherited (Problem.topic p) then ts else
  let cur := match topicGet (Problem.topic p) ts with
             | Some v => v
             | None => (0, 0)%N
             end in
  let isSolved := match lookup (Problem.id p) progress with
                  | Some s => (0 <? AttemptStat.passes s)%N
                  | None => false
                  end in
  topicSet (Problem.topic p)
           ((fst cur + 1)%N, if isSolved then (snd cur + 1)%N else snd cur)
           ts.

Definition topicStats (problems : list Problem.t) (progress : ProgressRecord)
  : TopicStats :=
  fold_left (topicStep progress) problems [].

(** A topic card: topic, percentage, solved, total. *)
Definition topicCards (ts : TopicStats) : list (string * option Z * N * N) :=
  map (fun entry => (fst entry, pct (snd (snd entry)) (fst (snd entry)),
                     snd (snd entry), fst (snd entry))) ts.

(** [new Map(problems.map(p => [p.id, p])).get(id)]: of two problems with
    the same id the later one is kept. *)
Definition mapGet (problems : list Problem.t) (id : string) : option Problem.t :=
  find (fun p => String.eqb (Problem.id p) id) (rev problems).

(** [p?.title || id]. *)
Definition titleOrId (p : option Problem.t) (id : string) : string :=
  match p with
  | Some p =>
      match Problem.title p with
      | EmptyString => id
      | t => t
      end
  | None => id
  end.

(** A line of the recent list: solved or in progress, the title, the
    instant. *)
Definition Row : Type := (bool * string * Z)%type.

Definition recentRows (problems : list Problem.t) (progress : ProgressRecord)
  : list Row :=
  map (fun entry =>
         ((0 <? AttemptStat.passes (snd entry))%N,
          titleOrId (mapGet problems (fst entry)) (fst entry),
          lastOf entry))
      (firstn 8 (sortEntries (datedEntries progress))).

Record View : Type := mkView
  { summary : Summary; topics : list (string * option Z * N * N);
    recent : list Row }.

(** [renderDashboard]; [None] when [loadJson] throws. *)
Definition renderDashboard (net : Network) (ls : LocalStorage)
    (problemsUrl trackKey : string) : option View :=
  match net problemsUrl with
  | None => None
  | Some problems =>
      let progress := Store.get ls trackKey in
      let '(a, p) := totals progress in
      Some (mkView
              (mkSummary (solvedCount progress)
                         (N.of_nat (List.length problems)) a p (pct p a))
              (topicCards (topicStats problems progress))
              (recentRows problems progress))
  end.

End TrackDashboard.

(* ================================================================== *)
(** * The track page ([renderTrackDetail]) *)
(* ================================================================== *)

Module TrackDetail.

Record Summary : Type := mkSummary
  { solved : N; total : N; attempts : N; passes : N;
    acc : option Z; solvedPerc : option Z }.

Record View : Type := mkView
  { summary : Summary;
    problems : list (Listing.Badge * Problem.t);
    recent : list TrackDashboard.Row }.

(** The recent list of the track page: every dated entry, the title
    looked up with [problems.find]. *)
Definition recentRows (problems : list Problem.t) (progress : ProgressRecord)
  : list TrackDashboard.Row :=
  map (fun entry =>
         ((0 <? AttemptStat.passes (snd entry))%N,
          TrackDashboard.titleOrId
            (find (fun x => String.eqb (Problem.id x) (fst entry)) problems)
            (fst entry),
          lastOf entry))
      (sortEntries (datedEntries progress)).

(** [renderTrackDetail]; [None] when [loadJson] throws. *)
Definition renderTrackDetail (net : Network) (ls : LocalStorage)
    (problemsUrl trackKey : string) : option View :=
  match net problemsUrl with
  | None => None
  | Some problems =>
      let progress := Store.get ls trackKey in
      let total := N.of_nat (List.length problems) in
      let solved := TrackDashboard.solvedCount progress in
      let '(a, p) := TrackDashboard.totals progress in
      Some (mkView (mkSummary solved total a p (pct p a) (pct solved total))
                   (Listing.renderList problems progress)
                   (recentRows problems progress))
  end.

End TrackDetail.

(* ================================================================== *)
(** * The activity chart ([updateActivityChart], [viewTrackChart]) *)
(* ================================================================== *)

Module Chart.

(** The labels and the data of [window.__activityChart]; [None] when
    there is no chart. *)
Definition State : Type := option (list Z * list N).

Definition updateActivityChart (chart : State) (labels : list Z)
    (series : list N) : State :=
  match chart with
  | None => None
  | Some _ => Some (labels, series)
  end.

(** [viewTrackChart]: [key] is [dataset.track] of the button, [tracks] is
    [window.TRACKS]. *)
Definition viewTrackChart (tz : Clock.TimeZone) (ls : LocalStorage) (today : Z)
    (tracks : list Track.t) (chart : State) (key : string) : State :=
  match key with
  | EmptyString => chart
  | _ =>
      match find (fun x => String.eqb (Track.key x) key) tracks with
      | None => chart
      | Some t =>
          let s := Analytics.buildDailySeries tz ls today [Track.trackKey t] 14 in
          updateActivityChart chart (Analytics.labels s) (Analytics.series s)
      end
  end.

End Chart.

(* ================================================================== *)
(** * The run button of the editor *)
(* ================================================================== *)

Module Editor.
Import Practice Listing.

(** What the output box shows. *)
Inductive Output : Type :=
| Locked
| NoOutput
| Printed (msg : string).

(** The characters that [.] does not match: line feed and carriage
    return, among the ASCII characters. *)
Definition isLineTerminator (c : ascii) : bool :=
  let n := nat_of_ascii c in ((n =? 10) || (n =? 13))%nat.

(** The class of the double and the single quote. *)
Definition isQuote (c : ascii) : bool :=
  let n := nat_of_ascii c in ((n =? 34) || (n =? 39))%nat.

(** The text up to the end of the line. *)
Fixpoint lineRest (s : string) : string :=
  match s with
  | EmptyString => EmptyString
  | String c r => if isLineTerminator c then EmptyString else String c (lineRest r)
  end.

(** The longest [x] such that the line is [x] followed by a closing
    parenthesis, a semicolon and anything: what the greedy group of the
    pattern keeps. *)
Fixpoint lastClose (line : string) : option string :=
  match line with
  | EmptyString => None
  | String c r =>
      match lastClose r with
      | Some x => Some (String c x)
      | None => if startsWith line ");" then Some EmptyString else None
      end
  end.

Definition println : string := "System.out.println(".

Fixpoint skip (n : nat) (s : string) : string :=
  match n, s with
  | S n', String _ r => skip n' r
  | _, _ => s
  end.

(** [code.match(...)] with the pattern of the first [System.out.println]
    statement that is closed on its line: the group of the leftmost
    match. *)
Fixpoint firstPrintln (code : string) : option string :=
  match code with
  | EmptyString => None
  | String _ r =>
      let here := if startsWith code println
                  then lastClose (lineRest (skip (String.length println) code))
                  else None in
      match here with
      | Some g => Some g
      | None => firstPrintln r
      end
  end.

(** [.replace(/.../g, '')] on the class of the two quotes. *)
Fixpoint removeQuotes (s : string) : string :=
  match s with
  | EmptyString => EmptyString
  | String c r => if isQuote c then removeQuotes r else String c (removeQuotes r)
  end.

(** [runBtn.onclick]. *)
Definition run (isOwner : bool) (code : string) : Output :=
  if negb isOwner then Locked
  else match firstPrintln code with
       | Some EmptyString => NoOutput
       | Some g => Printed (trim (removeQuotes g))
       | None => NoOutput
       end.

End Editor.

(* ================================================================== *)
(** * Vocabulary of the statements *)
(* ================================================================== *)

Module Spec.
Import Clock.

(** The key pushed by the iteration of the window loop with loop
    variable [i]: the UTC day of the instant [i] local days before
    [today]. *)
Definition windowKey (tz : TimeZone) (today : Z) (i : nat) : Z :=
  isoDay (daysBefore tz today (Z.of_nat i)).

(** A storage holding one progress object. *)
Definition storeOf (key : string) (progress : ProgressRecord) : LocalStorage :=
  fun k => if String.eqb k key then Json progress else Missing.

(** [s.attempts || 1]. *)
Definition weight (s : AttemptStat.t) : N :=
  if (AttemptStat.attempts s =? 0)%N then 1%N else AttemptStat.attempts s.

(** Every [AttemptStat] stored under the track keys, in order. *)
Definition allStats (ls : LocalStorage) (trackKeys : list string)
  : list AttemptStat.t :=
  flat_map (fun k => values (Analytics.getProgress ls k)) trackKeys.

(** Those of them that [buildDailySeries] visits. *)
Definition readStats (ls : LocalStorage) (trackKeys : list string)
  : list AttemptStat.t :=
  flat_map (fun k => Analytics.readable (values (Analytics.getProgress ls k)))
           trackKeys.

(** Every stored [last] is the time value of a valid date. *)
Definition instantsOk (ls : LocalStorage) (trackKeys : list string) : bool :=
  forallb Analytics.dateOk (allStats ls trackKeys).

(** What one stat adds to the bucket of day [k]: its [attempts]
    ([1] when that is [0]) if its [last] instant falls on UTC day [k]. *)
Definition contribution (k : Z) (s : AttemptStat.t) : N :=
  match AttemptStat.dated s with
  | Some w =>
      if isoDay w =? k then weight s else 0%N
  | None => 0%N
  end.

Definition bucket (k : Z) (stats : list AttemptStat.t) : N :=
  fold_right (fun s acc => (contribution k s + acc)%N) 0%N stats.

(** What the stats stored under the track keys weigh together. *)
Definition totalWeight (ls : LocalStorage) (trackKeys : list string) : N :=
  fold_right (fun s acc => (weight s + acc)%N) 0%N (allStats ls trackKeys).

(** Sums and counts over the entries of a progress object. *)
Definition sumAttempts (l : list AttemptStat.t) : N :=
  fold_right (fun s acc => (AttemptStat.attempts s + acc)%N) 0%N l.
Definition sumPasses (l : list AttemptStat.t) : N :=
  fold_right (fun s acc => (AttemptStat.passes s + acc)%N) 0%N l.
Definition countSolved (l : list AttemptStat.t) : N :=
  N.of_nat (List.length (filter (fun s => (0 <? AttemptStat.passes s)%N) l)).

(** The later of two optional instants. *)
Definition later (a b : option Z) : option Z :=
  match a, b with
  | Some x, Some y => Some (Z.max x y)
  | Some x, None => Some x
  | None, _ => b
  end.

(** The latest [last] instant, if any entry has one. *)
Definition latest (l : list AttemptStat.t) : option Z :=
  fold_right (fun s acc => later (AttemptStat.dated s) acc) None l.

(** Everything the sections push on [recent], section after section. *)
Definition allRecent (net : Network) (ls : LocalStorage)
    (sections : list Track.t) : list Dashboard.RecentItem :=
  flat_map (fun s =>
              match net (Track.problemsUrl s) with
              | Some problems =>
                  Dashboard.recentOf s problems (Store.get ls (Track.trackKey s))
              | None => []
              end) sections.

(** Most recent first. *)
Definition newerFirst (a b : Dashboard.RecentItem) : Prop :=
  Dashboard.when b <= Dashboard.when a.

(** The invariant of the data model. *)
Definition consistent (s : AttemptStat.t) : Prop :=
  (AttemptStat.passes s <= AttemptStat.attempts s)%N.

End Spec.

(* ================================================================== *)
(** * Sample inputs *)
(* ================================================================== *)

Module Samples.
Import Clock.

(** 2024-01-02T20:00:00.000Z, on UTC day 19724. *)
Definition today0 : Z := 1704225600000.

(** Indian Standard Time, UTC+05:30. *)
Definition ist : TimeZone := fixedZone 19800000.

(** New York in 2024: UTC-05:00, and UTC-04:00 from March 10th, 07:00 UTC
    (02:00 on the local clock, which jumps to 03:00) to November 3rd,
    06:00 UTC (02:00 on the local clock, which falls back to 01:00).  A
    local time that the clock skips or shows twice is read with the
    offset in force before the change. *)
Definition newYork : TimeZone :=
  mkTimeZone
    (fun t isUTC =>
       if isUTC
       then if (1710054000000 <=? t) && (t <? 1730613600000)
            then -14400000 else -18000000
       else if (1710039600000 <=? t) && (t <? 1730599200000)
            then -14400000 else -18000000).

(** 2024-03-10T23:30:00.000Z: 19:30 in New York on the day the clocks
    went forward, UTC day 19792. *)
Definition springEvening : Z := 1710113400000.

(** 2024-11-10T00:30:00.000Z: 19:30 in New York on November 9th, six
    days after the clocks went back, UTC day 20037. *)
Definition autumnEvening : Z := 1731198600000.

Import Spec.

(** One attempt stat of 3 attempts, dated [back] days before [today0]. *)
Definition agedStore (back : Z) : LocalStorage :=
  storeOf "jc_progress"
    [("p1"%string, AttemptStat.mk 3 1 (Some (today0 - back * msPerDay)))].

(** An attempt made on 2024-01-01T20:00:00.000Z: 01:30 on January 2nd
    on a clock set to Indian Standard Time. *)
Definition lateEvening : Z := 1704139200000.
Definition lateStore : LocalStorage :=
  storeOf "jc_progress" [("p1"%string, AttemptStat.mk 3 1 (Some lateEvening))].

(** Two tracks; only the problem list of the first one can be fetched. *)
Definition trackA : Track.t :=
  Track.mk "Java Core" "data/java-core.json" "jc_progress" "jc" "java-core.html".
Definition trackB : Track.t :=
  Track.mk "Mini Java" "data/mini-java.json" "mj_progress" "mj" "mini-java.html".

Definition problem (id title : string) : Problem.t :=
  Problem.mk id title "Basics" "Easy" "Print the sum." None
             [TestCase.mk "2 2" "4"].

Definition netA : Network :=
  fun url => if String.eqb url "data/java-core.json"
             then Some [problem "p1" "Sum"; problem "p2" "Product"]
             else None.

Definition storeAB : LocalStorage :=
  fun k =>
    if String.eqb k "jc_progress"
    then Json [("p1"%string, AttemptStat.mk 3 1 (Some 1704139200000))]
    else if String.eqb k "mj_progress"
         then Json [("q1"%string, AttemptStat.mk 2 2 (Some 1704225600000))]
         else Missing.

(** A track of 5 problems with the progress of the specification's
    example. *)
Definition fiveProblems : list Problem.t :=
  [problem "p1" "One"; problem "p2" "Two"; problem "p3" "Three";
   problem "p4" "Four"; problem "p5" "Five"].
Definition exampleStore : LocalStorage :=
  storeOf "jc_progress"
    [("p1"%string, AttemptStat.mk 3 1 (Some 1704139200000));
     ("p2"%string, AttemptStat.mk 2 2 (Some 1704225600000))].

(** 23 passes out of 40 attempts, and 2 passes out of 1 attempt. *)
Definition store23of40 : LocalStorage :=
  storeOf "jc_progress" [("p1"%string, AttemptStat.mk 40 23 (Some 1704139200000))].
Definition store2of1 : LocalStorage :=
  storeOf "jc_progress" [("p1"%string, AttemptStat.mk 1 2 (Some 1704139200000))].

(** Fifteen dated entries of one track, with instants 1 to 15. *)
Definition fifteen : ProgressRecord :=
  map (fun i => (String (ascii_of_nat (97 + i)) EmptyString,
                 AttemptStat.mk 1 0 (Some (Z.of_nat (S i)))))
      (seq 0 15).

End Samples.

(* ================================================================== *)
(** * Further vocabulary and sample inputs *)
(* ================================================================== *)

Module Terms.

(** [attempts] and [passes] of the entry of a problem, [0] without one. *)
Definition attemptsOf (id : string) (progress : ProgressRecord) : N :=
  match lookup id progress with
  | Some s => AttemptStat.attempts s
  | None => 0%N
  end.

Definition passesOf (id : string) (progress : ProgressRecord) : N :=
  match lookup id progress with
  | Some s => AttemptStat.passes s
  | None => 0%N
  end.

(** Whether the submit handler records an attempt for the problem [id]:
    it does unless [progress[id]] is an inherited value. *)
Definition recorded (progress : ProgressRecord) (id : string) : bool :=
  match lookup id progress with
  | Some _ => true
  | None => negb (inherited id)
  end.

(** The submissions made for a problem, and those that passed every test. *)
Definition submissionsFor (id : string) (subs : list Session.Submission)
  : list Session.Submission :=
  filter (fun sub => String.eqb (Problem.id (Session.problem sub)) id) subs.

Definition passedOnes (subs : list Session.Submission) : list Session.Submission :=
  filter (fun sub => Practice.passAll (Session.problem sub) (Session.answers sub)) subs.

(** The submissions that are recorded. *)
Definition recordedOnes (progress : ProgressRecord) (subs : list Session.Submission)
  : list Session.Submission :=
  filter (fun sub => recorded progress (Problem.id (Session.problem sub))) subs.

(** The problems whose topic gets a card: a topic with an inherited name
    gets none. *)
Definition carded (problems : list Problem.t) : list Problem.t :=
  filter (fun p => negb (inherited (Problem.topic p))) problems.

(** The problems of a topic, and the solved ones among them. *)
Definition inTopic (topic : string) (problems : list Problem.t) : list Problem.t :=
  filter (fun p => String.eqb (Problem.topic p) topic) problems.

Definition isSolved (progress : ProgressRecord) (p : Problem.t) : bool :=
  match lookup (Problem.id p) progress with
  | Some s => (0 <? AttemptStat.passes s)%N
  | None => false
  end.

(** No white space in front. *)
Definition headClean (s : string) : bool :=
  match s with
  | EmptyString => true
  | String c _ => negb (Practice.isWhiteSpace c)
  end.

(** Entries sorted most recent first. *)
Definition newerEntryFirst (a b : string * AttemptStat.t) : Prop :=
  lastOf b <= lastOf a.

(** The sum of a list of counts. *)
Definition sumN (l : list N) : N := fold_right N.add 0%N l.

(** The numbers a section adds to the overall totals: problems, attempts,
    passes, solved. *)
Definition sectionNumbers (net : Network) (ls : LocalStorage) (s : Track.t)
  : N * N * N * N :=
  match net (Track.problemsUrl s) with
  | Some problems =>
      let '(a, p, sv) := Dashboard.tally (Store.get ls (Track.trackKey s)) in
      (N.of_nat (List.length problems), a, p, sv)
  | None => (0, 0, 0, 0)%N
  end.

(** The card of a section whose problem list loads. *)
Definition cardOf (net : Network) (ls : LocalStorage) (s : Track.t)
  : list Dashboard.Card :=
  match net (Track.problemsUrl s) with
  | Some problems =>
      let '(a, p, sv) := Dashboard.tally (Store.get ls (Track.trackKey s)) in
      let total := N.of_nat (List.length problems) in
      [Dashboard.mkCard (Track.title s) sv total a p (pct p a) (pct sv total)]
  | None => []
  end.

(** The flag and the instant of a line of a recent list. *)
Definition rowKey (row : TrackDashboard.Row) : bool * Z :=
  (fst (fst row), snd row).

Definition addNumbers (x y : N * N * N * N) : N * N * N * N :=
  let '(a, b, c, d) := x in
  let '(a', b', c', d') := y in
  ((a + a')%N, (b + b')%N, (c + c')%N, (d + d')%N).

Definition overallNumbers (ov : Dashboard.Overall) : N * N * N * N :=
  (Dashboard.totalProblems ov, Dashboard.attempts ov, Dashboard.passes ov,
   Dashboard.solved ov).

(** Four numbers below [2^53]. *)
Definition safeNumbers (x : N * N * N * N) : Prop :=
  let '(a, b, c, d) := x in
  JsNumber.safe a /\ JsNumber.safe b /\ JsNumber.safe c /\ JsNumber.safe d.

(** What a stat dated on one of the [n] days ending on day [D] weighs in
    the daily series. *)
Definition windowWeight (D : Z) (n : nat) (s : AttemptStat.t) : N :=
  match AttemptStat.dated s with
  | Some w =>
      if (D - Z.of_nat n <? Clock.isoDay w) && (Clock.isoDay w <=? D)
      then Spec.weight s else 0%N
  | None => 0%N
  end.

(** A text without line feed or carriage return. *)
Fixpoint noLineBreak (s : string) : bool :=
  match s with
  | EmptyString => true
  | String c r => negb (Editor.isLineTerminator c) && noLineBreak r
  end.

(** A text that is empty or starts a new line. *)
Definition endsLine (s : string) : bool :=
  match s with
  | EmptyString => true
  | String c _ => Editor.isLineTerminator c
  end.

(** [System.out.println] without its opening parenthesis. *)
Definition printlnName : string := "System.out.println".

(** The figures of an analytics card that come from the progress object. *)
Definition progressFigures (stats : Analytics.TrackStats)
  : N * N * N * option Z * option Z * N :=
  (Analytics.solved stats, Analytics.attempts stats, Analytics.passes stats,
   Analytics.accuracy stats, Analytics.lastActive stats, Analytics.streak stats).

(** A storage in which what does not parse has been replaced by an empty
    object. *)
Definition healed (ls : LocalStorage) : LocalStorage :=
  fun k => match ls k with
           | Json p => Json p
           | Missing => Json []
           | Malformed => Json []
           end.

End Terms.

Module Examples.

Definition newline : string := String (ascii_of_nat 10) EmptyString.
Definition doubleQuote : string := String (ascii_of_nat 34) EmptyString.

(** The program the editor opens with. *)
Definition starterCode : string :=
  ("class Solution {" ++ newline ++
   "  public static void main(String[] args) {" ++ newline ++
   "    System.out.println(" ++ doubleQuote ++ "Hello, Gokul!" ++ doubleQuote ++ ");"
   ++ newline ++ "  }" ++ newline ++ "}")%string.

(** Its parts: what precedes the statement, the argument, what follows. *)
Definition starterPrefix : string :=
  ("class Solution {" ++ newline ++
   "  public static void main(String[] args) {" ++ newline ++ "    ")%string.
Definition starterArgument : string :=
  (doubleQuote ++ "Hello, Gokul!" ++ doubleQuote)%string.
Definition starterRest : string := (newline ++ "  }" ++ newline ++ "}")%string.

(** Two submissions for [p1], the second one passing. *)
Definition twoSubmissions : list Session.Submission :=
  [Session.mkSubmission (Samples.problem "p1" "Sum") ["5"%string] 1704139200000;
   Session.mkSubmission (Samples.problem "p1" "Sum") ["4"%string] 1704225600000].

End Examples.

(* ================================================================== *)
(** * Dates: stepping back by days *)
(* ================================================================== *)

Section ClockFacts.
Import Clock.

Lemma msPerDay_pos : 0 < msPerDay.
Proof. reflexivity. Qed.

(** On a host with a fixed offset, [setDate(getDate() - i)] moves the
    instant back by [i] times 24 hours. *)
Lemma daysBefore_fixedZone (offset today i : Z) :
  daysBefore (fixedZone offset) today i = today - i * msPerDay.
Proof. unfold daysBefore, UTC, LocalTime; simpl; lia. Qed.

Lemma isoDay_back (t i : Z) : isoDay (t - i * msPerDay) = isoDay t - i.
Proof.
  unfold isoDay.
  replace (t - i * msPerDay) with (t + (- i) * msPerDay) by lia.
  rewrite Z.div_add by (pose proof msPerDay_pos; lia). lia.
Qed.

Lemma windowKey_fixedZone (offset today i : Z) :
  isoDay (daysBefore (fixedZone offset) today i) = isoDay today - i.
Proof. now rewrite daysBefore_fixedZone, isoDay_back. Qed.

End ClockFacts.

(* ================================================================== *)
(** * The daily series *)
(* ================================================================== *)

Section DailySeriesFacts.
Import Clock Analytics Spec.

Variable tz : TimeZone.
Variable today : Z.

Lemma countsGet_set (k k' : Z) (v : N) (c : Counts) :
  countsGet k' (countsSet k v c) = if k =? k' then Some v else countsGet k' c.
Proof.
  induction c as [|[k0 v0] c IH]; simpl.
  - destruct (k =? k'); reflexivity.
  - destruct (k0 =? k) eqn:E0; simpl.
    + apply Z.eqb_eq in E0; subst k0. destruct (k =? k'); reflexivity.
    + destruct (k0 =? k') eqn:E1.
      * apply Z.eqb_eq in E1; subst k0. now rewrite Z.eqb_sym, E0.
      * exact IH.
Qed.

Lemma fillWindow_labels (n : nat) (ls0 : list Z) (c : Counts) :
  fst (fillWindow tz today n ls0 c) = ls0 ++ map (windowKey tz today) (rev (seq 0 n)).
Proof.
  revert ls0 c; induction n as [|n IH]; intros ls0 c.
  - simpl. now rewrite app_nil_r.
  - cbn [fillWindow]. rewrite IH, seq_S, rev_app_distr. simpl.
    now rewrite <- app_assoc.
Qed.

(** After the first loop [counts] holds [0] for exactly the labels. *)
Lemma fillWindow_counts (n : nat) (ls0 : list Z) (c : Counts) :
  (forall k, countsGet k c = if setHas k ls0 then Some 0%N else None) ->
  forall k, countsGet k (snd (fillWindow tz today n ls0 c)) =
            if setHas k (fst (fillWindow tz today n ls0 c)) then Some 0%N else None.
Proof.
  revert ls0 c; induction n as [|n IH]; intros ls0 c Hc k.
  - simpl. apply Hc.
  - cbn [fillWindow]. apply IH. intro k'.
    rewrite countsGet_set. unfold setHas. rewrite existsb_app. simpl.
    fold (setHas k' ls0). rewrite (Hc k'), (Z.eqb_sym k'), orb_false_r.
    destruct (setHas k' ls0); simpl; destruct (_ =? k'); reflexivity.
Qed.

Lemma countsGet_addStat (k : Z) (c : Counts) (s : AttemptStat.t) :
  countsGet k (addStat c s) =
  match countsGet k c with
  | Some v => Some (v + contribution k s)%N
  | None => None
  end.
Proof.
  unfold addStat, contribution.
  destruct (AttemptStat.dated s) as [w|].
  - destruct (countsGet (isoDay w) c) as [v0|] eqn:Eg.
    + rewrite countsGet_set. destruct (isoDay w =? k) eqn:Ek.
      * apply Z.eqb_eq in Ek. rewrite <- Ek, Eg. reflexivity.
      * destruct (countsGet k c); [now rewrite N.add_0_r|reflexivity].
    + destruct (isoDay w =? k) eqn:Ek.
      * apply Z.eqb_eq in Ek. rewrite <- Ek, Eg. reflexivity.
      * destruct (countsGet k c); [now rewrite N.add_0_r|reflexivity].
  - destruct (countsGet k c); [now rewrite N.add_0_r|reflexivity].
Qed.

Lemma countsGet_addStats (k : Z) (stats : list AttemptStat.t) (c : Counts) :
  countsGet k (fold_left addStat stats c) =
  match countsGet k c with
  | Some v => Some (v + bucket k stats)%N
  | None => None
  end.
Proof.
  revert c; induction stats as [|s stats IH]; intro c; simpl.
  - destruct (countsGet k c); [now rewrite N.add_0_r|reflexivity].
  - rewrite IH, countsGet_addStat.
    destruct (countsGet k c); [now rewrite N.add_assoc|reflexivity].
Qed.

Lemma bucket_app (k : Z) (l1 l2 : list AttemptStat.t) :
  bucket k (l1 ++ l2) = (bucket k l1 + bucket k l2)%N.
Proof.
  induction l1 as [|s l1 IH]; simpl; [reflexivity|].
  rewrite IH. now rewrite N.add_assoc.
Qed.

Lemma addTrack_fold (ls : LocalStorage) (c : Counts) (key : string) :
  addTrack ls c key = fold_left addStat (readable (values (getProgress ls key))) c.
Proof. unfold addTrack, getProgress. destruct (ls key); reflexivity. Qed.

Lemma countsGet_addTracks (ls : LocalStorage) (k : Z) (keys : list string)
      (c : Counts) :
  countsGet k (fold_left (addTrack ls) keys c) =
  match countsGet k c with
  | Some v => Some (v + bucket k (readStats ls keys))%N
  | None => None
  end.
Proof.
  revert c; induction keys as [|key keys IH]; intro c; simpl.
  - destruct (countsGet k c); [now rewrite N.add_0_r|reflexivity].
  - rewrite IH, addTrack_fold, countsGet_addStats, bucket_app.
    destruct (countsGet k c); [now rewrite N.add_assoc|reflexivity].
Qed.

Lemma setHas_In (k : Z) (l : list Z) : setHas k l = true <-> In k l.
Proof.
  unfold setHas. rewrite existsb_exists. split.
  - intros [x [Hx E]]. apply Z.eqb_eq in E. now subst.
  - intro H. exists k. split; [assumption|apply Z.eqb_refl].
Qed.

(** The labels are the keys of the iterations [i = days - 1, ..., 0]. *)
Lemma buildDailySeries_labels (ls : LocalStorage) (keys : list string) (days : nat) :
  labels (buildDailySeries tz ls today keys days) = map (windowKey tz today) (rev (seq 0 days)).
Proof.
  unfold buildDailySeries.
  pose proof (fillWindow_labels days [] []) as Hl.
  destruct (fillWindow tz today days [] []) as [l c]. simpl in *. exact Hl.
Qed.

(** Every entry of the series is the sum of the contributions of the
    visited stats whose UTC day is the label of that entry. *)
Lemma buildDailySeries_visited (ls : LocalStorage) (keys : list string) (days : nat) :
  series (buildDailySeries tz ls today keys days) =
  map (fun l => bucket l (readStats ls keys))
      (labels (buildDailySeries tz ls today keys days)).
Proof.
  unfold buildDailySeries.
  pose proof (fillWindow_counts days [] [] (fun _ => eq_refl)) as Hc.
  destruct (fillWindow tz today days [] []) as [l c]. simpl in *.
  apply map_ext_in. intros k Hk.
  rewrite countsGet_addTracks, Hc.
  apply setHas_In in Hk. now rewrite Hk.
Qed.

(** The visited stats are a front part of the stored ones, and all of
    them when every date is valid. *)
Lemma readable_incl (l : list AttemptStat.t) (s : AttemptStat.t) :
  In s (readable l) -> In s l.
Proof.
  induction l as [|x l IH]; simpl; [tauto|].
  destruct (dateOk x); simpl; [|tauto]. intros [H|H]; [now left|right; now apply IH].
Qed.

Lemma readable_all (l : list AttemptStat.t) :
  forallb dateOk l = true -> readable l = l.
Proof.
  induction l as [|x l IH]; simpl; [reflexivity|].
  intro H. apply andb_true_iff in H. destruct H as [Hx Hl].
  now rewrite Hx, IH.
Qed.

Lemma readStats_incl (ls : LocalStorage) (keys : list string) (s : AttemptStat.t) :
  In s (readStats ls keys) -> In s (allStats ls keys).
Proof.
  unfold readStats, allStats. rewrite !in_flat_map.
  intros (k & Hk & Hs). exists k. split; [exact Hk|now apply readable_incl].
Qed.

Lemma readStats_all (ls : LocalStorage) (keys : list string) :
  instantsOk ls keys = true -> readStats ls keys = allStats ls keys.
Proof.
  unfold instantsOk, readStats, allStats.
  induction keys as [|k keys IH]; simpl; [reflexivity|].
  rewrite forallb_app. intro H. apply andb_true_iff in H. destruct H as [Hk Hr].
  now rewrite readable_all, IH.
Qed.

(** With valid dates every entry of the series is the sum of the
    contributions of the stored stats whose UTC day is its label. *)
Lemma buildDailySeries_series (ls : LocalStorage) (keys : list string) (days : nat) :
  instantsOk ls keys = true ->
  series (buildDailySeries tz ls today keys days) =
  map (fun l => bucket l (allStats ls keys))
      (labels (buildDailySeries tz ls today keys days)).
Proof. intro H. now rewrite buildDailySeries_visited, readStats_all. Qed.

(** Where the offset of the zone never varies by more than a day, a
    longer step back reaches an earlier or equal UTC day. *)
Lemma windowKey_antitone (i j : nat) :
  (forall a b, LocalTZA tz a false - LocalTZA tz b false <= msPerDay) ->
  (j <= i)%nat -> windowKey tz today i <= windowKey tz today j.
Proof.
  intros Hoff Hji. unfold windowKey, isoDay.
  apply Z.div_le_mono; [reflexivity|].
  destruct (Nat.eq_dec i j) as [->|Hne]; [lia|].
  unfold daysBefore, UTC.
  pose proof (Hoff (LocalTime tz today - Z.of_nat j * msPerDay)
                   (LocalTime tz today - Z.of_nat i * msPerDay)) as H.
  assert (Hstep : msPerDay <= (Z.of_nat i - Z.of_nat j) * msPerDay)
    by (unfold msPerDay; lia).
  lia.
Qed.

Lemma labels_sorted (ls : LocalStorage) (keys : list string) (days : nat) :
  (forall a b, LocalTZA tz a false - LocalTZA tz b false <= msPerDay) ->
  StronglySorted Z.le (labels (buildDailySeries tz ls today keys days)).
Proof.
  intro Hoff. rewrite buildDailySeries_labels.
  induction days as [|n IH]; [constructor|].
  rewrite seq_S, rev_app_distr. simpl. constructor; [exact IH|].
  rewrite Forall_forall. intros k Hk.
  apply in_map_iff in Hk. destruct Hk as (j & <- & Hj).
  apply in_rev, in_seq in Hj.
  apply windowKey_antitone; [exact Hoff|lia].
Qed.

Lemma nth_rev_seq (n i : nat) :
  (i < n)%nat -> nth i (rev (seq 0 n)) O = (n - 1 - i)%nat.
Proof.
  intro H. rewrite rev_nth by (rewrite length_seq; exact H).
  rewrite length_seq, seq_nth by lia. lia.
Qed.

Lemma buildDailySeries_nth_label (ls : LocalStorage) (keys : list string)
      (days i : nat) :
  (i < days)%nat ->
  nth i (labels (buildDailySeries tz ls today keys days)) 0 = windowKey tz today (days - 1 - i).
Proof.
  intro H. rewrite buildDailySeries_labels.
  assert (E : forall d, nth i (map (windowKey tz today) (rev (seq 0 days))) d
                        = windowKey tz today (nth i (rev (seq 0 days)) O)).
  { intro d. rewrite (nth_indep _ d (windowKey tz today O)) by (rewrite length_map, length_rev, length_seq; exact H).
    apply map_nth. }
  rewrite E, nth_rev_seq by exact H. reflexivity.
Qed.

End DailySeriesFacts.

Section DailySeriesClaims.
Import Clock Analytics Spec.

Lemma bucket_none (k : Z) (stats : list AttemptStat.t) :
  (forall s w, In s stats -> AttemptStat.dated s = Some w -> isoDay w <> k) ->
  bucket k stats = 0%N.
Proof.
  induction stats as [|s stats IH]; intro H; simpl; [reflexivity|].
  rewrite IH by (intros s' w Hs; apply H; now right).
  unfold contribution. destruct (AttemptStat.dated s) as [w|] eqn:E; [|reflexivity].
  specialize (H s w (or_introl eq_refl) E).
  apply Z.eqb_neq in H. now rewrite H.
Qed.

Lemma labels_fixedZone (offset : Z) (ls : LocalStorage) (today : Z)
      (keys : list string) (days : nat) :
  labels (buildDailySeries (fixedZone offset) ls today keys days) =
  map (fun i => isoDay today - Z.of_nat (days - 1) + Z.of_nat i) (seq 0 days).
Proof.
  rewrite buildDailySeries_labels.
  apply (nth_ext _ _ 0 0).
  - now rewrite !length_map, length_rev.
  - intros i Hi. rewrite length_map, length_rev, length_seq in Hi.
    rewrite (nth_indep _ 0 (windowKey (fixedZone offset) today O))
      by (rewrite length_map, length_rev, length_seq; exact Hi).
    rewrite map_nth, nth_rev_seq by exact Hi.
    rewrite (nth_indep _ 0 ((fun i => isoDay today - Z.of_nat (days - 1) + Z.of_nat i) O))
      by (rewrite length_map, length_seq; exact Hi).
    rewrite (map_nth (fun i => isoDay today - Z.of_nat (days - 1) + Z.of_nat i)).
    rewrite seq_nth by exact Hi.
    unfold windowKey. rewrite windowKey_fixedZone. lia.
Qed.

(** C1: whatever the stored progress and the window size [days] (14 by
    default), [buildDailySeries] returns [days] labels and [days] counts;
    entry [i] belongs to the day reached by stepping [days - 1 - i] days
    back from today, oldest first: the labels never decrease where the
    offset of the zone varies by a day at most, and on a host with a fixed
    UTC offset they are the consecutive days ending today; an entry whose
    day no stat is dated on is [0]. *)
Theorem buildDailySeries_exact_window :
  forall (tz : TimeZone) (ls : LocalStorage) (today : Z)
         (trackKeys : list string) (days : nat),
    let r := buildDailySeries tz ls today trackKeys days in
    List.length (labels r) = days /\
    List.length (series r) = days /\
    (forall i, (i < days)%nat ->
               nth i (labels r) 0 = windowKey tz today (days - 1 - i)) /\
    ((forall a b, LocalTZA tz a false - LocalTZA tz b false <= msPerDay) ->
     StronglySorted Z.le (labels r)) /\
    (forall offset,
        labels (buildDailySeries (fixedZone offset) ls today trackKeys days) =
        map (fun i => isoDay today - Z.of_nat (days - 1) + Z.of_nat i)
            (seq 0 days)) /\
    (forall i, (i < days)%nat ->
               (forall s w, In s (allStats ls trackKeys) ->
                            AttemptStat.dated s = Some w ->
                            isoDay w <> nth i (labels r) 0) ->
               nth i (series r) 0%N = 0%N).
Proof.
  intros tz ls today trackKeys days r.
  assert (Hlen : List.length (labels r) = days).
  { unfold r. now rewrite buildDailySeries_labels, length_map, length_rev, length_seq. }
  repeat split.
  - exact Hlen.
  - unfold r. rewrite buildDailySeries_visited, length_map. exact Hlen.
  - intros i Hi. now apply buildDailySeries_nth_label.
  - apply labels_sorted.
  - intro offset. apply labels_fixedZone.
  - intros i Hi Hnone. unfold r. rewrite buildDailySeries_visited.
    fold r.
    rewrite (nth_indep _ 0%N ((fun l => bucket l (readStats ls trackKeys)) 0))
      by (rewrite length_map, Hlen; exact Hi).
    rewrite (map_nth (fun l => bucket l (readStats ls trackKeys))).
    apply bucket_none. intros s w Hs. apply Hnone. now apply readStats_incl.
Qed.

(** The default call on an empty storage: 14 entries, all of them [0]. *)
Lemma buildDailySeries_exact_window_witness :
  List.length (series (buildDailySeries Samples.ist (fun _ => Missing) Samples.today0
                                        defaultTrackKeys defaultDays)) = 14%nat /\
  nth 3 (series (buildDailySeries Samples.ist (fun _ => Missing) Samples.today0
                                  defaultTrackKeys defaultDays)) 0%N = 0%N.
Proof.
  destruct (buildDailySeries_exact_window Samples.ist (fun _ => Missing)
              Samples.today0 defaultTrackKeys defaultDays)
    as (_ & Hs & _ & _ & _ & Hz).
  split.
  - exact Hs.
  - apply Hz.
    + unfold defaultDays; lia.
    + intros s w Hin. simpl in Hin. contradiction.
Defined.

Lemma series_eta (r : DailySeries) : r = mkSeries (labels r) (series r).
Proof. destruct r; reflexivity. Qed.

Lemma allStats_storeOf (key pid : string) (s : AttemptStat.t) :
  allStats (storeOf key [(pid, s)]) [key] = [s].
Proof.
  unfold allStats, storeOf, getProgress. simpl.
  now rewrite String.eqb_refl.
Qed.


(** Where the offset changes inside the window, the labels are not the
    14 days ending today: in New York, six days after the clocks went
    back, the UTC day of the change is skipped, the window starts 14 days
    before today, and a stat dated on that day is counted. *)
Lemma window14_across_clock_change :
  let D := isoDay Samples.autumnEvening in
  let r := buildDailySeries Samples.newYork
             (storeOf "jc_progress"
                [("p1"%string,
                  AttemptStat.mk 3 1 (Some (Samples.autumnEvening - 14 * msPerDay)))])
             Samples.autumnEvening ["jc_progress"%string] 14 in
  labels r = map (fun i => D - 14 + i) [0; 1; 2; 3; 4; 5; 6]
             ++ map (fun i => D - 6 + i) [0; 1; 2; 3; 4; 5; 6] /\
  series r = 3%N :: repeat 0%N 13.
Proof. vm_compute. split; reflexivity. Qed.




(** C8, as stated, fails: on a clock set to UTC+05:30 an attempt made at
    01:30 on January 2nd (local day 19724) is counted under January 1st
    (key 19723), its UTC day, although January 2nd is a label too. *)
Lemma dayKey_not_local :
  let r := buildDailySeries Samples.ist Samples.lateStore Samples.today0
                            ["jc_progress"%string] 2 in
  localDay Samples.ist Samples.lateEvening = 19724 /\
  labels r = [19723; 19724] /\
  series r = [3; 0]%N.
Proof. vm_compute. repeat split. Qed.

(** C8, amended: the day key of an [AttemptStat] is the UTC day of its
    [last] instant, whatever the host's zone: with valid dates and
    counters below [2^53], every entry of the series sums the stats whose
    UTC day is its label; and two hosts with different fixed offsets
    build the same series. *)
Theorem dayKey_is_utc :
  forall (tz : TimeZone) (ls : LocalStorage) (today : Z)
         (trackKeys : list string) (days : nat),
    let r := buildDailySeries tz ls today trackKeys days in
    (instantsOk ls trackKeys = true ->
     JsNumber.safe (totalWeight ls trackKeys) ->
     series r = map (fun l => bucket l (allStats ls trackKeys)) (labels r)) /\
    (forall o1 o2 : Z,
        buildDailySeries (fixedZone o1) ls today trackKeys days =
        buildDailySeries (fixedZone o2) ls today trackKeys days).
Proof.
  intros tz ls today trackKeys days r. split.
  - intros Hok _. now apply buildDailySeries_series.
  - intros o1 o2.
    rewrite (series_eta (buildDailySeries (fixedZone o1) ls today trackKeys days)).
    rewrite (series_eta (buildDailySeries (fixedZone o2) ls today trackKeys days)).
    rewrite !buildDailySeries_visited, !labels_fixedZone. reflexivity.
Qed.

(** The attempt of the late evening, seen from India: counted on its UTC
    day. *)
Lemma dayKey_is_utc_witness :
  let r := buildDailySeries Samples.ist Samples.lateStore Samples.today0
                            ["jc_progress"%string] 2 in
  series r
  = map (fun l => bucket l (allStats Samples.lateStore ["jc_progress"%string]))
        (labels r).
Proof.
  intro r.
  destruct (dayKey_is_utc Samples.ist Samples.lateStore Samples.today0
              ["jc_progress"%string] 2) as [H _].
  apply H; reflexivity.
Defined.

End DailySeriesClaims.

(* ================================================================== *)
(** * The streak *)
(* ================================================================== *)

Section StreakFacts.
Import Clock Analytics Spec.

Variable tz : TimeZone.
Variable today : Z.
Variable set : list Z.

Lemma streakLoop_S (remaining : nat) (offset : Z) (streak : N) :
  streakLoop tz today set (S remaining) offset streak =
  if setHas (isoDay (daysBefore tz today offset)) set
  then streakLoop tz today set remaining (offset + 1) (streak + 1)%N
  else if offset =? 0
       then streakLoop tz today set remaining (offset + 1) streak
       else streak.
Proof. reflexivity. Qed.

(** Past offset 0 the loop counts the run of present days that starts at
    [offset] and stops at the first missing day or when its iterations
    are used up. *)
Lemma streakLoop_run (remaining : nat) :
  forall (offset : Z) (streak : N),
    1 <= offset ->
    exists k : nat,
      streakLoop tz today set remaining offset streak = (streak + N.of_nat k)%N /\
      (k <= remaining)%nat /\
      (forall j, offset <= j < offset + Z.of_nat k ->
                 setHas (isoDay (daysBefore tz today j)) set = true) /\
      (k = remaining \/
       setHas (isoDay (daysBefore tz today (offset + Z.of_nat k))) set = false).
Proof.
  induction remaining as [|r IH]; intros offset streak Hoff.
  - exists O. simpl. rewrite N.add_0_r. repeat split; [lia|intros; lia|now left].
  - rewrite streakLoop_S.
    destruct (setHas (isoDay (daysBefore tz today offset)) set) eqn:Hhas.
    + destruct (IH (offset + 1) (streak + 1)%N ltac:(lia)) as (k & Hk & Hle & Hall & Hend).
      exists (S k). rewrite Hk. repeat split.
      * lia.
      * lia.
      * intros j Hj. destruct (Z.eq_dec j offset) as [->|Hne]; [exact Hhas|].
        apply Hall. lia.
      * destruct Hend as [->|Hend]; [now left|right].
        replace (offset + Z.of_nat (S k)) with (offset + 1 + Z.of_nat k) by lia.
        exact Hend.
    + assert (E : (offset =? 0) = false) by (apply Z.eqb_neq; lia).
      rewrite E. exists O. rewrite N.add_0_r, Z.add_0_r.
      repeat split; [lia|intros; lia|now right].
Qed.

End StreakFacts.

Section StreakClaims.
Import Clock Analytics Spec.

Ltac streak_step :=
  rewrite streakLoop_S, windowKey_fixedZone; unfold setHas; cbn [existsb];
  repeat match goal with
         | |- context [?a =? ?b] => destruct (Z.eqb_spec a b); try lia
         end;
  cbn [orb].

(** C2, as stated, fails where the offset of the zone changes.  In New
    York, on the evening of the day the clocks went forward, one day back
    on the local clock is the same UTC day again: the walk looks at the
    days [D], [D], [D - 1], [D - 2].  Activity on the three days before
    today gives 0, not 3; activity on today and yesterday gives 3, not 2;
    and activity on the three days the walk itself reaches at offsets 1,
    2 and 3 gives 4. *)
Lemma calcStreak_across_clock_change :
  let D := isoDay Samples.springEvening in
  let walk j := isoDay (daysBefore Samples.newYork Samples.springEvening j) in
  map walk [0; 1; 2; 3] = [D; D; D - 1; D - 2] /\
  calcStreak Samples.newYork Samples.springEvening [D - 1; D - 2; D - 3] = 0%N /\
  calcStreak Samples.newYork Samples.springEvening [D; D - 1] = 3%N /\
  calcStreak Samples.newYork Samples.springEvening [walk 1; walk 2; walk 3] = 4%N.
Proof. vm_compute. repeat split. Qed.

(** C2, amended: [calcStreak] walks back from today, offsets 0 to 364.
    When today is present the streak is the length of the run of present
    days that starts today; when today is missing the walk goes on
    (grace) and the streak is the length of the run that starts
    yesterday; in both cases the run ends at the first missing day at an
    offset of 1 or more, or at the cap.  On a host with a fixed UTC
    offset, activity on the three days before today only gives 3, on
    today and yesterday 2, none 0. *)
Theorem calcStreak_walk :
  forall (tz : TimeZone) (today : Z) (set : list Z),
    let present j := setHas (isoDay (daysBefore tz today j)) set in
    let streak := Z.of_N (calcStreak tz today set) in
    (present 0 = true ->
       1 <= streak <= 365 /\
       (forall j, 0 <= j < streak -> present j = true) /\
       (streak = 365 \/ present streak = false)) /\
    (present 0 = false ->
       0 <= streak <= 364 /\
       (forall j, 1 <= j <= streak -> present j = true) /\
       (streak = 364 \/ present (streak + 1) = false)) /\
    (forall offset : Z,
        let D := isoDay today in
        calcStreak (fixedZone offset) today [D - 1; D - 2; D - 3] = 3%N /\
        calcStreak (fixedZone offset) today [D; D - 1] = 2%N /\
        calcStreak (fixedZone offset) today [] = 0%N).
Proof.
  intros tz today set present streak.
  split; [|split].
  - intro H0. unfold streak, calcStreak. rewrite streakLoop_S.
    fold (present 0). rewrite H0.
    destruct (streakLoop_run tz today set 364 (0 + 1) (0 + 1)%N ltac:(lia))
      as (k & Hk & Hle & Hall & Hend).
    rewrite Hk. fold present in Hall, Hend.
    repeat split; try lia.
    + intros j Hj. destruct (Z.eq_dec j 0) as [->|Hne]; [exact H0|].
      apply Hall. lia.
    + destruct Hend as [->|Hend]; [left; lia|right].
      replace (Z.of_N (0 + 1 + N.of_nat k)) with (0 + 1 + Z.of_nat k) by lia.
      exact Hend.
  - intro H0. unfold streak, calcStreak. rewrite streakLoop_S.
    fold (present 0). rewrite H0. cbn [Z.eqb].
    destruct (streakLoop_run tz today set 364 (0 + 1) 0%N ltac:(lia))
      as (k & Hk & Hle & Hall & Hend).
    rewrite Hk. fold present in Hall, Hend.
    repeat split; try lia.
    + intros j Hj. apply Hall. lia.
    + destruct Hend as [->|Hend]; [left; lia|right].
      replace (Z.of_N (0 + N.of_nat k) + 1) with (0 + 1 + Z.of_nat k) by lia.
      exact Hend.
  - intros offset D. unfold calcStreak. split; [|split].
    + do 5 streak_step; reflexivity.
    + do 3 streak_step; reflexivity.
    + do 2 streak_step; reflexivity.
Qed.

(** Activity on the two days before [Samples.today0]: the day before is
    present, the day three days before is where the walk stops. *)
Lemma calcStreak_walk_witness :
  setHas (isoDay (daysBefore Samples.ist Samples.today0 1)) [19723; 19722] = true /\
  Z.of_N (calcStreak Samples.ist Samples.today0 [19723; 19722]) = 2.
Proof.
  destruct (calcStreak_walk Samples.ist Samples.today0 [19723; 19722])
    as (_ & H & _).
  destruct (H eq_refl) as (_ & Hall & _).
  split.
  - apply Hall. vm_compute. split; discriminate.
  - reflexivity.
Defined.

End StreakClaims.

(* ================================================================== *)
(** * The attempt panel *)
(* ================================================================== *)

Section NormalizeFacts.
Import Practice.

Lemma isWhiteSpace_lowerChar (c : ascii) :
  isWhiteSpace (lowerChar c) = isWhiteSpace c.
Proof. destruct c as [[] [] [] [] [] [] [] []]; reflexivity. Qed.

Lemma toLowerCase_trimStart (s : string) :
  trimStart (toLowerCase s) = toLowerCase (trimStart s).
Proof.
  induction s as [|c r IH]; simpl; [reflexivity|].
  rewrite isWhiteSpace_lowerChar. destruct (isWhiteSpace c); [exact IH|reflexivity].
Qed.

Lemma toLowerCase_trimEnd (s : string) :
  trimEnd (toLowerCase s) = toLowerCase (trimEnd s).
Proof.
  induction s as [|c r IH]; simpl; [reflexivity|].
  rewrite IH, isWhiteSpace_lowerChar.
  destruct (trimEnd r); simpl; [destruct (isWhiteSpace c)|]; reflexivity.
Qed.

Lemma toLowerCase_collapseFrom (inRun : bool) (s : string) :
  collapseFrom inRun (toLowerCase s) = toLowerCase (collapseFrom inRun s).
Proof.
  revert inRun; induction s as [|c r IH]; intro inRun; simpl; [reflexivity|].
  rewrite isWhiteSpace_lowerChar.
  destruct (isWhiteSpace c), inRun; simpl; now rewrite IH.
Qed.

Lemma lowerChar_idem (c : ascii) : lowerChar (lowerChar c) = lowerChar c.
Proof. destruct c as [[] [] [] [] [] [] [] []]; reflexivity. Qed.

Lemma toLowerCase_idem (s : string) : toLowerCase (toLowerCase s) = toLowerCase s.
Proof.
  induction s as [|c r IH]; simpl; [reflexivity|].
  now rewrite lowerChar_idem, IH.
Qed.

(** [normalize] only looks at the lower-case form of its argument. *)
Lemma normalize_toLowerCase (s : string) :
  normalize (Some (toLowerCase s)) = normalize (Some s).
Proof.
  unfold normalize, trim, collapse.
  rewrite toLowerCase_trimStart, toLowerCase_trimEnd, toLowerCase_collapseFrom.
  apply toLowerCase_idem.
Qed.

Lemma trimEnd_app_space (s : string) (c : ascii) :
  isWhiteSpace c = true ->
  trimEnd (s ++ String c EmptyString) = trimEnd s.
Proof.
  intro Hc. induction s as [|d r IH]; simpl.
  - now rewrite Hc.
  - now rewrite IH.
Qed.

Lemma trim_app_space (s : string) (c : ascii) :
  isWhiteSpace c = true ->
  trim (s ++ String c EmptyString) = trim s.
Proof.
  intro Hc. unfold trim. induction s as [|d r IH]; simpl.
  - now rewrite Hc.
  - destruct (isWhiteSpace d); [exact IH|].
    change (String d (r ++ String c EmptyString))
      with (String d r ++ String c EmptyString)%string.
    now apply trimEnd_app_space.
Qed.

End NormalizeFacts.

Section PracticeClaims.
Import Practice Spec.

(** C9, as stated, fails: an answer that differs from the expected text
    in letter case and in white space passes the test. *)
Lemma testOk_not_literal :
  testOk (Some "  HELLO   World "%string)
         (TestCase.mk "greet" "hello world") = true /\
  "  HELLO   World "%string <> "hello world"%string.
Proof. split; [reflexivity|discriminate]. Qed.

(** C9, amended: a test is passed exactly when the submitted output and
    the expected text are equal after [normalize] (white space trimmed at
    both ends, runs of white space reduced to one space, letters in lower
    case).  An answer literally equal to the expected text passes; so do
    answers that differ from it in letter case, or by white space at
    either end. *)
Theorem testOk_normalized :
  forall (answer : option string) (test : TestCase.t),
    (testOk answer test = true <->
     normalize answer = normalize (Some (TestCase.expected test))) /\
    (answer = Some (TestCase.expected test) -> testOk answer test = true) /\
    (forall a : string,
        toLowerCase a = toLowerCase (TestCase.expected test) ->
        testOk (Some a) test = true) /\
    (forall (a : string) (c : ascii),
        isWhiteSpace c = true ->
        testOk (Some (String c a)) test = testOk (Some a) test /\
        testOk (Some (a ++ String c EmptyString)%string) test = testOk (Some a) test).
Proof.
  intros answer test. unfold testOk. repeat split.
  - apply String.eqb_eq.
  - apply String.eqb_eq.
  - intros ->. apply String.eqb_refl.
  - intros a Ha. apply String.eqb_eq.
    rewrite <- (normalize_toLowerCase a), Ha. apply normalize_toLowerCase.
  - unfold normalize, trim. simpl. now rewrite H.
  - unfold normalize. now rewrite trim_app_space.
Qed.

(** ["HELLO"] passes a test that expects ["hello"]. *)
Lemma testOk_normalized_witness :
  testOk (Some "HELLO"%string) (TestCase.mk "greet" "hello") = true.
Proof.
  destruct (testOk_normalized (Some "HELLO"%string) (TestCase.mk "greet" "hello"))
    as (_ & _ & H & _).
  apply H. reflexivity.
Defined.

Lemma lookup_assign_same (id : string) (stat : AttemptStat.t) (p : ProgressRecord) :
  lookup id (assign id stat p) = Some stat.
Proof.
  induction p as [|[k s] p IH]; simpl.
  - now rewrite String.eqb_refl.
  - destruct (String.eqb k id) eqn:E; simpl; rewrite E; [reflexivity|exact IH].
Qed.

Lemma lookup_assign_other (id id' : string) (stat : AttemptStat.t) (p : ProgressRecord) :
  id' <> id -> lookup id' (assign id stat p) = lookup id' p.
Proof.
  intro Hne. induction p as [|[k s] p IH]; simpl.
  - destruct (String.eqb_spec id id'); [congruence|reflexivity].
  - destruct (String.eqb_spec k id) as [->|Hk]; simpl.
    + destruct (String.eqb_spec id id'); [congruence|reflexivity].
    + destruct (String.eqb k id'); [reflexivity|exact IH].
Qed.

Lemma lookup_In (id : string) (p : ProgressRecord) (s : AttemptStat.t) :
  lookup id p = Some s -> exists k, In (k, s) p.
Proof.
  induction p as [|[k s0] p IH]; simpl; [discriminate|].
  destruct (String.eqb k id).
  - intros [= ->]. exists k. now left.
  - intro H. destruct (IH H) as [k' Hk']. exists k'. now right.
Qed.

Lemma Forall_assign (P : AttemptStat.t -> Prop) (id : string)
      (stat : AttemptStat.t) (p : ProgressRecord) :
  P stat ->
  Forall (fun e => P (snd e)) p ->
  Forall (fun e => P (snd e)) (assign id stat p).
Proof.
  intros Hs Hp. induction Hp as [|[k s] p Hk Hp IH]; simpl.
  - constructor; [exact Hs|constructor].
  - destruct (String.eqb k id); constructor; assumption.
Qed.




End PracticeClaims.

(* ================================================================== *)
(** * The multi-track dashboard *)
(* ================================================================== *)

Section DashboardFacts.
Import Dashboard Spec.

Lemma insertDesc_perm (x : RecentItem) (l : list RecentItem) :
  Permutation (insertDesc x l) (x :: l).
Proof.
  induction l as [|y l IH]; simpl; [reflexivity|].
  destruct (when y <=? when x); [reflexivity|].
  rewrite IH. apply perm_swap.
Qed.

Lemma sortRecent_perm (l : list RecentItem) : Permutation (sortRecent l) l.
Proof.
  induction l as [|x l IH]; simpl; [reflexivity|].
  rewrite insertDesc_perm. now constructor.
Qed.

Lemma insertDesc_sorted (x : RecentItem) (l : list RecentItem) :
  StronglySorted newerFirst l -> StronglySorted newerFirst (insertDesc x l).
Proof.
  induction 1 as [|y l Hs IH Hy]; simpl.
  - constructor; constructor.
  - destruct (Z.leb_spec (when y) (when x)) as [Hle|Hlt].
    + constructor; [constructor; assumption|].
      constructor; [exact Hle|].
      eapply Forall_impl; [|exact Hy]. unfold newerFirst. intros; lia.
    + constructor; [exact IH|].
      apply (Permutation_Forall (Permutation_sym (insertDesc_perm x l))).
      constructor; [unfold newerFirst; lia|exact Hy].
Qed.

Lemma sortRecent_sorted (l : list RecentItem) :
  StronglySorted newerFirst (sortRecent l).
Proof.
  induction l as [|x l IH]; simpl; [constructor|].
  now apply insertDesc_sorted.
Qed.

Lemma firstn_In (n : nat) (l : list RecentItem) (y : RecentItem) :
  In y (firstn n l) -> In y l.
Proof.
  intro H. rewrite <- (firstn_skipn n l). apply in_or_app. now left.
Qed.

Lemma firstn_sorted (n : nat) (l : list RecentItem) :
  StronglySorted newerFirst l -> StronglySorted newerFirst (firstn n l).
Proof.
  intro H; revert n; induction H as [|x l Hs IH Hx]; intro n.
  - rewrite firstn_nil. constructor.
  - destruct n as [|n]; simpl; [constructor|].
    constructor; [apply IH|].
    rewrite Forall_forall in *. intros y Hy. apply Hx.
    eapply firstn_In; eassumption.
Qed.

(** The callbacks only add to the shared state; they all run to the end
    exactly when every fetch succeeds. *)
Lemma runSections_recent (net : Network) (ls : LocalStorage)
      (sections : list Track.t) :
  forall ov recent cs ov' recent' cs',
    runSections net ls sections (ov, recent, cs) = Some (ov', recent', cs') ->
    recent' = recent ++ allRecent net ls sections.
Proof.
  induction sections as [|s sections IH]; intros ov recent cs ov' recent' cs' H.
  - simpl in H. injection H as <- <- <-. simpl. now rewrite app_nil_r.
  - simpl in H. unfold sectionStep in H. unfold allRecent; simpl.
    destruct (net (Track.problemsUrl s)) as [problems|]; [|discriminate].
    destruct (tally (Store.get ls (Track.trackKey s))) as [[a p] sv].
    apply IH in H. rewrite H, <- app_assoc. reflexivity.
Qed.

Lemma runSections_loaded (net : Network) (ls : LocalStorage)
      (sections : list Track.t) :
  (forall s, In s sections -> net (Track.problemsUrl s) <> None) ->
  forall shared, exists shared', runSections net ls sections shared = Some shared'.
Proof.
  induction sections as [|s sections IH]; intros Hnet shared.
  - exists shared. reflexivity.
  - simpl. unfold sectionStep.
    destruct (net (Track.problemsUrl s)) as [problems|] eqn:Hp.
    + destruct shared as [[ov recent] cs].
      destruct (tally (Store.get ls (Track.trackKey s))) as [[a p] sv].
      apply IH. intros s' Hs'. apply Hnet. now right.
    + exfalso. apply (Hnet s); [now left|exact Hp].
Qed.

Lemma runSections_failed (net : Network) (ls : LocalStorage)
      (sections : list Track.t) (s : Track.t) :
  In s sections -> net (Track.problemsUrl s) = None ->
  forall shared, runSections net ls sections shared = None.
Proof.
  intros Hin Hfail. induction sections as [|s0 sections IH]; [contradiction|].
  intro shared. simpl. destruct Hin as [->|Hin].
  - unfold sectionStep. now rewrite Hfail.
  - destruct (sectionStep net ls shared s0); [now apply IH|reflexivity].
Qed.

(** A failed fetch anywhere in the batch rejects the whole dashboard. *)
Lemma renderDashboardMulti_failed (net : Network) (ls : LocalStorage)
      (sections : list Track.t) (s : Track.t) :
  In s sections -> net (Track.problemsUrl s) = None ->
  renderDashboardMulti net ls sections = None.
Proof.
  intros Hin Hfail. unfold renderDashboardMulti.
  now rewrite (runSections_failed net ls sections s Hin Hfail).
Qed.

End DashboardFacts.

Section DashboardClaims.
Import Dashboard Spec.

(** C5: when every problem list loads, [renderDashboardMulti] renders, and
    the feed it shows is the first 10 items of the list obtained by
    sorting, most recent first, the items of every entry with a [last]
    instant of every track; each item carries the instant, the title or id
    of the problem, the title of the track and whether [passes > 0].  The
    feed has [min 10 n] items for [n] dated entries, hence exactly 10 when
    there are 15 or more, and its instants never increase. *)
Theorem recent_feed_latest_ten :
  forall (net : Network) (ls : LocalStorage) (sections : list Track.t),
    (forall s, In s sections -> net (Track.problemsUrl s) <> None) ->
    exists view : View,
      renderDashboardMulti net ls sections = Some view /\
      let dated := allRecent net ls sections in
      (forall r, In r dated <->
                 exists s problems id st w,
                   In s sections /\
                   net (Track.problemsUrl s) = Some problems /\
                   In (id, st) (Store.get ls (Track.trackKey s)) /\
                   AttemptStat.dated st = Some w /\
                   r = mkRecent w id (Track.title s)
                                (0 <? AttemptStat.passes st)%N
                                (titleOf problems id)) /\
      (exists sorted,
          Permutation sorted dated /\
          StronglySorted newerFirst sorted /\
          feed view = firstn 10 sorted) /\
      List.length (feed view) = Nat.min 10 (List.length dated) /\
      ((15 <= List.length dated)%nat -> List.length (feed view) = 10%nat) /\
      StronglySorted newerFirst (feed view).
Proof.
  intros net ls sections Hnet.
  destruct (runSections_loaded net ls sections Hnet (mkOverall 0 0 0 0, [], []))
    as [[[ov recent] cs] Hrun].
  unfold renderDashboardMulti. rewrite Hrun. eexists. split; [reflexivity|].
  cbn [feed]. set (dated := allRecent net ls sections).
  apply runSections_recent in Hrun. simpl in Hrun. fold dated in Hrun. subst recent.
  assert (Hlen : List.length (firstn 10 (sortRecent dated))
                 = Nat.min 10 (List.length dated)).
  { rewrite length_firstn. now rewrite (Permutation_length (sortRecent_perm dated)). }
  split; [|split; [|split; [|split]]].
  - intro r. unfold dated, allRecent. rewrite in_flat_map. split.
    + intros (s & Hs & Hr).
      destruct (net (Track.problemsUrl s)) as [problems|] eqn:Hp; [|contradiction].
      unfold recentOf in Hr. apply in_flat_map in Hr.
      destruct Hr as ([id st] & Hin & Hr). cbn [fst snd] in Hr.
      destruct (AttemptStat.dated st) as [w|] eqn:Hw; [|contradiction].
      destruct Hr as [<-|[]].
      exists s, problems, id, st, w. repeat split; assumption.
    + intros (s & problems & id & st & w & Hs & Hp & Hin & Hw & ->).
      exists s. split; [exact Hs|]. rewrite Hp.
      unfold recentOf. apply in_flat_map. exists (id, st).
      split; [exact Hin|]. cbn [fst snd]. rewrite Hw. now left.
  - exists (sortRecent dated).
    split; [apply sortRecent_perm|]. split; [apply sortRecent_sorted|reflexivity].
  - exact Hlen.
  - intro H15. etransitivity; [exact Hlen|]. lia.
  - apply firstn_sorted, sortRecent_sorted.
Qed.

(** Fifteen dated entries: the feed has 10 items. *)
Lemma recent_feed_latest_ten_witness :
  exists view,
    renderDashboardMulti Samples.netA (storeOf "jc_progress" Samples.fifteen)
                         [Samples.trackA] = Some view /\
    List.length (feed view) = 10%nat.
Proof.
  destruct (recent_feed_latest_ten Samples.netA
              (storeOf "jc_progress" Samples.fifteen) [Samples.trackA])
    as (view & E & _ & _ & _ & H15 & _).
  - intros s [<-|[]]. vm_compute. discriminate.
  - exists view. split; [exact E|].
    apply H15. apply Nat.leb_le. vm_compute. reflexivity.
Defined.

(** C6 fails on the code: with two tracks, the second of which has a
    problem list that cannot be fetched, [renderDashboardMulti] is
    rejected and shows no totals at all, while the analytics cards, which
    go through [preloadProblemsForTracks], keep both tracks: there the
    failed track has a total of 0 and the counts of its own progress. *)
Theorem renderDashboardMulti_rejected_by_one_failed_fetch :
  renderDashboardMulti Samples.netA Samples.storeAB
                       [Samples.trackA; Samples.trackB] = None /\
  map (fun c => (Analytics.total (snd c), Analytics.solved (snd c),
                 Analytics.attempts (snd c), Analytics.passes (snd c)))
      (Analytics.renderAnalytics Samples.netA (fun _ => None) Samples.ist
                                 Samples.storeAB Samples.today0
                                 [Samples.trackA; Samples.trackB])
  = [(2, 1, 3, 1); (0, 1, 2, 2)]%N.
Proof. split; reflexivity. Qed.

End DashboardClaims.

(* ================================================================== *)
(** * Binary64: rounding does not cross an integer bound *)
(* ================================================================== *)

Section Binary64Facts.
Import JsNumber.

Lemma digits2_pos_bounds (m : positive) :
  2 ^ (Z.pos (digits2_pos m) - 1) <= Z.pos m < 2 ^ Z.pos (digits2_pos m).
Proof.
  induction m as [m IH|m IH|]; cbn [digits2_pos].
  - rewrite Pos2Z.inj_succ, Z.pow_succ_r by lia.
    replace (Z.succ (Z.pos (digits2_pos m)) - 1) with (Z.succ (Z.pos (digits2_pos m) - 1)) by lia.
    rewrite Z.pow_succ_r by lia. lia.
  - rewrite Pos2Z.inj_succ, Z.pow_succ_r by lia.
    replace (Z.succ (Z.pos (digits2_pos m)) - 1) with (Z.succ (Z.pos (digits2_pos m) - 1)) by lia.
    rewrite Z.pow_succ_r by lia. lia.
  - simpl. lia.
Qed.

Lemma Zdigits2_le (m k : Z) : 0 <= m -> 0 <= k -> m < 2 ^ k -> Zdigits2 m <= k.
Proof.
  intros Hm Hk Hlt. destruct m as [|p|p]; simpl; [lia| |lia].
  pose proof (digits2_pos_bounds p) as [Hlo _].
  assert (H : 2 ^ (Z.pos (digits2_pos p) - 1) < 2 ^ k) by lia.
  apply Z.pow_lt_mono_r_iff in H; lia.
Qed.

Lemma pow2_split (e : Z) : e + 1 <= 0 -> 2 ^ (- e) = 2 * 2 ^ (- (e + 1)).
Proof.
  intro H. replace (- e) with (Z.succ (- (e + 1))) by lia.
  rewrite Z.pow_succ_r by lia. reflexivity.
Qed.

Lemma shr_1_below (B e : Z) (mrs : shr_record) :
  e + 1 <= 0 -> below B e mrs -> below B (e + 1) (shr_1 mrs).
Proof.
  intros He [Hm Hb]. rewrite (pow2_split e He) in Hb.
  destruct mrs as [m r s]. cbn [shr_m shr_r shr_s] in *.
  unfold below.
  destruct m as [|[p|p|]|p]; cbn [shr_1 shr_m shr_r shr_s]; try lia;
    destruct r, s; cbn [orb] in *; lia.
Qed.

Lemma iter_shr_1_below (B : Z) (p : positive) :
  forall (e : Z) (mrs : shr_record),
    e + Z.pos p <= 0 -> below B e mrs ->
    below B (e + Z.pos p) (iter_pos shr_1 p mrs).
Proof.
  induction p as [p IH|p IH|]; intros e mrs He Hb; cbn [iter_pos].
  - replace (e + Z.pos p~1) with (e + 1 + Z.pos p + Z.pos p) by lia.
    apply IH; [lia|]. apply IH; [lia|]. apply shr_1_below; [lia|exact Hb].
  - replace (e + Z.pos p~0) with (e + Z.pos p + Z.pos p) by lia.
    apply IH; [lia|]. apply IH; [lia|exact Hb].
  - apply shr_1_below; assumption.
Qed.

Lemma below_exact (B e m : Z) : 0 <= m -> m <= B * 2 ^ (- e) ->
  below B e (shr_record_of_loc m loc_Exact).
Proof. intros; unfold below; simpl; lia. Qed.

Lemma fexp_le_0 (B e m : Z) :
  0 < B < 2 ^ 53 -> e <= 0 -> 0 <= m -> m <= B * 2 ^ (- e) ->
  fexp prec emax (Zdigits2 m + e) <= 0.
Proof.
  intros HB He Hm Hb. unfold fexp, emin, prec, emax.
  assert (Hd : Zdigits2 m <= 53 - e).
  { apply Zdigits2_le; [lia|lia|].
    replace (53 - e) with (53 + - e) by lia. rewrite Z.pow_add_r by lia.
    assert (0 < 2 ^ (- e)) by (apply Z.pow_pos_nonneg; lia). nia. }
  lia.
Qed.

(** Shifting to the exponent of the format keeps the bound. *)
Lemma shr_fexp_below (B m e : Z) (l : location) :
  0 < B < 2 ^ 53 -> e <= 0 ->
  below B e (shr_record_of_loc m l) ->
  let '(mrs, e') := shr_fexp prec emax m e l in
  e' <= 0 /\ below B e' mrs.
Proof.
  intros HB He Hb. unfold shr_fexp, shr.
  assert (Hm : 0 <= m /\ m <= B * 2 ^ (- e)).
  { destruct Hb as [H0 H1]. destruct l as [|[]]; cbn in H0, H1; lia. }
  pose proof (fexp_le_0 B e m HB He (proj1 Hm) (proj2 Hm)) as Hf.
  destruct (fexp prec emax (Zdigits2 m + e) - e) as [|p|p] eqn:En.
  - split; assumption.
  - split; [lia|]. apply iter_shr_1_below; [lia|exact Hb].
  - split; assumption.
Qed.

Lemma loc_of_shr_record_of_loc (m : Z) (l : location) :
  loc_of_shr_record (shr_record_of_loc m l) = l.
Proof. destruct l as [|[]]; reflexivity. Qed.

Lemma round_nearest_even_below (B e : Z) (mrs : shr_record) :
  below B e mrs ->
  0 <= round_nearest_even (shr_m mrs) (loc_of_shr_record mrs) <= B * 2 ^ (- e).
Proof.
  intros [Hm Hb]. destruct mrs as [m r s]. cbn [shr_m shr_r shr_s] in *.
  destruct r, s; cbn [orb loc_of_shr_record round_nearest_even] in *;
    try destruct (Z.even m); lia.
Qed.

(** Rounding a value that does not exceed the integer [B] gives a Number
    that does not exceed [B]. *)
Lemma binary_round_aux_atMost (B mx ex : Z) (lx : location) :
  0 < B < 2 ^ 53 -> ex <= 0 ->
  below B ex (shr_record_of_loc mx lx) ->
  atMost B (binary_round_aux prec emax false mx ex lx).
Proof.
  intros HB He Hb. unfold binary_round_aux.
  pose proof (shr_fexp_below B mx ex lx HB He Hb) as H1.
  destruct (shr_fexp prec emax mx ex lx) as [mrs' e'].
  destruct H1 as [He' Hb'].
  pose proof (round_nearest_even_below B e' mrs' Hb') as Hr.
  set (m2 := round_nearest_even (shr_m mrs') (loc_of_shr_record mrs')) in *.
  pose proof (shr_fexp_below B m2 e' loc_Exact HB He'
                (below_exact B e' m2 (proj1 Hr) (proj2 Hr))) as H2.
  destruct (shr_fexp prec emax m2 e' loc_Exact) as [mrs'' e''].
  destruct H2 as [He'' [Hm'' Hb'']].
  destruct (shr_m mrs'') as [|m|m] eqn:Em; [exact I| |lia].
  assert (Hle : (e'' <=? emax - prec) = true) by (apply Z.leb_le; unfold emax, prec; lia).
  rewrite Hle. unfold atMost. split; [exact He''|].
  destruct (shr_r mrs'' || shr_s mrs''); lia.
Qed.


Lemma iter_xO_spec (m k : positive) :
  Z.pos (Pos.iter xO m k) = Z.pos m * 2 ^ Z.pos k /\
  digits2_pos (Pos.iter xO m k) = (digits2_pos m + k)%positive.
Proof.
  induction k as [|k IH] using Pos.peano_ind.
  - simpl. split; [lia|]. now rewrite Pos.add_1_r.
  - rewrite Pos.iter_succ. destruct IH as [IHv IHd]. split.
    + rewrite Pos2Z.inj_xO, IHv, Pos2Z.inj_succ, Z.pow_succ_r by lia. lia.
    + cbn [digits2_pos]. rewrite IHd. lia.
Qed.

(** An integer below [2^53] is a Number: [of_N] loses nothing, and the
    Number is normal. *)
Lemma of_N_exact (n : N) :
  (0 < n)%N -> Z.of_N n < 2 ^ 53 ->
  exists (m : positive) (e : Z),
    of_N n = S754_finite false m e /\
    - 52 <= e <= 0 /\
    Z.pos m = Z.of_N n * 2 ^ (- e) /\
    digits2_pos m = 53%positive.
Proof.
  intros Hpos Hlt. destruct n as [|p]; [lia|]. cbn [Z.of_N] in *.
  unfold of_N. cbn [Z.of_N binary_normalize]. unfold binary_round.
  pose proof (digits2_pos_bounds p) as [Hlo Hhi].
  assert (Hd : Z.pos (digits2_pos p) <= 53).
  { assert (H : 2 ^ (Z.pos (digits2_pos p) - 1) < 2 ^ 53) by lia.
    apply Z.pow_lt_mono_r_iff in H; lia. }
  assert (Hf : fexp prec emax (Z.pos (digits2_pos p) + 0) = Z.pos (digits2_pos p) - 53).
  { unfold fexp, emin, prec, emax. lia. }
  rewrite Hf. unfold shl_align.
  assert (Hround : forall (mz : positive) (ez : Z),
             digits2_pos mz = 53%positive -> - 52 <= ez <= 0 ->
             binary_round_aux prec emax false (Z.pos mz) ez loc_Exact
             = S754_finite false mz ez).
  { intros mz ez Hdz Hez. unfold binary_round_aux, shr_fexp.
    cbn [Zdigits2]. rewrite Hdz.
    assert (Hfz : fexp prec emax (53 + ez) - ez = 0)
      by (unfold fexp, emin, prec, emax; lia).
    rewrite Hfz. cbn [shr shr_record_of_loc shr_m loc_of_shr_record round_nearest_even Zdigits2].
    rewrite Hdz, Hfz. cbn [shr shr_record_of_loc shr_m].
    assert (Hle : (ez <=? emax - prec) = true)
      by (apply Z.leb_le; unfold emax, prec; lia).
    now rewrite Hle. }
  destruct (Z.pos (digits2_pos p) - 53 - 0) as [|d|d] eqn:Ed.
  - exists p, 0. rewrite Hround by lia.
    repeat split; try lia.
  - lia.
  - destruct (iter_xO_spec p d) as [Hv Hdig].
    exists (Pos.iter xO p d), (Z.pos (digits2_pos p) - 53).
    rewrite Hround by lia.
    repeat split; try lia.
    rewrite Hv. f_equal. f_equal. lia.
Qed.

Lemma new_location_exact (nb k : Z) :
  new_location nb k = loc_Exact <-> k = 0.
Proof.
  unfold new_location, new_location_even, new_location_odd.
  destruct (Z.even nb); destruct (Z.eqb_spec k 0); split; intro H;
    try reflexivity; try assumption; try discriminate; contradiction.
Qed.

(** [p / a] is at most 1 when [p <= a]. *)
Lemma div_atMost_1 (p a : N) :
  (p <= a)%N -> (0 < a)%N -> Z.of_N a < 2 ^ 53 ->
  atMost 1 (div (of_N p) (of_N a)).
Proof.
  intros Hpa Ha Hlt.
  destruct (of_N_exact a Ha Hlt) as (m2 & e2 & Ea & He2 & Hv2 & Hd2).
  rewrite Ea.
  destruct (N.eq_dec p 0) as [->|Hp0]; [exact I|].
  destruct (of_N_exact p ltac:(lia) ltac:(lia)) as (m1 & e1 & Ep & He1 & Hv1 & Hd1).
  rewrite Ep. unfold div. cbn [SFdiv xorb].
  unfold SFdiv_core_binary. cbn [Zdigits2]. rewrite Hd1, Hd2.
  assert (He' : Z.min (fexp prec emax (53 + e1 - (53 + e2))) (e1 - e2) = e1 - e2 - 53)
    by (unfold fexp, emin, prec, emax; lia).
  rewrite He'.
  replace (e1 - e2 - (e1 - e2 - 53)) with 53 by lia.
  rewrite Z.shiftl_mul_pow2 by lia.
  pose proof (Z_div_mod (Z.pos m1 * 2 ^ 53) (Z.pos m2) ltac:(lia)) as Hdm.
  destruct (Z.div_eucl (Z.pos m1 * 2 ^ 53) (Z.pos m2)) as [q r].
  destruct Hdm as [Hq Hr].
  set (T := 2 ^ (- (e1 - e2 - 53))).
  assert (HX : 0 < 2 ^ (- e1)) by (apply Z.pow_pos_nonneg; lia).
  assert (HY : 0 < 2 ^ (- e2)) by (apply Z.pow_pos_nonneg; lia).
  assert (HT : T * 2 ^ (- e2) = 2 ^ 53 * 2 ^ (- e1)).
  { unfold T. rewrite <- !Z.pow_add_r by lia. f_equal. lia. }
  assert (Hval : Z.pos m1 * 2 ^ (- e2) <= Z.pos m2 * 2 ^ (- e1)).
  { rewrite Hv1, Hv2. assert (Z.of_N p <= Z.of_N a) by lia. nia. }
  assert (Hm' : Z.pos m1 * 2 ^ 53 <= Z.pos m2 * T).
  { assert (Z.pos m1 * 2 ^ 53 * 2 ^ (- e2) <= Z.pos m2 * T * 2 ^ (- e2)) by nia.
    nia. }
  assert (Hq0 : 0 <= q) by nia.
  apply binary_round_aux_atMost; [lia|lia|].
  unfold below. fold T. rewrite Z.mul_1_l.
  destruct (new_location (Z.pos m2) r) as [|c] eqn:El.
  - cbn. split; [exact Hq0|]. nia.
  - assert (Hr0 : r <> 0).
    { intro H0. pose proof (proj2 (new_location_exact (Z.pos m2) r) H0). congruence. }
    destruct c; cbn; (split; [exact Hq0|]); nia.
Qed.

Lemma of_N_100 : of_N 100 = S754_finite false 7036874417766400 (- 46).
Proof. reflexivity. Qed.

(** [x * 100] is at most 100 when [x] is at most 1. *)
Lemma mul_100_atMost (x : spec_float) :
  atMost 1 x -> atMost 100 (mul x (of_N 100)).
Proof.
  rewrite of_N_100. destruct x as [s|s| |s m e]; cbn [atMost]; try contradiction.
  - intros _. exact I.
  - destruct s; [contradiction|]. intros [He Hm].
    unfold mul. cbn [SFmul xorb].
    apply binary_round_aux_atMost; [lia|lia|].
    apply below_exact; [lia|].
    replace (- (e + - 46)) with (- e + 46) by lia.
    rewrite Z.pow_add_r by lia.
    rewrite Pos2Z.inj_mul. change (Z.pos 7036874417766400) with (100 * 2 ^ 46).
    assert (0 < 2 ^ (- e)) by (apply Z.pow_pos_nonneg; lia).
    nia.
Qed.

(** [Math.round] of a Number between 0 and 100 is an integer between 0
    and 100. *)
Lemma Math_round_atMost_100 (x : spec_float) :
  atMost 100 x -> exists z, Math_round x = Some z /\ 0 <= z <= 100.
Proof.
  destruct x as [s|s| |s m e]; cbn [atMost]; try contradiction.
  - intros _. exists 0. split; [reflexivity|lia].
  - destruct s; [contradiction|]. intros [He Hm].
    unfold Math_round. eexists; split; [reflexivity|].
    destruct (Z.leb_spec 0 e) as [H0|H0].
    + assert (e = 0) by lia. subst e. simpl in *. lia.
    + assert (HT : 0 < 2 ^ (- e)) by (apply Z.pow_pos_nonneg; lia).
      replace (- e + 1) with (Z.succ (- e)) by lia.
      rewrite Z.pow_succ_r by lia. split.
      * apply Z.div_pos; lia.
      * apply Z.lt_succ_r. apply Z.div_lt_upper_bound; lia.
Qed.

End Binary64Facts.

Section PercentFacts.
Import JsNumber.

(** A percentage of a part is an integer between 0 and 100. *)
Lemma pct_range (passed total : N) :
  (passed <= total)%N -> Z.of_N total < 2 ^ 53 ->
  exists z, pct passed total = Some z /\ 0 <= z <= 100.
Proof.
  intros Hle Hlt. unfold pct.
  destruct (N.eqb_spec total 0) as [->|Hne].
  - exists 0. split; [reflexivity|lia].
  - apply Math_round_atMost_100, mul_100_atMost, div_atMost_1; [exact Hle|lia|exact Hlt].
Qed.

End PercentFacts.

(* ================================================================== *)
(** * Track analytics *)
(* ================================================================== *)

Section AnalyticsFacts.
Import Clock Analytics Spec.

Lemma later_assoc (a b c : option Z) : later (later a b) c = later a (later b c).
Proof.
  destruct a, b, c; simpl; try reflexivity. now rewrite Z.max_assoc.
Qed.

Lemma countSolved_cons (s : AttemptStat.t) (l : list AttemptStat.t) :
  countSolved (s :: l) =
  ((if (0 <? AttemptStat.passes s)%N then 1 else 0) + countSolved l)%N.
Proof.
  unfold countSolved. simpl.
  destruct (0 <? AttemptStat.passes s)%N; simpl List.length; lia.
Qed.

(** The first loop of [computeTrackAnalytics] adds up the counters,
    counts the solved problems and keeps the latest instant. *)
Lemma statStep_fold (l : list AttemptStat.t) :
  forall (a p sv : N) (la : option Z),
    fold_left statStep l (a, p, sv, la) =
    ((a + sumAttempts l)%N, (p + sumPasses l)%N, (sv + countSolved l)%N,
     later la (latest l)).
Proof.
  induction l as [|s l IH]; intros a p sv la.
  - simpl. rewrite !N.add_0_r. destruct la; reflexivity.
  - cbn [fold_left statStep]. rewrite IH, countSolved_cons.
    cbn [sumAttempts sumPasses latest fold_right].
    fold (sumAttempts l) (sumPasses l) (latest l).
    rewrite <- later_assoc.
    f_equal; [f_equal; [f_equal|]|].
    + lia.
    + lia.
    + destruct (0 <? AttemptStat.passes s)%N; lia.
    + f_equal. destruct (AttemptStat.dated s) as [d|], la as [x|]; simpl; try reflexivity.
      destruct (Z.ltb_spec x d); f_equal; lia.
Qed.

(** What [computeTrackAnalytics] returns, field by field. *)
Lemma computeTrackAnalytics_fields (cache : Cache) (tz : TimeZone)
      (ls : LocalStorage) (today : Z) (track : Track.t) :
  let entries := values (getProgress ls (Track.trackKey track)) in
  let stats := computeTrackAnalytics cache tz ls today track in
  total stats = match cache (Track.trackKey track) with
                | Some problems => N.of_nat (List.length problems)
                | None => 0%N
                end /\
  solved stats = countSolved entries /\
  attempts stats = sumAttempts entries /\
  passes stats = sumPasses entries /\
  accuracy stats = pct (sumPasses entries) (sumAttempts entries) /\
  lastActive stats = latest entries.
Proof.
  intros entries stats. unfold stats, computeTrackAnalytics. fold entries.
  rewrite statStep_fold. cbn [total solved attempts passes accuracy lastActive].
  rewrite !N.add_0_l. repeat split.
Qed.

Lemma consistent_sums (l : list AttemptStat.t) :
  Forall consistent l -> (sumPasses l <= sumAttempts l)%N.
Proof.
  induction 1 as [|s l Hs _ IH]; simpl; [lia|]. unfold consistent in Hs. lia.
Qed.

End AnalyticsFacts.

Section AnalyticsClaims.
Import Clock Analytics Spec.

(** The example of the specification: 5 problems, 3 attempts with 1 pass
    on one and 2 attempts with 2 passes on another. *)
Example computeTrackAnalytics_example :
  let stats := computeTrackAnalytics (fun _ => Some Samples.fiveProblems)
                 Samples.ist Samples.exampleStore Samples.today0 Samples.trackA in
  (solved stats, total stats, attempts stats, passes stats, accuracy stats,
   lastActive stats)
  = (2%N, 5%N, 5%N, 3%N, Some 60, Some 1704225600000).
Proof. reflexivity. Qed.

(** C3 fails on the code: with 23 passes out of 40 attempts the
    percentage is 57.5, which rounds to 58, and [computeTrackAnalytics]
    returns 57: in binary64 [23 / 40] is a little less than 0.575 and the
    product with 100 falls below 57.5.  (The counts themselves are the
    sums the claim describes.) *)
Theorem accuracy_of_23_out_of_40 :
  let stats := computeTrackAnalytics (fun _ => Some Samples.fiveProblems)
                 Samples.ist Samples.store23of40 Samples.today0 Samples.trackA in
  attempts stats = 40%N /\ passes stats = 23%N /\
  accuracy stats = Some 57 /\
  JsNumber.exact_percent 23 40 = 58.
Proof. repeat split. Qed.

(** C7, as stated, fails: an entry with 2 passes for 1 attempt gives an
    accuracy of 200. *)
Lemma accuracy_above_100 :
  accuracy (computeTrackAnalytics (fun _ => None) Samples.ist Samples.store2of1
                                  Samples.today0 Samples.trackA) = Some 200.
Proof. reflexivity. Qed.

(** C7, amended: whenever the passes of a progress object add up to no
    more than its attempts (as they do when every entry has
    [passes <= attempts]), and the attempts stay below [2^53], the
    accuracy is an integer between 0 and 100; so is every percentage
    [pct(passed, total)] with [passed <= total]. *)
Theorem accuracy_within_0_100 :
  forall (cache : Cache) (tz : TimeZone) (ls : LocalStorage) (today : Z)
         (track : Track.t),
    let entries := values (getProgress ls (Track.trackKey track)) in
    Z.of_N (sumAttempts entries) < 2 ^ 53 ->
    (sumPasses entries <= sumAttempts entries)%N \/ Forall consistent entries ->
    (exists z, accuracy (computeTrackAnalytics cache tz ls today track) = Some z /\
               0 <= z <= 100) /\
    (forall passed total : N,
        (passed <= total)%N -> Z.of_N total < 2 ^ 53 ->
        exists z, pct passed total = Some z /\ 0 <= z <= 100).
Proof.
  intros cache tz ls today track entries Hbound Hle.
  split; [|intros; now apply pct_range].
  destruct (computeTrackAnalytics_fields cache tz ls today track)
    as (_ & _ & _ & _ & Hacc & _).
  fold entries in Hacc. rewrite Hacc.
  apply pct_range; [|exact Hbound].
  destruct Hle as [Hle|Hall]; [exact Hle|now apply consistent_sums].
Qed.

(** The progress of the specification's example has an accuracy between
    0 and 100. *)
Lemma accuracy_within_0_100_witness :
  exists z,
    accuracy (computeTrackAnalytics (fun _ => None) Samples.ist Samples.exampleStore
                                    Samples.today0 Samples.trackA) = Some z /\
    0 <= z <= 100.
Proof.
  refine (proj1 (accuracy_within_0_100 (fun _ => None) Samples.ist
                   Samples.exampleStore Samples.today0 Samples.trackA _ _)).
  - reflexivity.
  - left. vm_compute. discriminate.
Defined.

End AnalyticsClaims.

(* ================================================================== *)
(** * The problem list *)
(* ================================================================== *)

Section ListingFacts.
Import Practice Listing.

Lemma startsWith_app (s q : string) :
  startsWith s q = true <-> exists r, s = (q ++ r)%string.
Proof.
  revert s; induction q as [|c q IH]; intro s.
  - split; [intros _; now exists s|intros _; destruct s; reflexivity].
  - destruct s as [|d s]; simpl.
    + split; [discriminate|intros [r Hr]; discriminate].
    + rewrite andb_true_iff, IH. split.
      * intros [Hc [r ->]]. apply Ascii.eqb_eq in Hc. subst d. now exists r.
      * intros [r Hr]. injection Hr as -> ->. split; [apply Ascii.eqb_refl|now exists r].
Qed.

Lemma includes_app (s q : string) :
  includes s q = true <-> exists a b, s = (a ++ q ++ b)%string.
Proof.
  induction s as [|c s IH]; cbn [includes].
  - rewrite orb_false_r, startsWith_app. split.
    + intros [r Hr]. exists EmptyString, r. exact Hr.
    + intros (a & b & H). destruct a; simpl in H.
      * now exists b.
      * discriminate.
  - rewrite orb_true_iff, startsWith_app, IH. split.
    + intros [[r Hr]|(a & b & ->)].
      * exists EmptyString, r. exact Hr.
      * exists (String c a), b. reflexivity.
    + intros (a & b & H). destruct a as [|d a]; simpl in H.
      * left. now exists b.
      * right. injection H as -> ->. now exists a, b.
Qed.

Lemma string_app_assoc (a b c : string) :
  ((a ++ b) ++ c = a ++ (b ++ c))%string.
Proof. induction a as [|x a IH]; simpl; [reflexivity|now rewrite IH]. Qed.

(** A text that contains [q'] contains every part of [q']. *)
Lemma includes_trans (s q' q : string) :
  includes s q' = true -> includes q' q = true -> includes s q = true.
Proof.
  rewrite !includes_app. intros (a & b & ->) (a' & b' & ->).
  exists (a ++ a')%string, (b' ++ b)%string.
  now rewrite !string_app_assoc.
Qed.

Lemma includes_refl (s : string) : includes s s = true.
Proof.
  apply includes_app. exists EmptyString, EmptyString. simpl.
  induction s as [|c s IH]; simpl; [reflexivity|now rewrite <- IH].
Qed.

Lemma matches_weaken (q' q : string) (p : Problem.t) :
  includes q' q = true -> matches q' p = true -> matches q p = true.
Proof.
  intros Hq. unfold matches. rewrite !orb_true_iff.
  intros [[H|H]|H]; [left; left|left; right|right];
    eapply includes_trans; eassumption.
Qed.

Lemma filter_filter_weaker (A : Type) (f g : A -> bool) (l : list A) :
  (forall x, f x = true -> g x = true) ->
  filter f (filter g l) = filter f l.
Proof.
  intro H. induction l as [|x l IH]; simpl; [reflexivity|].
  destruct (g x) eqn:Hg; simpl.
  - now rewrite IH.
  - destruct (f x) eqn:Hf; [|exact IH].
    apply H in Hf. congruence.
Qed.

Lemma toLowerCase_empty (q : string) : toLowerCase q = EmptyString -> q = EmptyString.
Proof. destruct q; [reflexivity|discriminate]. Qed.

Lemma includes_empty_l (q : string) : includes EmptyString q = true -> q = EmptyString.
Proof. destruct q; [reflexivity|discriminate]. Qed.

End ListingFacts.

Section ListingProperties.
Import Practice Listing.

(** X1: the search box.  An empty query lists every problem; queries that
    differ in letter case only list the same problems; and typing more
    narrows the list: when [q] occurs in [q'] (letter case apart), the
    list for [q'] is the list for [q] filtered by [q'], so no problem
    comes back that a shorter query had removed. *)
Theorem filterProblems_refines :
  forall (items : list Problem.t) (q q' : string),
    filterProblems items EmptyString = items /\
    (toLowerCase q = toLowerCase q' ->
     filterProblems items q = filterProblems items q') /\
    (includes (toLowerCase q') (toLowerCase q) = true ->
     filterProblems (filterProblems items q) q' = filterProblems items q' /\
     incl (filterProblems items q') (filterProblems items q)).
Proof.
  intros items q q'. split; [reflexivity|]. split.
  - intro H. unfold filterProblems.
    destruct q as [|c q], q' as [|c' q']; try reflexivity; try discriminate.
    now rewrite H.
  - intro H.
    assert (E : filterProblems (filterProblems items q) q' = filterProblems items q').
    { unfold filterProblems.
      destruct q' as [|c' q'].
      - apply includes_empty_l, toLowerCase_empty in H. now subst q.
      - destruct q as [|c q]; [reflexivity|].
        apply filter_filter_weaker. intro p. now apply matches_weaken. }
    split; [exact E|].
    rewrite <- E. intros p Hp. unfold filterProblems in Hp at 1.
    destruct q'; [exact Hp|]. apply filter_In in Hp. tauto.
Qed.

(** Typing [T] and then [tW] in front of the five sample problems. *)
Lemma filterProblems_refines_witness :
  filterProblems (filterProblems Samples.fiveProblems "T") "tW"
  = filterProblems Samples.fiveProblems "tW".
Proof.
  destruct (filterProblems_refines Samples.fiveProblems "T" "tW") as (_ & _ & H).
  exact (proj1 (H eq_refl)).
Defined.

End ListingProperties.

(* ================================================================== *)
(** * Answers, submissions and badges *)
(* ================================================================== *)

Section NormalFormFacts.
Import Practice Terms.

Lemma headClean_trimStart (s : string) : headClean (trimStart s) = true.
Proof.
  induction s as [|c r IH]; simpl; [reflexivity|].
  destruct (isWhiteSpace c) eqn:E; [exact IH|]. simpl. now rewrite E.
Qed.

Lemma trimStart_headClean (s : string) : headClean s = true -> trimStart s = s.
Proof.
  destruct s as [|c r]; simpl; [reflexivity|].
  destruct (isWhiteSpace c); [discriminate|reflexivity].
Qed.

Lemma headClean_trimEnd (s : string) : headClean s = true -> headClean (trimEnd s) = true.
Proof.
  destruct s as [|c r]; simpl; [reflexivity|].
  destruct (isWhiteSpace c) eqn:Ec; [discriminate|]. intros _.
  destruct (trimEnd r); simpl; now rewrite Ec.
Qed.

Lemma headClean_collapseFrom (b : bool) (s : string) :
  headClean s = true -> headClean (collapseFrom b s) = true.
Proof.
  destruct s as [|c r]; simpl; [reflexivity|].
  destruct (isWhiteSpace c) eqn:Ec; [discriminate|]. intros _. simpl. now rewrite Ec.
Qed.

Lemma trimEnd_idem (s : string) : trimEnd (trimEnd s) = trimEnd s.
Proof.
  induction s as [|c r IH]; simpl; [reflexivity|].
  destruct (trimEnd r) as [|d r'] eqn:E.
  - destruct (isWhiteSpace c) eqn:Ec; simpl; [reflexivity|now rewrite Ec].
  - cbn [trimEnd]. cbn [trimEnd] in IH. now rewrite IH.
Qed.

Lemma collapseFrom_empty (b : bool) (s : string) :
  collapseFrom b s = EmptyString -> trimEnd s = EmptyString.
Proof.
  revert b; induction s as [|c r IH]; intro b; simpl; [reflexivity|].
  destruct (isWhiteSpace c) eqn:Ec.
  - destruct b; [|discriminate]. intro H. now rewrite (IH true H).
  - discriminate.
Qed.

Lemma trimEnd_collapseFrom (s : string) :
  trimEnd s = s ->
  forall b, trimEnd (collapseFrom b s) = collapseFrom b s.
Proof.
  induction s as [|c r IH]; intros Hs b; [reflexivity|].
  cbn [trimEnd] in Hs.
  destruct (trimEnd r) as [|d r'] eqn:Er.
  - destruct (isWhiteSpace c) eqn:Ec; [discriminate|].
    injection Hs as <-. simpl. rewrite Ec. simpl. now rewrite Ec.
  - injection Hs as Hr. rewrite Hr in Er.
    assert (Hr0 : r <> EmptyString) by (rewrite <- Hr; discriminate).
    assert (Hne : forall b', collapseFrom b' r <> EmptyString).
    { intros b' H. apply collapseFrom_empty in H. rewrite Er in H. contradiction. }
    specialize (IH Hr). clear Hr. cbn [collapseFrom].
    destruct (isWhiteSpace c) eqn:Ec.
    + destruct b.
      * apply IH.
      * cbn [trimEnd]. rewrite (IH true).
        destruct (collapseFrom true r) eqn:Ecr; [now destruct (Hne true)|reflexivity].
    + cbn [trimEnd]. rewrite (IH false).
      destruct (collapseFrom false r); [now rewrite Ec|reflexivity].
Qed.

Lemma collapseFrom_idem (s : string) :
  (forall b, collapseFrom false (collapseFrom b s) = collapseFrom b s) /\
  collapseFrom true (collapseFrom true s) = collapseFrom true s.
Proof.
  induction s as [|c r [IH1 IH2]]; [split; [intros []|]; reflexivity|].
  split; [intro b|]; cbn [collapseFrom]; destruct (isWhiteSpace c) eqn:Ec.
  - destruct b; [apply IH1|].
    cbn [collapseFrom]. change (isWhiteSpace " ") with true. cbn iota.
    now rewrite IH2.
  - cbn [collapseFrom]. now rewrite Ec, IH1.
  - exact IH2.
  - cbn [collapseFrom]. now rewrite Ec, IH1.
Qed.

(** Trimming and collapsing again changes nothing. *)
Lemma collapse_trim_idem (s : string) :
  collapse (trim (collapse (trim s))) = collapse (trim s).
Proof.
  assert (Ht : trim (collapse (trim s)) = collapse (trim s)).
  { unfold trim at 1.
    rewrite trimStart_headClean.
    - apply trimEnd_collapseFrom. unfold trim. apply trimEnd_idem.
    - apply headClean_collapseFrom, headClean_trimEnd, headClean_trimStart. }
  rewrite Ht. apply (proj1 (collapseFrom_idem (trim s))).
Qed.

Lemma normalize_lower (s : string) :
  normalize (Some s) = collapse (trim (toLowerCase s)).
Proof.
  unfold normalize, trim, collapse.
  now rewrite toLowerCase_trimStart, toLowerCase_trimEnd, toLowerCase_collapseFrom.
Qed.

End NormalFormFacts.

Section AnswerProperties.
Import Practice Listing Terms.

(** X2: [normalize] yields a normal form: normalizing twice is normalizing
    once, so an answer and its normalized text pass the same tests. *)
Theorem normalize_idempotent :
  forall (answer : option string) (test : TestCase.t),
    normalize (Some (normalize answer)) = normalize answer /\
    testOk (Some (normalize answer)) test = testOk answer test.
Proof.
  intros answer test.
  assert (H : normalize (Some (normalize answer)) = normalize answer).
  { set (text := match answer with Some t => t | None => EmptyString end).
    assert (E : normalize answer = normalize (Some text))
      by (destruct answer; reflexivity).
    assert (C : forall y, toLowerCase (collapse (trim y))
                          = collapse (trim (toLowerCase y)))
      by (intro y; exact (normalize_lower y)).
    rewrite E, (normalize_lower text), normalize_lower, C, toLowerCase_idem.
    apply collapse_trim_idem. }
  split; [exact H|]. unfold testOk. now rewrite H.
Qed.

Lemma checkFrom_nth (tests : list TestCase.t) (answers : list string) :
  forall k i,
    nth_error (checkFrom k tests answers) i =
    match nth_error tests i with
    | Some t => Some (testOk (nth_error answers (k + i)) t)
    | None => None
    end.
Proof.
  induction tests as [|t tests IH]; intros k i; simpl.
  - destruct i; reflexivity.
  - destruct i as [|i]; simpl.
    + now rewrite Nat.add_0_r.
    + rewrite IH. now rewrite Nat.add_succ_r.
Qed.

Lemma checkFrom_length (tests : list TestCase.t) (answers : list string) (k : nat) :
  List.length (checkFrom k tests answers) = List.length tests.
Proof.
  revert k; induction tests as [|t tests IH]; intro k; simpl;
    [reflexivity|now rewrite IH].
Qed.

(** X3: the verdict.  There is one result per test; result [i] compares
    answer [i] with test [i], a missing answer counting as an empty one;
    all tests are passed exactly when every result is positive, so a
    problem without tests is passed by any submission. *)
Theorem passAll_by_position :
  forall (p : Problem.t) (answers : list string),
    List.length (results p answers) = List.length (Problem.tests p) /\
    (forall i t, nth_error (Problem.tests p) i = Some t ->
                 nth_error (results p answers) i
                 = Some (testOk (nth_error answers i) t)) /\
    (passAll p answers = true <->
     forall i t, nth_error (Problem.tests p) i = Some t ->
                 normalize (nth_error answers i)
                 = normalize (Some (TestCase.expected t))) /\
    (Problem.tests p = [] -> passAll p answers = true).
Proof.
  intros p answers. unfold passAll, results.
  assert (Hnth : forall i t, nth_error (Problem.tests p) i = Some t ->
                   nth_error (checkFrom 0 (Problem.tests p) answers) i
                   = Some (testOk (nth_error answers i) t)).
  { intros i t Ht. now rewrite checkFrom_nth, Ht. }
  split; [|split; [exact Hnth|split]].
  - apply checkFrom_length.
  - rewrite forallb_forall. split.
    + intros H i t Ht. apply String.eqb_eq. fold (testOk (nth_error answers i) t).
      apply H. eapply nth_error_In. apply Hnth. exact Ht.
    + intros H ok Hok. apply In_nth_error in Hok. destruct Hok as [i Hi].
      rewrite checkFrom_nth in Hi.
      destruct (nth_error (Problem.tests p) i) as [t|] eqn:Ht; [|discriminate].
      injection Hi as <-. unfold testOk. apply String.eqb_eq. now apply H.
  - intros ->. reflexivity.
Qed.

(** The one test of the sample problem is passed by the answer [4]. *)
Lemma passAll_by_position_witness :
  nth_error (results (Samples.problem "p1" "Sum") ["4"%string]) 0 = Some true.
Proof.
  exact (proj1 (proj2 (passAll_by_position (Samples.problem "p1" "Sum") ["4"%string]))
               0%nat (TestCase.mk "2 2" "4") eq_refl).
Defined.

End AnswerProperties.

Section SessionFacts.
Import Practice Listing Terms Spec.

Lemma attemptsOf_recordAttempt (progress : ProgressRecord) (pid id : string)
      (ok : bool) (now : Z) :
  attemptsOf id (recordAttempt progress pid ok now) =
  (attemptsOf id progress
   + if String.eqb pid id && recorded progress pid then 1 else 0)%N.
Proof.
  unfold attemptsOf, recordAttempt, recorded.
  destruct (lookup pid progress) as [s|] eqn:E; [|destruct (inherited pid)];
    cbn [negb].
  - destruct (String.eqb_spec pid id) as [<-|Hne]; cbn [andb].
    + now rewrite lookup_assign_same, E.
    + rewrite lookup_assign_other by congruence. now rewrite N.add_0_r.
  - rewrite andb_false_r. now rewrite N.add_0_r.
  - destruct (String.eqb_spec pid id) as [<-|Hne]; cbn [andb].
    + now rewrite lookup_assign_same, E.
    + rewrite lookup_assign_other by congruence. now rewrite N.add_0_r.
Qed.

Lemma passesOf_recordAttempt (progress : ProgressRecord) (pid id : string)
      (ok : bool) (now : Z) :
  passesOf id (recordAttempt progress pid ok now) =
  (passesOf id progress
   + if String.eqb pid id && recorded progress pid && ok then 1 else 0)%N.
Proof.
  unfold passesOf, recordAttempt, recorded.
  destruct (lookup pid progress) as [s|] eqn:E; [|destruct (inherited pid)];
    cbn [negb].
  - destruct (String.eqb_spec pid id) as [<-|Hne]; cbn [andb].
    + rewrite lookup_assign_same, E. cbn [AttemptStat.passes].
      destruct ok; [reflexivity|now rewrite N.add_0_r].
    + rewrite lookup_assign_other by congruence. now rewrite N.add_0_r.
  - rewrite andb_false_r. cbn [andb]. now rewrite N.add_0_r.
  - destruct (String.eqb_spec pid id) as [<-|Hne]; cbn [andb].
    + rewrite lookup_assign_same, E. cbn [AttemptStat.passes].
      destruct ok; [reflexivity|now rewrite N.add_0_r].
    + rewrite lookup_assign_other by congruence. now rewrite N.add_0_r.
Qed.

(** Whether a problem is recorded does not change in a session: a name
    that is read from the prototype never gets an entry of its own. *)
Lemma recorded_recordAttempt (progress : ProgressRecord) (pid id : string)
      (ok : bool) (now : Z) :
  recorded (recordAttempt progress pid ok now) id = recorded progress id.
Proof.
  unfold recorded, recordAttempt.
  destruct (lookup pid progress) as [s|] eqn:E;
    [|destruct (inherited pid) eqn:Ei; [reflexivity|]].
  - destruct (String.eqb_spec pid id) as [<-|Hne].
    + now rewrite lookup_assign_same, E.
    + now rewrite lookup_assign_other by congruence.
  - destruct (String.eqb_spec pid id) as [<-|Hne].
    + now rewrite lookup_assign_same, E, Ei.
    + now rewrite lookup_assign_other by congruence.
Qed.

Lemma sumAttempts_assign (id : string) (stat : AttemptStat.t) (p : ProgressRecord) :
  (sumAttempts (values (assign id stat p)) + attemptsOf id p
   = sumAttempts (values p) + AttemptStat.attempts stat)%N.
Proof.
  unfold attemptsOf, values, sumAttempts. induction p as [|[k s] p IH]; simpl.
  - lia.
  - destruct (String.eqb k id); simpl.
    + lia.
    + simpl in IH. lia.
Qed.

Lemma sumAttempts_recordAttempt (progress : ProgressRecord) (pid : string)
      (ok : bool) (now : Z) :
  sumAttempts (values (recordAttempt progress pid ok now)) =
  (sumAttempts (values progress) + if recorded progress pid then 1 else 0)%N.
Proof.
  unfold recordAttempt, recorded.
  destruct (lookup pid progress) as [s|] eqn:E;
    [|destruct (inherited pid); cbn [negb]; [now rewrite N.add_0_r|]].
  - pose proof (sumAttempts_assign pid
                  (AttemptStat.mk (AttemptStat.attempts s + 1)
                     (if ok then (AttemptStat.passes s + 1)%N else AttemptStat.passes s)
                     (Some now)) progress) as H.
    unfold attemptsOf in H. rewrite E in H. cbn [AttemptStat.attempts] in H. lia.
  - pose proof (sumAttempts_assign pid
                  (AttemptStat.mk (0 + 1)
                     (if ok then (0 + 1)%N else 0%N) (Some now)) progress) as H.
    unfold attemptsOf in H. rewrite E in H. cbn [AttemptStat.attempts] in H.
    cbn [AttemptStat.attempts AttemptStat.passes]. lia.
Qed.

Lemma recordAttempt_consistent (progress : ProgressRecord) (pid : string)
      (ok : bool) (now : Z) :
  Forall (fun e => consistent (snd e)) progress ->
  Forall (fun e => consistent (snd e)) (recordAttempt progress pid ok now).
Proof.
  intro Hinv. unfold recordAttempt.
  destruct (lookup pid progress) as [s|] eqn:E;
    [|destruct (inherited pid); [exact Hinv|]];
    (apply Forall_assign; [|exact Hinv]).
  - destruct (lookup_In _ _ _ E) as [k Hk].
    rewrite Forall_forall in Hinv. pose proof (Hinv _ Hk) as Hs.
    unfold consistent in *. cbn [snd] in Hs. simpl. destruct ok; lia.
  - unfold consistent. simpl. destruct ok; lia.
Qed.

(** The state of a session: the stats of the progress object are what is
    stored, and the counters have grown by the recorded submissions. *)
Lemma run_from (key : string) (subs : list Session.Submission) :
  forall (progress : ProgressRecord) (ls : LocalStorage),
    let final := fold_left (Session.step key) subs (progress, ls) in
    (Store.get ls key = progress -> Store.get (snd final) key = fst final) /\
    (forall id,
        attemptsOf id (fst final)
        = (attemptsOf id progress
           + if recorded progress id
             then N.of_nat (List.length (submissionsFor id subs)) else 0)%N /\
        passesOf id (fst final)
        = (passesOf id progress
           + if recorded progress id
             then N.of_nat (List.length (passedOnes (submissionsFor id subs)))
             else 0)%N) /\
    sumAttempts (values (fst final))
    = (sumAttempts (values progress)
       + N.of_nat (List.length (recordedOnes progress subs)))%N /\
    (Forall (fun e => consistent (snd e)) progress ->
     Forall (fun e => consistent (snd e)) (fst final)) /\
    (forall k, k <> key -> snd final k = ls k).
Proof.
  induction subs as [|sub subs IH]; intros progress ls final.
  - subst final. simpl. repeat split; try tauto;
      try (destruct (recorded progress id)); lia.
  - subst final. cbn [fold_left].
    set (progress1 := recordAttempt progress (Problem.id (Session.problem sub))
                                    (passAll (Session.problem sub) (Session.answers sub))
                                    (Session.time sub)).
    change (Session.step key (progress, ls) sub)
      with (progress1, Store.set ls key progress1).
    assert (Hrec : forall id, recorded progress1 id = recorded progress id)
      by (intro id; apply recorded_recordAttempt).
    destruct (IH progress1 (Store.set ls key progress1))
      as (Hstore & Hcount & Hsum & Hcons & Hframe).
    split; [|split; [|split; [|split]]].
    + intros _. apply Hstore. unfold Store.get, Store.set. now rewrite String.eqb_refl.
    + intro id. destruct (Hcount id) as [Ha Hp]. rewrite Ha, Hp, Hrec.
      unfold progress1. rewrite attemptsOf_recordAttempt, passesOf_recordAttempt.
      unfold submissionsFor, passedOnes. cbn [filter].
      destruct (String.eqb_spec (Problem.id (Session.problem sub)) id) as [->|Hne];
        cbn [andb filter].
      * destruct (recorded progress id); cbn [andb]; [|lia].
        destruct (passAll (Session.problem sub) (Session.answers sub));
          cbn [List.length]; lia.
      * destruct (recorded progress id); lia.
    + rewrite Hsum. unfold progress1. rewrite sumAttempts_recordAttempt.
      unfold recordedOnes. cbn [filter].
      rewrite (filter_ext _ _ (fun sub0 => Hrec (Problem.id (Session.problem sub0)))).
      destruct (recorded progress (Problem.id (Session.problem sub)));
        cbn [List.length]; lia.
    + intro H. apply Hcons. now apply recordAttempt_consistent.
    + intros k Hk. rewrite (Hframe k Hk). unfold Store.set.
      destruct (String.eqb_spec k key); [contradiction|reflexivity].
Qed.

Lemma badge_solved (progress : ProgressRecord) (id : string) :
  badge progress id = Solved <-> (0 < passesOf id progress)%N.
Proof.
  unfold badge, passesOf.
  destruct (lookup id progress) as [s|]; cbn [AttemptStat.passes AttemptStat.attempts].
  - destruct (N.ltb_spec 0 (AttemptStat.passes s)).
    + tauto.
    + split; [|lia]. destruct (0 <? AttemptStat.attempts s)%N; discriminate.
  - simpl. split; [discriminate|lia].
Qed.

End SessionFacts.

Section SessionProperties.
Import Practice Listing Terms Spec.

(** X4: a practice session without submission for [__proto__], with
    counters that stay below [2^53].  After
    any sequence of submissions the store holds the stats of the progress
    object in memory; the entry of a problem has gained one attempt per
    submission made for that problem and one pass per submission that
    passed every test, unless the problem is read from the prototype, in
    which case nothing is recorded for it; the attempts of the track have
    grown by the number of recorded submissions, which is the number of
    submissions when no problem has an inherited name; entries keep
    [passes <= attempts]; and no other key of the store has changed. *)
Theorem session_counts_every_submission :
  forall (ls : LocalStorage) (trackKey : string) (subs : list Session.Submission),
    let before := Store.get ls trackKey in
    let final := Session.run ls trackKey subs in
    (forall sub, In sub subs ->
                 Problem.id (Session.problem sub) <> "__proto__"%string) ->
    JsNumber.safe (sumAttempts (values before) + N.of_nat (List.length subs)) ->
    JsNumber.safe (sumPasses (values before) + N.of_nat (List.length subs)) ->
    Store.get (snd final) trackKey = fst final /\
    (forall id,
        attemptsOf id (fst final)
        = (attemptsOf id before
           + if recorded before id
             then N.of_nat (List.length (submissionsFor id subs)) else 0)%N /\
        passesOf id (fst final)
        = (passesOf id before
           + if recorded before id
             then N.of_nat (List.length (passedOnes (submissionsFor id subs)))
             else 0)%N) /\
    sumAttempts (values (fst final))
    = (sumAttempts (values before)
       + N.of_nat (List.length (recordedOnes before subs)))%N /\
    ((forall sub, In sub subs ->
                  inherited (Problem.id (Session.problem sub)) = false) ->
     sumAttempts (values (fst final))
     = (sumAttempts (values before) + N.of_nat (List.length subs))%N) /\
    (Forall (fun e => consistent (snd e)) before ->
     Forall (fun e => consistent (snd e)) (fst final)) /\
    (forall k, k <> trackKey -> snd final k = ls k).
Proof.
  intros ls trackKey subs before final _ _ _. unfold final, Session.run.
  destruct (run_from trackKey subs before ls) as (H1 & H2 & H3 & H4 & H5).
  split; [now apply H1|]. split; [exact H2|]. split; [exact H3|].
  split; [|split; assumption].
  intro Hown. etransitivity; [exact H3|]. f_equal. f_equal. unfold recordedOnes.
  f_equal. apply forallb_filter_id. apply forallb_forall. intros sub Hsub.
  unfold recorded. rewrite (Hown sub Hsub).
  now destruct (lookup (Problem.id (Session.problem sub)) before).
Qed.

(** Two submissions for [p1] on an empty store: two attempts, one pass. *)
Lemma session_counts_every_submission_witness :
  let final := Session.run (fun _ => Missing) "jc_progress" Examples.twoSubmissions in
  attemptsOf "p1" (fst final) = 2%N /\ passesOf "p1" (fst final) = 1%N.
Proof.
  destruct (session_counts_every_submission (fun _ => Missing) "jc_progress"
              Examples.twoSubmissions) as (_ & H & _);
    [intros sub [<-|[<-|[]]]; discriminate|reflexivity|reflexivity|].
  exact (H "p1"%string).
Defined.

(** X5: badges.  After a recorded submission the problem is shown as
    solved when the submission passed every test or the problem was
    solved before, and as in progress otherwise, never as untouched; a
    problem that is read from the prototype stays untouched whatever is
    submitted; the badges of the other problems do not change; and a
    solved problem stays solved through any session without submission
    for [__proto__]. *)
Theorem badge_after_submit :
  forall (ls : LocalStorage) (trackKey : string) (progress : ProgressRecord)
         (p : Problem.t) (answers : list string) (now : Z),
    let progress' := fst (submit ls trackKey progress p answers now) in
    (recorded progress (Problem.id p) = true ->
     badge progress' (Problem.id p)
     = (if passAll p answers || (0 <? passesOf (Problem.id p) progress)%N
        then Solved else InProgress)) /\
    (recorded progress (Problem.id p) = false ->
     badge progress' (Problem.id p) = Untouched) /\
    (forall id, id <> Problem.id p -> badge progress' id = badge progress id) /\
    (forall (subs : list Session.Submission) (id : string),
        (forall sub, In sub subs ->
                     Problem.id (Session.problem sub) <> "__proto__"%string) ->
        badge (Store.get ls trackKey) id = Solved ->
        badge (fst (Session.run ls trackKey subs)) id = Solved).
Proof.
  intros ls trackKey progress p answers now progress'.
  split; [|split; [|split]].
  - intros Hrec. revert Hrec.
    unfold progress', submit, recordAttempt, badge, passesOf, recorded. cbn [fst].
    destruct (lookup (Problem.id p) progress) as [s|] eqn:E.
    + intros _. rewrite lookup_assign_same. cbn [AttemptStat.passes AttemptStat.attempts].
      destruct (passAll p answers); cbn [orb].
      * destruct (N.ltb_spec 0 (AttemptStat.passes s + 1)); [reflexivity|lia].
      * destruct (0 <? AttemptStat.passes s)%N; [reflexivity|].
        destruct (N.ltb_spec 0 (AttemptStat.attempts s + 1)); [reflexivity|lia].
    + destruct (inherited (Problem.id p)); [discriminate|]. intros _.
      rewrite lookup_assign_same. cbn [AttemptStat.passes AttemptStat.attempts].
      destruct (passAll p answers); reflexivity.
  - unfold progress', submit, recordAttempt, badge, recorded. cbn [fst].
    destruct (lookup (Problem.id p) progress) as [s|] eqn:E; [discriminate|].
    destruct (inherited (Problem.id p)); [|discriminate].
    intros _. now rewrite E.
  - intros id Hid. unfold progress', submit, recordAttempt, badge. cbn [fst].
    destruct (lookup (Problem.id p) progress);
      [|destruct (inherited (Problem.id p)); [reflexivity|]];
      now rewrite lookup_assign_other.
  - intros subs id _ H. apply badge_solved. apply badge_solved in H.
    unfold Session.run.
    destruct (run_from trackKey subs (Store.get ls trackKey) ls) as (_ & Hc & _).
    destruct (Hc id) as [_ Hp]. rewrite Hp. lia.
Qed.

(** A first submission that fails its test: the problem is in progress. *)
Lemma badge_after_submit_witness :
  badge (fst (submit (fun _ => Missing) "jc_progress" []
                     (Samples.problem "p1" "Sum") ["5"%string] Samples.today0))
        "p1" = InProgress.
Proof.
  destruct (badge_after_submit (fun _ => Missing) "jc_progress" []
              (Samples.problem "p1" "Sum") ["5"%string] Samples.today0)
    as (H & _).
  apply H; reflexivity.
Defined.

End SessionProperties.

(* ================================================================== *)
(** * The single-track dashboard and the track page *)
(* ================================================================== *)

Section TopicFacts.
Import TrackDashboard Terms.

Variable progress : ProgressRecord.

Lemma topicGet_set (k k' : string) (v : N * N) (ts : TopicStats) :
  topicGet k' (topicSet k v ts) = if String.eqb k k' then Some v else topicGet k' ts.
Proof.
  induction ts as [|[k0 v0] ts IH]; simpl.
  - destruct (String.eqb k k'); reflexivity.
  - destruct (String.eqb_spec k0 k) as [->|Hk]; simpl.
    + destruct (String.eqb k k'); reflexivity.
    + destruct (String.eqb_spec k0 k') as [->|Hk'].
      * destruct (String.eqb_spec k k'); [congruence|reflexivity].
      * exact IH.
Qed.

Lemma topicSet_keys (k x : string) (v : N * N) (ts : TopicStats) :
  In x (map fst (topicSet k v ts)) -> x = k \/ In x (map fst ts).
Proof.
  induction ts as [|[k0 v0] ts IH]; simpl.
  - intros [<-|[]]. now left.
  - destruct (String.eqb k0 k); simpl; intros [H|H]; auto.
    destruct (IH H); auto.
Qed.

Lemma topicSet_NoDup (k : string) (v : N * N) (ts : TopicStats) :
  NoDup (map fst ts) -> NoDup (map fst (topicSet k v ts)).
Proof.
  induction ts as [|[k0 v0] ts IH]; simpl; intro H.
  - constructor; [intros []|constructor].
  - inversion H as [|? ? Hnot Hrest]; subst.
    destruct (String.eqb_spec k0 k) as [->|Hk]; simpl.
    + constructor; assumption.
    + constructor; [|now apply IH].
      intro Hin. apply topicSet_keys in Hin. destruct Hin; [congruence|contradiction].
Qed.

Lemma topicGet_In (k : string) (v : N * N) (ts : TopicStats) :
  NoDup (map fst ts) -> In (k, v) ts -> topicGet k ts = Some v.
Proof.
  induction ts as [|[k0 v0] ts IH]; simpl; intros Hnd Hin; [contradiction|].
  inversion Hnd as [|? ? Hnot Hrest]; subst.
  destruct Hin as [[= -> ->]|Hin].
  - now rewrite String.eqb_refl.
  - destruct (String.eqb_spec k0 k) as [->|Hk].
    + exfalso. apply Hnot. apply in_map_iff. now exists (k, v).
    + now apply IH.
Qed.

Lemma topicStep_own (ts : TopicStats) (p : Problem.t) :
  inherited (Problem.topic p) = false ->
  topicStep progress ts p =
  topicSet (Problem.topic p)
    ((fst match topicGet (Problem.topic p) ts with Some v => v | None => (0, 0)%N end
      + 1)%N,
     if isSolved progress p
     then (snd match topicGet (Problem.topic p) ts with Some v => v | None => (0, 0)%N end
           + 1)%N
     else snd match topicGet (Problem.topic p) ts with Some v => v | None => (0, 0)%N end)
    ts.
Proof. intro H. unfold topicStep, isSolved. now rewrite H. Qed.

(** The problems with an inherited topic leave [topicStats] as it is. *)
Lemma topicStats_carded (problems : list Problem.t) :
  forall ts,
    fold_left (topicStep progress) problems ts
    = fold_left (topicStep progress) (carded problems) ts.
Proof.
  induction problems as [|p problems IH]; intro ts; [reflexivity|].
  unfold carded. cbn [fold_left filter]. fold (carded problems).
  destruct (inherited (Problem.topic p)) eqn:E; cbn [negb fold_left].
  - unfold topicStep at 2. rewrite E. apply IH.
  - apply IH.
Qed.

Lemma carded_own (problems : list Problem.t) (p : Problem.t) :
  In p (carded problems) -> inherited (Problem.topic p) = false.
Proof.
  unfold carded. intro H. apply filter_In in H. destruct H as [_ H].
  now apply negb_true_iff in H.
Qed.

Lemma inTopic_carded (k : string) (problems : list Problem.t) :
  inTopic k (carded problems) = if inherited k then [] else inTopic k problems.
Proof.
  unfold inTopic, carded. induction problems as [|p problems IH]; simpl.
  - now destruct (inherited k).
  - destruct (inherited (Problem.topic p)) eqn:E; simpl.
    + destruct (String.eqb_spec (Problem.topic p) k) as [<-|Hk].
      * rewrite E in *. exact IH.
      * exact IH.
    + destruct (String.eqb_spec (Problem.topic p) k) as [<-|Hk].
      * rewrite E in *. now rewrite IH.
      * exact IH.
Qed.

Lemma topicStats_NoDup (problems : list Problem.t) (ts : TopicStats) :
  NoDup (map fst ts) ->
  NoDup (map fst (fold_left (topicStep progress) problems ts)).
Proof.
  revert ts; induction problems as [|p problems IH]; intros ts H; simpl; [exact H|].
  apply IH. unfold topicStep.
  destruct (inherited (Problem.topic p)); [exact H|now apply topicSet_NoDup].
Qed.

(** The entry of a topic counts the problems of the topic and the solved
    ones among them. *)
Lemma topicStats_get (problems : list Problem.t) :
  (forall p, In p problems -> inherited (Problem.topic p) = false) ->
  forall (ts : TopicStats) (k : string),
    topicGet k (fold_left (topicStep progress) problems ts) =
    let n := N.of_nat (List.length (inTopic k problems)) in
    let m := N.of_nat (List.length (filter (isSolved progress) (inTopic k problems))) in
    match topicGet k ts with
    | Some v => Some ((fst v + n)%N, (snd v + m)%N)
    | None => if (n =? 0)%N then None else Some (n, m)
    end.
Proof.
  induction problems as [|p problems IH]; intros Hown ts k.
  - simpl. destruct (topicGet k ts) as [[t s]|]; simpl; [|reflexivity].
    now rewrite !N.add_0_r.
  - cbn [fold_left]. rewrite IH by (intros q Hq; apply Hown; now right).
    rewrite (topicStep_own ts p (Hown p (or_introl eq_refl))). rewrite topicGet_set.
    unfold inTopic. cbn [filter].
    destruct (String.eqb_spec (Problem.topic p) k) as [->|Hk].
    + cbn [filter].
      destruct (topicGet k ts) as [[t s]|]; cbn [fst snd];
        destruct (isSolved progress p); cbn [List.length filter];
        rewrite ?Nat2N.inj_succ;
        try (destruct (N.eqb_spec (N.succ (N.of_nat (List.length (filter (fun p0 => String.eqb (Problem.topic p0) k) problems)))) 0); [lia|]);
        f_equal; f_equal; lia.
    + reflexivity.
Qed.

Lemma topicSet_total (k : string) (v : N * N) (ts : TopicStats) :
  (sumN (map (fun e => fst (snd e)) (topicSet k v ts))
   + fst match topicGet k ts with Some x => x | None => (0, 0) end
   = sumN (map (fun e => fst (snd e)) ts) + fst v)%N.
Proof.
  unfold sumN. induction ts as [|[k0 v0] ts IH]; simpl.
  - lia.
  - destruct (String.eqb k0 k); simpl; [lia|]. simpl in IH. lia.
Qed.

Lemma topicStats_total (problems : list Problem.t) :
  (forall p, In p problems -> inherited (Problem.topic p) = false) ->
  forall ts,
    sumN (map (fun e => fst (snd e)) (fold_left (topicStep progress) problems ts))
    = (sumN (map (fun e => fst (snd e)) ts) + N.of_nat (List.length problems))%N.
Proof.
  induction problems as [|p problems IH]; intros Hown ts.
  - simpl. lia.
  - cbn [fold_left]. rewrite IH by (intros q Hq; apply Hown; now right).
    rewrite (topicStep_own ts p (Hown p (or_introl eq_refl))).
    pose proof (topicSet_total (Problem.topic p)
      ((fst match topicGet (Problem.topic p) ts with Some v => v | None => (0, 0)%N end + 1)%N,
       if isSolved progress p
       then (snd match topicGet (Problem.topic p) ts with Some v => v | None => (0, 0)%N end + 1)%N
       else snd match topicGet (Problem.topic p) ts with Some v => v | None => (0, 0)%N end)
      ts) as H.
    cbn [fst] in H. cbn [List.length]. lia.
Qed.

End TopicFacts.

Section EntrySortFacts.
Import Terms.

Lemma insertEntry_perm (x : string * AttemptStat.t) (l : ProgressRecord) :
  Permutation (insertEntry x l) (x :: l).
Proof.
  induction l as [|y l IH]; simpl; [reflexivity|].
  destruct (lastOf y <=? lastOf x); [reflexivity|].
  rewrite IH. apply perm_swap.
Qed.

Lemma sortEntries_perm (l : ProgressRecord) : Permutation (sortEntries l) l.
Proof.
  induction l as [|x l IH]; simpl; [reflexivity|].
  rewrite insertEntry_perm. now constructor.
Qed.

Lemma insertEntry_sorted (x : string * AttemptStat.t) (l : ProgressRecord) :
  StronglySorted newerEntryFirst l -> StronglySorted newerEntryFirst (insertEntry x l).
Proof.
  induction 1 as [|y l Hs IH Hy]; simpl.
  - constructor; constructor.
  - destruct (Z.leb_spec (lastOf y) (lastOf x)) as [Hle|Hlt].
    + constructor; [constructor; assumption|].
      constructor; [exact Hle|].
      eapply Forall_impl; [|exact Hy]. unfold newerEntryFirst. intros; lia.
    + constructor; [exact IH|].
      apply (Permutation_Forall (Permutation_sym (insertEntry_perm x l))).
      constructor; [unfold newerEntryFirst; lia|exact Hy].
Qed.

Lemma sortEntries_sorted (l : ProgressRecord) :
  StronglySorted newerEntryFirst (sortEntries l).
Proof.
  induction l as [|x l IH]; simpl; [constructor|].
  now apply insertEntry_sorted.
Qed.

Lemma sorted_map (A : Type) (f : A -> Z) (l : list A) :
  StronglySorted (fun a b => f b <= f a) l ->
  StronglySorted (fun a b => b <= a) (map f l).
Proof.
  induction 1 as [|x l Hs IH Hx]; simpl; constructor; [exact IH|].
  rewrite Forall_forall in *. intros y Hy. apply in_map_iff in Hy.
  destruct Hy as (z & <- & Hz). now apply Hx.
Qed.

Lemma sorted_firstn (n : nat) (l : list Z) :
  StronglySorted (fun a b => b <= a) l ->
  StronglySorted (fun a b => b <= a) (firstn n l).
Proof.
  intro H; revert n; induction H as [|x l Hs IH Hx]; intro n.
  - rewrite firstn_nil. constructor.
  - destruct n as [|n]; simpl; [constructor|].
    constructor; [apply IH|].
    rewrite Forall_forall in *. intros y Hy. apply Hx.
    rewrite <- (firstn_skipn n l). apply in_or_app. now left.
Qed.

Lemma lastOf_dated (id : string) (st : AttemptStat.t) (w : Z) :
  AttemptStat.dated st = Some w -> lastOf (id, st) = w.
Proof.
  unfold AttemptStat.dated, lastOf. simpl.
  destruct (AttemptStat.last st) as [x|]; [|discriminate].
  destruct (x =? 0); [discriminate|]. now intros [= ->].
Qed.

End EntrySortFacts.

Section TrackViewProperties.
Import TrackDashboard Terms.

(** X6: the topic cards of the dashboard.  A topic has at most one card;
    the topic of a card is not an inherited name, its total is the number
    of problems of the topic and is at least 1, its solved count is the
    number of those problems that have a pass and never exceeds the
    total; every problem whose topic is not an inherited name is on a
    card, and a topic with an inherited name has no card; the totals of
    the cards add up to the number of problems on a card, which is the
    number of problems when no topic is an inherited name; and the
    percentage of a card is an integer between 0 and 100. *)
Theorem topic_cards_partition_the_problems :
  forall (problems : list Problem.t) (progress : ProgressRecord),
    let ts := topicStats problems progress in
    NoDup (map fst ts) /\
    (forall topic t s,
        In (topic, (t, s)) ts ->
        inherited topic = false /\
        t = N.of_nat (List.length (inTopic topic problems)) /\
        s = N.of_nat (List.length (filter (isSolved progress) (inTopic topic problems))) /\
        (0 < t)%N /\ (s <= t)%N) /\
    (forall p, In p problems -> inherited (Problem.topic p) = false ->
               exists v, In (Problem.topic p, v) ts) /\
    sumN (map (fun e => fst (snd e)) ts) = N.of_nat (List.length (carded problems)) /\
    ((forall p, In p problems -> inherited (Problem.topic p) = false) ->
     sumN (map (fun e => fst (snd e)) ts) = N.of_nat (List.length problems)) /\
    (Z.of_nat (List.length problems) < 2 ^ 53 ->
     forall topic per s t,
       In (topic, per, s, t) (topicCards ts) ->
       exists z, per = Some z /\ 0 <= z <= 100).
Proof.
  intros problems progress ts.
  assert (Hnd : NoDup (map fst ts)) by (apply topicStats_NoDup; constructor).
  assert (Hget : forall k,
             topicGet k ts =
             if inherited k then None
             else let n := N.of_nat (List.length (inTopic k problems)) in
                  let m := N.of_nat (List.length (filter (isSolved progress)
                                                         (inTopic k problems))) in
                  if (n =? 0)%N then None else Some (n, m)).
  { intro k. unfold ts, topicStats.
    rewrite topicStats_carded, topicStats_get by apply carded_own.
    cbn [topicGet]. rewrite inTopic_carded.
    destruct (inherited k); reflexivity. }
  assert (Hentry : forall topic t s,
             In (topic, (t, s)) ts ->
             inherited topic = false /\
             t = N.of_nat (List.length (inTopic topic problems)) /\
             s = N.of_nat (List.length (filter (isSolved progress) (inTopic topic problems))) /\
             (0 < t)%N /\ (s <= t)%N).
  { intros topic t s Hin. apply (topicGet_In topic (t, s) ts Hnd) in Hin.
    rewrite Hget in Hin. destruct (inherited topic); [discriminate|]. cbn in Hin.
    destruct (N.eqb_spec (N.of_nat (List.length (inTopic topic problems))) 0) as [E|E];
      [discriminate|].
    injection Hin as <- <-.
    pose proof (filter_length_le (isSolved progress) (inTopic topic problems)).
    repeat split; lia. }
  assert (Hsum : sumN (map (fun e => fst (snd e)) ts)
                 = N.of_nat (List.length (carded problems))).
  { unfold ts, topicStats.
    rewrite topicStats_carded, topicStats_total by apply carded_own. reflexivity. }
  split; [exact Hnd|]. split; [exact Hentry|]. split; [|split; [exact Hsum|split]].
  - intros p Hp Hown.
    assert (Hsome : topicGet (Problem.topic p) ts <> None).
    { rewrite Hget, Hown. cbn.
      assert (Hin : In p (inTopic (Problem.topic p) problems))
        by (apply filter_In; split; [exact Hp|apply String.eqb_refl]).
      destruct (inTopic (Problem.topic p) problems); [contradiction|].
      cbn [List.length]. rewrite Nat2N.inj_succ.
      destruct (N.eqb_spec (N.succ (N.of_nat (List.length l))) 0); [lia|discriminate]. }
    destruct (topicGet (Problem.topic p) ts) as [v|] eqn:E; [|congruence].
    exists v. clear -E. induction ts as [|[k0 v0] l IH]; simpl in *; [discriminate|].
    destruct (String.eqb_spec k0 (Problem.topic p)) as [->|].
    + injection E as ->. now left.
    + right. now apply IH.
  - intro Hown. rewrite Hsum. f_equal. f_equal. unfold carded.
    apply forallb_filter_id. apply forallb_forall. intros q Hq.
    now rewrite (Hown q Hq).
  - intros Hbound topic per s t Hin. unfold topicCards in Hin.
    apply in_map_iff in Hin. destruct Hin as ([k [t' s']] & Heq & Hin).
    cbn [fst snd] in Heq. injection Heq as <- <- <- <-.
    destruct (Hentry _ _ _ Hin) as (_ & Ht & _ & _ & Hle).
    apply pct_range; [exact Hle|].
    pose proof (filter_length_le (fun p => String.eqb (Problem.topic p) k) problems) as Hf.
    unfold inTopic in Ht. lia.
Qed.

(** Two problems of one topic, one of them solved: the card shows 1 of
    2, a percentage between 0 and 100. *)
Lemma topic_cards_partition_the_problems_witness :
  (exists v, In ("Basics"%string, v)
                (topicStats [Samples.problem "p1" "Sum"; Samples.problem "p2" "Product"]
                            [("p1"%string, AttemptStat.mk 3 1 (Some 1704139200000))])) /\
  (exists z, pct 1 2 = Some z /\ 0 <= z <= 100).
Proof.
  destruct (topic_cards_partition_the_problems
              [Samples.problem "p1" "Sum"; Samples.problem "p2" "Product"]
              [("p1"%string, AttemptStat.mk 3 1 (Some 1704139200000))])
    as (_ & _ & Hcard & _ & _ & Hper).
  split.
  - exact (Hcard (Samples.problem "p1" "Sum") (or_introl eq_refl) eq_refl).
  - refine (Hper _ "Basics"%string (pct 1 2) 1%N 2%N _).
    + reflexivity.
    + left. reflexivity.
Defined.

(** X7: the recent lists.  The track page lists every entry that has a
    [last] instant, most recent first; the dashboard shows the first 8 of
    them, with the same flags and instants; the instants shown are the
    [last] instants of the progress object. *)
Theorem recent_rows_latest_first :
  forall (problems : list Problem.t) (progress : ProgressRecord),
    let rows := recentRows problems progress in
    let page := TrackDetail.recentRows problems progress in
    List.length page = List.length (datedEntries progress) /\
    List.length rows = Nat.min 8 (List.length (datedEntries progress)) /\
    StronglySorted (fun a b => b <= a) (map snd page) /\
    StronglySorted (fun a b => b <= a) (map snd rows) /\
    map rowKey rows = firstn 8 (map rowKey page) /\
    (forall w, In w (map snd page) <->
               exists id st, In (id, st) progress /\ AttemptStat.dated st = Some w).
Proof.
  intros problems progress rows page.
  set (sorted := sortEntries (datedEntries progress)).
  assert (Hperm : Permutation sorted (datedEntries progress)) by apply sortEntries_perm.
  assert (Hpage : map snd page = map lastOf sorted).
  { unfold page, TrackDetail.recentRows. rewrite map_map. reflexivity. }
  assert (Hrows : map snd rows = firstn 8 (map lastOf sorted)).
  { unfold rows, recentRows. rewrite map_map. fold sorted.
    now rewrite firstn_map. }
  assert (Hsorted : StronglySorted (fun a b => b <= a) (map lastOf sorted))
    by (apply sorted_map, sortEntries_sorted).
  split; [|split; [|split; [|split; [|split]]]].
  - unfold page, TrackDetail.recentRows. rewrite length_map.
    now apply Permutation_length.
  - unfold rows, recentRows. rewrite length_map, length_firstn.
    fold sorted. now rewrite (Permutation_length Hperm).
  - now rewrite Hpage.
  - rewrite Hrows. now apply sorted_firstn.
  - unfold rows, page, recentRows, TrackDetail.recentRows. fold sorted.
    rewrite !map_map, <- firstn_map. reflexivity.
  - intro w. rewrite Hpage. split.
    + intro Hin. apply in_map_iff in Hin. destruct Hin as ([id st] & Hw & Hin).
      apply (Permutation_in _ Hperm) in Hin. unfold datedEntries in Hin.
      apply filter_In in Hin. destruct Hin as [Hin Hd]. cbn [snd] in Hd.
      destruct (AttemptStat.dated st) as [w'|] eqn:E; [|discriminate].
      exists id, st. split; [exact Hin|].
      rewrite (lastOf_dated id st w' E) in Hw. now subst.
    + intros (id & st & Hin & Hd). apply in_map_iff. exists (id, st).
      split; [now apply lastOf_dated|].
      apply (Permutation_in _ (Permutation_sym Hperm)).
      unfold datedEntries. apply filter_In. split; [exact Hin|].
      cbn [snd]. now rewrite Hd.
Qed.

(** The instant of the one dated entry of the sample store is listed. *)
Lemma recent_rows_latest_first_witness :
  In 1704139200000
     (map snd (TrackDetail.recentRows []
                 [("p1"%string, AttemptStat.mk 3 1 (Some 1704139200000))])).
Proof.
  apply (recent_rows_latest_first []
           [("p1"%string, AttemptStat.mk 3 1 (Some 1704139200000))]).
  exists "p1"%string, (AttemptStat.mk 3 1 (Some 1704139200000)).
  split; [now left|reflexivity].
Defined.

End TrackViewProperties.

(* ================================================================== *)
(** * The views agree *)
(* ================================================================== *)

Section ViewFacts.
Import Terms Spec.

Lemma tally_sums (progress : ProgressRecord) :
  Dashboard.tally progress =
  (sumAttempts (values progress), sumPasses (values progress),
   countSolved (values progress)).
Proof.
  unfold Dashboard.tally.
  assert (H : forall l a p sv,
             fold_left Dashboard.tallyStep l (a, p, sv) =
             ((a + sumAttempts l)%N, (p + sumPasses l)%N, (sv + countSolved l)%N)).
  { induction l as [|s l IH]; intros a p sv.
    - simpl. now rewrite !N.add_0_r.
    - cbn [fold_left Dashboard.tallyStep]. rewrite IH, countSolved_cons.
      cbn [sumAttempts sumPasses fold_right].
      fold (sumAttempts l) (sumPasses l).
      f_equal; [f_equal|]; try lia.
      destruct (0 <? AttemptStat.passes s)%N; lia. }
  rewrite H. now rewrite !N.add_0_l.
Qed.

Lemma totals_sums (progress : ProgressRecord) :
  TrackDashboard.totals progress =
  (sumAttempts (values progress), sumPasses (values progress)).
Proof.
  unfold TrackDashboard.totals.
  assert (H : forall l a p,
             fold_left TrackDashboard.totalsStep l (a, p) =
             ((a + sumAttempts l)%N, (p + sumPasses l)%N)).
  { induction l as [|s l IH]; intros a p.
    - simpl. now rewrite !N.add_0_r.
    - cbn [fold_left]. unfold TrackDashboard.totalsStep at 2. cbn [fst snd].
      rewrite IH. cbn [sumAttempts sumPasses fold_right].
      fold (sumAttempts l) (sumPasses l). f_equal; lia. }
  rewrite H. now rewrite !N.add_0_l.
Qed.

Lemma runSections_cards (net : Network) (ls : LocalStorage)
      (sections : list Track.t) :
  forall ov recent cs ov' recent' cs',
    Dashboard.runSections net ls sections (ov, recent, cs) = Some (ov', recent', cs') ->
    cs' = cs ++ flat_map (cardOf net ls) sections.
Proof.
  induction sections as [|s sections IH]; intros ov recent cs ov' recent' cs' H.
  - simpl in H. injection H as <- <- <-. simpl. now rewrite app_nil_r.
  - simpl in H. unfold Dashboard.sectionStep in H. cbn [flat_map]. unfold cardOf at 1.
    destruct (net (Track.problemsUrl s)) as [problems|]; [|discriminate].
    destruct (Dashboard.tally (Store.get ls (Track.trackKey s))) as [[a p] sv].
    apply IH in H. rewrite H, <- app_assoc. reflexivity.
Qed.

Lemma runSections_overall (net : Network) (ls : LocalStorage)
      (sections : list Track.t) :
  forall ov recent cs ov' recent' cs',
    Dashboard.runSections net ls sections (ov, recent, cs) = Some (ov', recent', cs') ->
    overallNumbers ov' =
    fold_right addNumbers (overallNumbers ov) (map (sectionNumbers net ls) sections).
Proof.
  induction sections as [|s sections IH]; intros ov recent cs ov' recent' cs' H.
  - simpl in H. injection H as <- <- <-. reflexivity.
  - simpl in H. unfold Dashboard.sectionStep in H. cbn [map fold_right].
    unfold sectionNumbers at 1.
    destruct (net (Track.problemsUrl s)) as [problems|]; [|discriminate].
    destruct (Dashboard.tally (Store.get ls (Track.trackKey s))) as [[a p] sv].
    apply IH in H. rewrite H. clear.
    induction (map (sectionNumbers net ls) sections) as [|[[[x1 x2] x3] x4] l IHl].
    + unfold overallNumbers, addNumbers. simpl. f_equal; [f_equal; [f_equal|]|]; lia.
    + cbn [fold_right]. rewrite IHl.
      destruct (fold_right addNumbers (overallNumbers ov) l) as [[[y1 y2] y3] y4].
      unfold addNumbers. f_equal; [f_equal; [f_equal|]|]; lia.
Qed.

Lemma addNumbers_perm (z : N * N * N * N) (l l' : list (N * N * N * N)) :
  Permutation l l' -> fold_right addNumbers z l = fold_right addNumbers z l'.
Proof.
  induction 1 as [|x l l' _ IH|x y l|l1 l2 l3 _ IH1 _ IH2]; simpl.
  - reflexivity.
  - now rewrite IH.
  - destruct x as [[[x1 x2] x3] x4], y as [[[y1 y2] y3] y4].
    destruct (fold_right addNumbers z l) as [[[z1 z2] z3] z4].
    unfold addNumbers. f_equal; [f_equal; [f_equal|]|]; lia.
  - now rewrite IH1.
Qed.

Lemma overall_eta (ov ov' : Dashboard.Overall) :
  overallNumbers ov = overallNumbers ov' -> ov = ov'.
Proof.
  destruct ov, ov'. unfold overallNumbers. simpl. now intros [= -> -> -> ->].
Qed.

End ViewFacts.

Section ViewProperties.
Import Terms Spec.

(** X8: one track, four views.  When the problem list of a section
    loads, its card on the multi-track dashboard, the summary of the
    single-track dashboard, the summary of the track page and the
    analytics card report the same solved count, attempts, passes and
    accuracy; the first three report the same number of problems, and so
    does the analytics card when the cache holds the list. *)
Theorem views_agree_on_a_track :
  forall (net : Network) (ls : LocalStorage) (sections : list Track.t)
         (s : Track.t) (problems : list Problem.t)
         (cache : Analytics.Cache) (tz : Clock.TimeZone) (today : Z),
    (forall s', In s' sections -> net (Track.problemsUrl s') <> None) ->
    In s sections ->
    net (Track.problemsUrl s) = Some problems ->
    let stats := Analytics.computeTrackAnalytics cache tz ls today s in
    exists multi single page card,
      Dashboard.renderDashboardMulti net ls sections = Some multi /\
      TrackDashboard.renderDashboard net ls (Track.problemsUrl s) (Track.trackKey s)
      = Some single /\
      TrackDetail.renderTrackDetail net ls (Track.problemsUrl s) (Track.trackKey s)
      = Some page /\
      In card (Dashboard.cards multi) /\
      Dashboard.cardTitle card = Track.title s /\
      (Dashboard.cardSolved card, Dashboard.cardAttempts card,
       Dashboard.cardPasses card, Dashboard.acc card)
      = (Analytics.solved stats, Analytics.attempts stats,
         Analytics.passes stats, Analytics.accuracy stats) /\
      (TrackDashboard.solved (TrackDashboard.summary single),
       TrackDashboard.attempts (TrackDashboard.summary single),
       TrackDashboard.passes (TrackDashboard.summary single),
       TrackDashboard.accuracy (TrackDashboard.summary single))
      = (Analytics.solved stats, Analytics.attempts stats,
         Analytics.passes stats, Analytics.accuracy stats) /\
      (TrackDetail.solved (TrackDetail.summary page),
       TrackDetail.attempts (TrackDetail.summary page),
       TrackDetail.passes (TrackDetail.summary page),
       TrackDetail.acc (TrackDetail.summary page))
      = (Analytics.solved stats, Analytics.attempts stats,
         Analytics.passes stats, Analytics.accuracy stats) /\
      Dashboard.cardTotal card = N.of_nat (List.length problems) /\
      TrackDashboard.totalProblems (TrackDashboard.summary single)
      = N.of_nat (List.length problems) /\
      TrackDetail.total (TrackDetail.summary page) = N.of_nat (List.length problems) /\
      Dashboard.solvedPerc card = TrackDetail.solvedPerc (TrackDetail.summary page) /\
      (cache (Track.trackKey s) = Some problems ->
       Analytics.total stats = N.of_nat (List.length problems)).
Proof.
  intros net ls sections s problems cache tz today Hall Hin Hnet stats.
  destruct (runSections_loaded net ls sections Hall
              (Dashboard.mkOverall 0 0 0 0, [], [])) as [[[ov recent] cs] Hrun].
  pose proof (runSections_cards _ _ _ _ _ _ _ _ _ Hrun) as Hcs. simpl in Hcs.
  destruct (computeTrackAnalytics_fields cache tz ls today s)
    as (Htot & Hsol & Hatt & Hpas & Hacc & _).
  fold stats in Htot, Hsol, Hatt, Hpas, Hacc.
  change (Analytics.getProgress ls (Track.trackKey s))
    with (Store.get ls (Track.trackKey s)) in *.
  set (progress := Store.get ls (Track.trackKey s)) in *.
  set (card := Dashboard.mkCard (Track.title s) (countSolved (values progress))
                 (N.of_nat (List.length problems))
                 (sumAttempts (values progress)) (sumPasses (values progress))
                 (pct (sumPasses (values progress)) (sumAttempts (values progress)))
                 (pct (countSolved (values progress)) (N.of_nat (List.length problems)))).
  eexists _, _, _, card.
  split; [unfold Dashboard.renderDashboardMulti; rewrite Hrun; reflexivity|].
  split; [unfold TrackDashboard.renderDashboard; rewrite Hnet; fold progress;
          rewrite totals_sums; reflexivity|].
  split; [unfold TrackDetail.renderTrackDetail; rewrite Hnet; fold progress;
          rewrite totals_sums; reflexivity|].
  split.
  { cbn [Dashboard.cards]. rewrite Hcs. apply in_flat_map. exists s.
    split; [exact Hin|]. unfold cardOf. rewrite Hnet. fold progress.
    rewrite tally_sums. now left. }
  cbn [Dashboard.cardTitle Dashboard.cardSolved Dashboard.cardAttempts
       Dashboard.cardPasses Dashboard.acc Dashboard.cardTotal Dashboard.solvedPerc
       TrackDashboard.summary TrackDashboard.solved TrackDashboard.attempts
       TrackDashboard.passes TrackDashboard.accuracy TrackDashboard.totalProblems
       TrackDetail.summary TrackDetail.solved TrackDetail.attempts
       TrackDetail.passes TrackDetail.acc TrackDetail.total TrackDetail.solvedPerc
       card].
  rewrite Hsol, Hatt, Hpas, Hacc.
  repeat split.
  intro Hc. rewrite Htot, Hc. reflexivity.
Qed.

(** The first sample track, whose problem list loads. *)
Lemma views_agree_on_a_track_witness :
  exists single,
    TrackDashboard.renderDashboard Samples.netA Samples.storeAB
      "data/java-core.json" "jc_progress" = Some single /\
    TrackDashboard.attempts (TrackDashboard.summary single)
    = Analytics.attempts
        (Analytics.computeTrackAnalytics (fun _ => None) Samples.ist Samples.storeAB
                                         Samples.today0 Samples.trackA).
Proof.
  destruct (views_agree_on_a_track Samples.netA Samples.storeAB [Samples.trackA]
              Samples.trackA
              [Samples.problem "p1" "Sum"; Samples.problem "p2" "Product"]
              (fun _ => None) Samples.ist Samples.today0)
    as (multi & single & page & card & _ & Hs & _ & _ & _ & _ & Heq & _).
  - intros s' [<-|[]]. vm_compute. discriminate.
  - now left.
  - reflexivity.
  - exists single. split; [exact Hs|]. exact (f_equal (fun t => snd (fst (fst t))) Heq).
Defined.

(** X9: the overall totals.  When every problem list loads and the sums
    stay below [2^53], the totals of the multi-track dashboard are the
    sums, over the sections, of the numbers of problems, attempts, passes
    and solved problems; they, and the two percentages computed from
    them, do not depend on the order in which the fetches complete, and
    the cards are shown in the order of the sections whatever that
    order. *)
Theorem overall_totals_are_sums :
  forall (net : Network) (ls : LocalStorage) (sections schedule : list Track.t),
    (forall s, In s sections -> net (Track.problemsUrl s) <> None) ->
    Permutation sections schedule ->
    let sums := fold_right addNumbers (0, 0, 0, 0)%N
                           (map (sectionNumbers net ls) sections) in
    safeNumbers sums ->
    exists view view',
      Dashboard.renderDashboardMulti net ls sections = Some view /\
      Dashboard.renderDashboardMultiIn net ls sections schedule = Some view' /\
      overallNumbers (Dashboard.overall view) = sums /\
      Dashboard.overall view' = Dashboard.overall view /\
      Dashboard.accOverall view' = Dashboard.accOverall view /\
      Dashboard.solvedPercAll view' = Dashboard.solvedPercAll view /\
      Dashboard.cards view' = Dashboard.cards view /\
      Dashboard.cards view = flat_map (cardOf net ls) sections.
Proof.
  intros net ls sections schedule Hall Hperm sums _.
  assert (Hall' : forall s, In s schedule -> net (Track.problemsUrl s) <> None).
  { intros s Hs. apply Hall. eapply Permutation_in; [apply Permutation_sym|]; eassumption. }
  destruct (runSections_loaded net ls sections Hall
              (Dashboard.mkOverall 0 0 0 0, [], [])) as [[[ov recent] cs] Hrun].
  destruct (runSections_loaded net ls schedule Hall'
              (Dashboard.mkOverall 0 0 0 0, [], [])) as [[[ov' recent'] cs'] Hrun'].
  pose proof (runSections_overall _ _ _ _ _ _ _ _ _ Hrun) as Hov.
  pose proof (runSections_overall _ _ _ _ _ _ _ _ _ Hrun') as Hov'.
  pose proof (runSections_cards _ _ _ _ _ _ _ _ _ Hrun) as Hcs.
  simpl in Hcs.
  assert (Heq : ov' = ov).
  { apply overall_eta. rewrite Hov, Hov'. symmetry.
    apply addNumbers_perm. now apply Permutation_map. }
  unfold Dashboard.renderDashboardMulti, Dashboard.renderDashboardMultiIn.
  rewrite Hrun, Hrun'.
  eexists _, _. split; [reflexivity|]. split; [reflexivity|].
  cbn [Dashboard.overall Dashboard.accOverall Dashboard.solvedPercAll Dashboard.cards].
  subst ov'. repeat split.
  - exact Hov.
  - exact Hcs.
Qed.

(** The two sample tracks, the second fetch completing first. *)
Lemma overall_totals_are_sums_witness :
  exists view view',
    Dashboard.renderDashboardMulti (fun _ => Some Samples.fiveProblems) Samples.storeAB
                                   [Samples.trackA; Samples.trackB] = Some view /\
    Dashboard.renderDashboardMultiIn (fun _ => Some Samples.fiveProblems) Samples.storeAB
                                     [Samples.trackA; Samples.trackB]
                                     [Samples.trackB; Samples.trackA] = Some view' /\
    Dashboard.overall view' = Dashboard.overall view /\
    Dashboard.cards view' = Dashboard.cards view.
Proof.
  destruct (overall_totals_are_sums (fun _ => Some Samples.fiveProblems) Samples.storeAB
              [Samples.trackA; Samples.trackB] [Samples.trackB; Samples.trackA])
    as (view & view' & H1 & H2 & _ & H3 & _ & _ & H4 & _).
  - intros s _. discriminate.
  - apply perm_swap.
  - vm_compute. repeat split.
  - exists view, view'. repeat split; assumption.
Defined.

End ViewProperties.

(* ================================================================== *)
(** * The daily series: sums *)
(* ================================================================== *)

Section SeriesSumFacts.
Import Clock Analytics Spec Terms.

Lemma combine_map (A B C : Type) (f : A -> B) (g : A -> C) (l : list A) :
  combine (map f l) (map g l) = map (fun x => (f x, g x)) l.
Proof. induction l as [|x l IH]; simpl; [reflexivity|now rewrite IH]. Qed.

Lemma readStats_app (ls : LocalStorage) (ks1 ks2 : list string) :
  readStats ls (ks1 ++ ks2) = readStats ls ks1 ++ readStats ls ks2.
Proof. unfold readStats. apply flat_map_app. Qed.

Lemma find_first (A : Type) (f : A -> bool) (before after : list A) (x : A) :
  (forall y, In y before -> f y = false) -> f x = true ->
  find f (before ++ x :: after) = Some x.
Proof.
  intros Hb Hx. induction before as [|y before IH]; simpl.
  - now rewrite Hx.
  - rewrite (Hb y (or_introl eq_refl)). apply IH. intros z Hz. apply Hb. now right.
Qed.

Lemma sumN_map_add (A : Type) (f g : A -> N) (l : list A) :
  sumN (map (fun x => (f x + g x)%N) l) = (sumN (map f l) + sumN (map g l))%N.
Proof. unfold sumN. induction l as [|x l IH]; simpl; [reflexivity|]. rewrite IH. lia. Qed.

(** Summing the buckets of a list of days is summing, stat by stat, what
    the stat adds to these days. *)
Lemma sumN_buckets (A : Type) (day : A -> Z) (stats : list AttemptStat.t) (l : list A) :
  sumN (map (fun i => bucket (day i) stats) l)
  = sumN (map (fun s => sumN (map (fun i => contribution (day i) s) l)) stats).
Proof.
  induction stats as [|s stats IH]; cbn [bucket fold_right map].
  - unfold sumN. induction l as [|i l IHl]; simpl; [reflexivity|exact IHl].
  - fold (bucket).
    change (fun i => (contribution (day i) s + fold_right (fun s0 acc => (contribution (day i) s0 + acc)%N) 0%N stats)%N)
      with (fun i => (contribution (day i) s + bucket (day i) stats)%N).
    rewrite sumN_map_add, IH. reflexivity.
Qed.

(** Over [n] consecutive days a stat is counted once if its day is one of
    them, and not at all otherwise. *)
Lemma sumN_contribution (base : Z) (n : nat) (s : AttemptStat.t) :
  sumN (map (fun i => contribution (base + Z.of_nat i) s) (seq 0 n))
  = match AttemptStat.dated s with
    | Some w =>
        if (base <=? isoDay w) && (isoDay w <? base + Z.of_nat n)
        then weight s else 0%N
    | None => 0%N
    end.
Proof.
  unfold contribution.
  destruct (AttemptStat.dated s) as [w|].
  - induction n as [|n IH].
    + simpl. destruct (Z.leb_spec base (isoDay w)), (Z.ltb_spec (isoDay w) (base + 0));
        simpl; try reflexivity; lia.
    + rewrite seq_S, map_app. unfold sumN in *. rewrite fold_right_app.
      cbn [map fold_right Nat.add].
      assert (Hacc : forall (l : list N) (x : N),
                 fold_right N.add x l = (fold_right N.add 0 l + x)%N).
      { induction l as [|y l IHl]; intro x; simpl; [lia|]. rewrite IHl. lia. }
      rewrite Hacc, IH.
      destruct (Z.eqb_spec (isoDay w) (base + Z.of_nat n)),
               (Z.leb_spec base (isoDay w)),
               (Z.ltb_spec (isoDay w) (base + Z.of_nat n)),
               (Z.ltb_spec (isoDay w) (base + Z.of_nat (S n)));
        cbn [andb]; try lia.
  - unfold sumN. induction (seq 0 n) as [|i l IHl]; simpl; [reflexivity|exact IHl].
Qed.

End SeriesSumFacts.

Section SeriesSumProperties.
Import Clock Analytics Spec Terms.

(** X10: the series of several tracks is the sum of their series: for two
    lists of track keys the labels are the same and, with counters that
    add up to less than [2^53], every count of the joint series is the
    sum of the two counts of that day (so the default chart of the two
    tracks adds up the two per-track charts, and a key listed twice is
    counted twice). *)
Theorem series_add_up_over_tracks :
  forall (tz : TimeZone) (ls : LocalStorage) (today : Z)
         (keys1 keys2 : list string) (days : nat),
    JsNumber.safe (totalWeight ls (keys1 ++ keys2)) ->
    let one := buildDailySeries tz ls today keys1 days in
    let two := buildDailySeries tz ls today keys2 days in
    let both := buildDailySeries tz ls today (keys1 ++ keys2) days in
    labels both = labels one /\
    labels both = labels two /\
    series both
    = map (fun c => (fst c + snd c)%N) (combine (series one) (series two)).
Proof.
  intros tz ls today keys1 keys2 days _ one two both.
  assert (Hl : forall keys, labels (buildDailySeries tz ls today keys days)
                            = labels one).
  { intro keys. unfold one. now rewrite !buildDailySeries_labels. }
  split; [apply Hl|]. split; [unfold both, two; now rewrite (Hl (keys1 ++ keys2)), (Hl keys2)|].
  unfold both, one, two. rewrite !buildDailySeries_visited.
  rewrite (Hl (keys1 ++ keys2)), (Hl keys2). fold one.
  rewrite combine_map, map_map. apply map_ext. intro l. cbn [fst snd].
  now rewrite readStats_app, bucket_app.
Qed.

(** The two sample tracks over two days. *)
Lemma series_add_up_over_tracks_witness :
  series (buildDailySeries Samples.ist Samples.storeAB Samples.today0
                           (["jc_progress"%string] ++ ["mj_progress"%string])%list 2)
  = map (fun c => (fst c + snd c)%N)
        (combine
           (series (buildDailySeries Samples.ist Samples.storeAB Samples.today0
                                     ["jc_progress"%string] 2))
           (series (buildDailySeries Samples.ist Samples.storeAB Samples.today0
                                     ["mj_progress"%string] 2))).
Proof.
  destruct (series_add_up_over_tracks Samples.ist Samples.storeAB Samples.today0
              ["jc_progress"%string] ["mj_progress"%string] 2) as (_ & _ & H).
  - reflexivity.
  - exact H.
Defined.

(** X11: nothing is counted twice and nothing outside the window is
    counted: on a host with a fixed UTC offset, with counters that add up
    to less than [2^53], the counts of the series add up to the weights
    ([attempts], or 1 when that is 0) of the visited stats whose [last]
    instant falls on one of the [days] UTC days ending today; with valid
    dates these are all the stored stats dated in the window. *)
Theorem series_total_is_window_weight :
  forall (offset : Z) (ls : LocalStorage) (today : Z)
         (trackKeys : list string) (days : nat),
    JsNumber.safe (totalWeight ls trackKeys) ->
    sumN (series (buildDailySeries (fixedZone offset) ls today trackKeys days))
    = sumN (map (windowWeight (isoDay today) days) (readStats ls trackKeys)) /\
    (instantsOk ls trackKeys = true ->
     sumN (series (buildDailySeries (fixedZone offset) ls today trackKeys days))
     = sumN (map (windowWeight (isoDay today) days) (allStats ls trackKeys))).
Proof.
  intros offset ls today trackKeys days _.
  assert (H : sumN (series (buildDailySeries (fixedZone offset) ls today trackKeys days))
              = sumN (map (windowWeight (isoDay today) days) (readStats ls trackKeys))).
  { rewrite buildDailySeries_visited, labels_fixedZone, map_map.
    rewrite (sumN_buckets nat
               (fun i => isoDay today - Z.of_nat (days - 1) + Z.of_nat i)).
    f_equal. apply map_ext. intro s.
    rewrite sumN_contribution. unfold windowWeight.
    destruct (AttemptStat.dated s) as [w|]; [|reflexivity].
    destruct days as [|n].
    - simpl.
      destruct (Z.leb_spec (isoDay today - 0) (isoDay w)),
               (Z.ltb_spec (isoDay w) (isoDay today - 0 + 0)),
               (Z.ltb_spec (isoDay today - 0) (isoDay w)),
               (Z.leb_spec (isoDay w) (isoDay today)); cbn [andb]; try reflexivity; lia.
    - replace (Z.of_nat (S n - 1)) with (Z.of_nat (S n) - 1) by lia.
      destruct (Z.leb_spec (isoDay today - (Z.of_nat (S n) - 1)) (isoDay w)),
               (Z.ltb_spec (isoDay w) (isoDay today - (Z.of_nat (S n) - 1) + Z.of_nat (S n))),
               (Z.ltb_spec (isoDay today - Z.of_nat (S n)) (isoDay w)),
               (Z.leb_spec (isoDay w) (isoDay today)); cbn [andb]; try reflexivity; lia. }
  split; [exact H|]. intro Hok. rewrite H. now rewrite readStats_all.
Qed.

(** Three attempts dated three days ago, in a window of 14 days. *)
Lemma series_total_is_window_weight_witness :
  sumN (series (buildDailySeries (fixedZone 0) (Samples.agedStore 3) Samples.today0
                                 ["jc_progress"%string] 14))
  = sumN (map (windowWeight (isoDay Samples.today0) 14)
              (allStats (Samples.agedStore 3) ["jc_progress"%string])).
Proof.
  destruct (series_total_is_window_weight 0 (Samples.agedStore 3) Samples.today0
              ["jc_progress"%string] 14) as (_ & H).
  - reflexivity.
  - apply H. reflexivity.
Defined.

(** X12: the chart button.  [viewTrackChart] leaves the chart alone when
    there is no chart, when the button carries no key and when no track
    has the key; with a chart, a key and a track of that key, the chart
    receives the labels and the counts of the series of the first such
    track alone, 14 of each; with valid dates and counters below [2^53]
    each count sums the stats of that track dated on its day. *)
Theorem viewTrackChart_sets_14_points :
  forall (tz : TimeZone) (ls : LocalStorage) (today : Z) (tracks : list Track.t)
         (chart : Chart.State) (key : string),
    let chart' := Chart.viewTrackChart tz ls today tracks chart key in
    (chart = None -> chart' = None) /\
    (key = EmptyString -> chart' = chart) /\
    ((forall t, In t tracks -> Track.key t <> key) -> chart' = chart) /\
    (forall old before t after,
        chart = Some old ->
        key <> EmptyString ->
        tracks = before ++ t :: after ->
        (forall x, In x before -> Track.key x <> key) ->
        Track.key t = key ->
        let s := buildDailySeries tz ls today [Track.trackKey t] 14 in
        chart' = Some (labels s, series s) /\
        List.length (labels s) = 14%nat /\
        List.length (series s) = 14%nat /\
        (instantsOk ls [Track.trackKey t] = true ->
         JsNumber.safe (totalWeight ls [Track.trackKey t]) ->
         series s
         = map (fun l => bucket l (values (getProgress ls (Track.trackKey t))))
               (labels s))).
Proof.
  intros tz ls today tracks chart key chart'. unfold chart', Chart.viewTrackChart.
  split; [|split; [|split]].
  - intros ->. destruct key; [reflexivity|].
    destruct (find _ tracks); reflexivity.
  - intros ->. reflexivity.
  - intro Hnone. destruct key as [|c key]; [reflexivity|].
    destruct (find (fun x => String.eqb (Track.key x) (String c key)) tracks) as [t|] eqn:E;
      [|reflexivity].
    apply find_some in E. destruct E as [Hin Hk]. apply String.eqb_eq in Hk.
    now destruct (Hnone t Hin).
  - intros old before t after -> Hkey -> Hbefore Hk.
    destruct key as [|c key]; [congruence|].
    rewrite (find_first _ (fun x => String.eqb (Track.key x) (String c key))
                        before after t).
    + split; [reflexivity|].
      rewrite buildDailySeries_visited, length_map, buildDailySeries_labels,
        length_map, length_rev, length_seq.
      split; [reflexivity|]. split; [reflexivity|].
      intros Hok _. rewrite readStats_all by exact Hok.
      apply map_ext. intro l. unfold allStats. simpl. now rewrite app_nil_r.
    + intros y Hy. apply String.eqb_neq. now apply Hbefore.
    + now apply String.eqb_eq.
Qed.

(** The button of the first sample track draws its series. *)
Lemma viewTrackChart_sets_14_points_witness :
  let s := buildDailySeries Samples.ist Samples.storeAB Samples.today0
                            ["jc_progress"%string] 14 in
  Chart.viewTrackChart Samples.ist Samples.storeAB Samples.today0
                       [Samples.trackA; Samples.trackB] (Some ([], [])) "jc"
  = Some (labels s, series s).
Proof.
  intro s.
  destruct (viewTrackChart_sets_14_points Samples.ist Samples.storeAB Samples.today0
              [Samples.trackA; Samples.trackB] (Some ([], [])) "jc")
    as (_ & _ & _ & H).
  destruct (H ([], []) [] Samples.trackA [Samples.trackB] eq_refl) as (E & _).
  - discriminate.
  - reflexivity.
  - intros x [].
  - reflexivity.
  - exact E.
Defined.

End SeriesSumProperties.

(* ================================================================== *)
(** * Analytics: activity, streak and storage *)
(* ================================================================== *)

Section ActivityFacts.
Import Clock Analytics Spec Terms.

Lemma later_None_r (a : option Z) : later a None = a.
Proof. destruct a; reflexivity. Qed.

(** [latest] is the greatest dated instant. *)
Lemma latest_upper (l : list AttemptStat.t) (s : AttemptStat.t) (w : Z) :
  In s l -> AttemptStat.dated s = Some w ->
  exists m, latest l = Some m /\ w <= m.
Proof.
  induction l as [|x l IH]; [contradiction|].
  intros [->|Hin] Hw; cbn [latest fold_right]; fold (latest l).
  - rewrite Hw. destruct (latest l) as [m|]; simpl.
    + exists (Z.max w m). split; [reflexivity|lia].
    + exists w. split; [reflexivity|lia].
  - destruct (IH Hin Hw) as (m & Hm & Hle). rewrite Hm.
    destruct (AttemptStat.dated x) as [d|]; simpl.
    + exists (Z.max d m). split; [reflexivity|lia].
    + exists m. split; [reflexivity|exact Hle].
Qed.

Lemma latest_attained (l : list AttemptStat.t) (m : Z) :
  latest l = Some m -> exists s, In s l /\ AttemptStat.dated s = Some m.
Proof.
  revert m; induction l as [|x l IH]; intro m; [discriminate|].
  cbn [latest fold_right]; fold (latest l).
  destruct (AttemptStat.dated x) as [d|] eqn:Ed, (latest l) as [m'|] eqn:El; simpl.
  - intros [= <-]. destruct (Z.max_spec d m') as [[_ ->]|[_ ->]].
    + destruct (IH m' eq_refl) as (s & Hs & Hd). exists s. split; [now right|exact Hd].
    + exists x. split; [now left|exact Ed].
  - intros [= <-]. exists x. split; [now left|exact Ed].
  - intros [= <-]. destruct (IH m' eq_refl) as (s & Hs & Hd).
    exists s. split; [now right|exact Hd].
  - discriminate.
Qed.

Lemma In_values_assign (id : string) (stat s : AttemptStat.t) (p : ProgressRecord) :
  In s (values (assign id stat p)) -> s = stat \/ In s (values p).
Proof.
  unfold values. induction p as [|[k s0] p IH]; simpl.
  - intros [<-|[]]. now left.
  - destruct (String.eqb k id); simpl.
    + intros [<-|H]; [now left|right; now right].
    + intros [<-|H]; [right; now left|]. destruct (IH H); [now left|right; now right].
Qed.

Lemma In_assign_new (id : string) (stat : AttemptStat.t) (p : ProgressRecord) :
  In stat (values (assign id stat p)).
Proof.
  unfold values. induction p as [|[k s0] p IH]; simpl.
  - now left.
  - destruct (String.eqb k id); simpl; [now left|now right].
Qed.

Lemma sumPasses_assign (id : string) (stat : AttemptStat.t) (p : ProgressRecord) :
  (sumPasses (values (assign id stat p)) + passesOf id p
   = sumPasses (values p) + AttemptStat.passes stat)%N.
Proof.
  unfold passesOf, values, sumPasses. induction p as [|[k s] p IH]; simpl.
  - lia.
  - destruct (String.eqb k id); simpl.
    + lia.
    + simpl in IH. lia.
Qed.

Lemma countSolved_assign (id : string) (stat : AttemptStat.t) (p : ProgressRecord) :
  (passesOf id p <= AttemptStat.passes stat)%N ->
  (countSolved (values p) <= countSolved (values (assign id stat p)))%N.
Proof.
  unfold passesOf, values. induction p as [|[k s] p IH]; simpl; intro Hle.
  - rewrite countSolved_cons.
    destruct (0 <? AttemptStat.passes stat)%N; unfold countSolved; simpl; lia.
  - destruct (String.eqb k id); simpl in *.
    + rewrite !countSolved_cons.
      destruct (N.ltb_spec 0 (AttemptStat.passes s)),
               (N.ltb_spec 0 (AttemptStat.passes stat)); lia.
    + rewrite !countSolved_cons. specialize (IH Hle). lia.
Qed.

(** The days in [daysSet] are the UTC days of the dated stats. *)
Lemma daysSet_has (k : Z) (l : list AttemptStat.t) :
  forall set,
    setHas k (fold_left dayStep l set) = true <->
    setHas k set = true \/
    exists s w, In s l /\ AttemptStat.dated s = Some w /\ isoDay w = k.
Proof.
  induction l as [|x l IH]; intro set; cbn [fold_left].
  - split; [now left|intros [H|(s & w & [] & _)]; exact H].
  - rewrite IH. unfold dayStep at 1.
    destruct (AttemptStat.dated x) as [d|] eqn:Ed.
    + assert (Hadd : setHas k (setAdd (isoDay d) set) = true <->
                     setHas k set = true \/ isoDay d = k).
      { unfold setAdd. destruct (setHas (isoDay d) set) eqn:Eh.
        - split; [now left|]. intros [H|<-]; assumption.
        - unfold setHas. rewrite existsb_app. simpl. rewrite orb_false_r, orb_true_iff.
          rewrite Z.eqb_eq. split; intros [H|H]; auto. }
      rewrite Hadd. split.
      * intros [[H|H]|(s & w & Hs & Hw & Hk)].
        -- now left.
        -- right. exists x, d. split; [now left|]. now split.
        -- right. exists s, w. split; [now right|]. now split.
      * intros [H|(s & w & [<-|Hs] & Hw & Hk)].
        -- left; now left.
        -- left; right. rewrite Ed in Hw. injection Hw as <-. exact Hk.
        -- right. exists s, w. split; [exact Hs|]. now split.
    + split.
      * intros [H|(s & w & Hs & Hw & Hk)]; [now left|].
        right. exists s, w. split; [now right|]. now split.
      * intros [H|(s & w & [<-|Hs] & Hw & Hk)]; [now left|congruence|].
        right. exists s, w. split; [exact Hs|]. now split.
Qed.

Lemma daysSet_NoDup (l : list AttemptStat.t) :
  forall set, NoDup set -> NoDup (fold_left dayStep l set) /\
              (List.length (fold_left dayStep l set)
               <= List.length set
                  + List.length (filter (fun s => match AttemptStat.dated s with
                                                  | Some _ => true
                                                  | None => false
                                                  end) l))%nat.
Proof.
  induction l as [|x l IH]; intros set Hnd; cbn [fold_left filter].
  - split; [exact Hnd|simpl; lia].
  - destruct (AttemptStat.dated x) as [d|] eqn:Ed.
    + assert (Hstep : dayStep set x = setAdd (isoDay d) set)
        by (unfold dayStep; now rewrite Ed).
      rewrite Hstep.
      assert (Hadd : NoDup (setAdd (isoDay d) set) /\
                     (List.length (setAdd (isoDay d) set) <= S (List.length set))%nat).
      { unfold setAdd. destruct (setHas (isoDay d) set) eqn:Eh.
        - split; [exact Hnd|lia].
        - split; [|rewrite length_app; simpl; lia].
          apply NoDup_app; [exact Hnd|constructor; [intros []|constructor]|].
          intros y Hy [Hy'|[]]. subst y.
          assert (setHas (isoDay d) set = true) by now apply setHas_In.
          congruence. }
      destruct Hadd as [Hnd' Hlen]. destruct (IH _ Hnd') as [H1 H2].
      split; [exact H1|]. cbn [List.length]. lia.
    + assert (Hstep : dayStep set x = set)
        by (unfold dayStep; now rewrite Ed).
      rewrite Hstep. apply IH. exact Hnd.
Qed.

Lemma streak_field (cache : Cache) (tz : TimeZone) (ls : LocalStorage)
      (today : Z) (track : Track.t) :
  streak (computeTrackAnalytics cache tz ls today track)
  = calcStreak tz today
      (fold_left dayStep (values (getProgress ls (Track.trackKey track))) []).
Proof.
  unfold computeTrackAnalytics.
  destruct (fold_left statStep _ _) as [[[a p] sv] la]. reflexivity.
Qed.

(** The walk counts a run of present days that starts today or
    yesterday. *)
Lemma calcStreak_run (tz : TimeZone) (today : Z) (set : list Z) :
  exists (start : Z) (count : nat),
    calcStreak tz today set = N.of_nat count /\
    (start = 0 \/ start = 1) /\
    (count <= 365)%nat /\
    (setHas (isoDay (daysBefore tz today 0)) set = true -> start = 0 /\ (1 <= count)%nat) /\
    (forall j, start <= j < start + Z.of_nat count ->
               setHas (isoDay (daysBefore tz today j)) set = true) /\
    (count = O ->
     setHas (isoDay (daysBefore tz today 0)) set = false /\
     setHas (isoDay (daysBefore tz today 1)) set = false).
Proof.
  unfold calcStreak. rewrite streakLoop_S.
  destruct (setHas (isoDay (daysBefore tz today 0)) set) eqn:H0.
  - destruct (streakLoop_run tz today set 364 (0 + 1) (0 + 1)%N ltac:(lia))
      as (k & Hk & Hle & Hall & Hend).
    exists 0, (S k). rewrite Hk.
    split; [lia|]. split; [now left|]. split; [lia|].
    split; [intros _; split; [reflexivity|lia]|]. split.
    + intros j Hj. destruct (Z.eq_dec j 0) as [->|Hne]; [exact H0|].
      apply Hall. lia.
    + discriminate.
  - cbn [Z.eqb].
    destruct (streakLoop_run tz today set 364 (0 + 1) 0%N ltac:(lia))
      as (k & Hk & Hle & Hall & Hend).
    exists 1, k. rewrite Hk.
    split; [lia|]. split; [now right|]. split; [lia|].
    split; [discriminate|]. split.
    + intros j Hj. apply Hall. lia.
    + intros ->. split; [reflexivity|].
      destruct Hend as [Hend|Hend]; [discriminate|]. exact Hend.
Qed.


End ActivityFacts.

Section ActivityProperties.
Import Clock Analytics Spec Terms.



(** X14: on a host with a fixed UTC offset the streak of a track never
    exceeds the number of distinct days on which the track has activity,
    which never exceeds the number of its dated entries. *)
Theorem streak_bounded_by_active_days :
  forall (cache : Cache) (offset : Z) (ls : LocalStorage) (today : Z)
         (track : Track.t),
    let entries := values (getProgress ls (Track.trackKey track)) in
    let daysSet := fold_left dayStep entries [] in
    NoDup daysSet /\
    (N.to_nat (streak (computeTrackAnalytics cache (fixedZone offset) ls today track))
     <= List.length daysSet)%nat /\
    (List.length daysSet
     <= List.length (datedEntries (getProgress ls (Track.trackKey track))))%nat.
Proof.
  intros cache offset ls today track entries daysSet.
  destruct (daysSet_NoDup entries [] (NoDup_nil Z)) as [Hnd Hlen].
  fold daysSet in Hnd, Hlen.
  split; [exact Hnd|]. split.
  - rewrite streak_field. fold entries. fold daysSet.
    destruct (calcStreak_run (fixedZone offset) today daysSet)
      as (start & count & Hc & _ & _ & _ & Hall & _).
    rewrite Hc, Nat2N.id.
    set (run := map (fun j => isoDay today - (start + Z.of_nat j)) (seq 0 count)).
    assert (Hrun : List.length run = count)
      by (unfold run; now rewrite length_map, length_seq).
    rewrite <- Hrun. apply NoDup_incl_length.
    + unfold run. clear. generalize 0%nat. induction count as [|n IH]; intro a; simpl.
      * constructor.
      * constructor; [|apply IH].
        intro Hin. apply in_map_iff in Hin. destruct Hin as (j & Hj & Hin).
        apply in_seq in Hin. lia.
    + intros k Hk. unfold run in Hk. apply in_map_iff in Hk.
      destruct Hk as (j & <- & Hj). apply in_seq in Hj.
      apply setHas_In. rewrite <- windowKey_fixedZone with (offset := offset).
      apply Hall. lia.
  - simpl in Hlen. unfold datedEntries, entries, values in *.
    rewrite Hlen. clear.
    induction (getProgress ls (Track.trackKey track)) as [|[k s] l IH]; simpl; [lia|].
    destruct (AttemptStat.dated s); simpl; lia.
Qed.

(** X15: [lastActive] is the most recent activity of the track: it is
    absent exactly when no entry has a [last] instant, and otherwise it is
    the [last] instant of an entry and no entry has a later one. *)
Theorem lastActive_is_most_recent :
  forall (cache : Cache) (tz : TimeZone) (ls : LocalStorage) (today : Z)
         (track : Track.t),
    let entries := values (getProgress ls (Track.trackKey track)) in
    let stats := computeTrackAnalytics cache tz ls today track in
    (lastActive stats = None <->
     forall s, In s entries -> AttemptStat.dated s = None) /\
    (forall m, lastActive stats = Some m ->
               (exists s, In s entries /\ AttemptStat.dated s = Some m) /\
               (forall s w, In s entries -> AttemptStat.dated s = Some w -> w <= m)).
Proof.
  intros cache tz ls today track entries stats.
  destruct (computeTrackAnalytics_fields cache tz ls today track)
    as (_ & _ & _ & _ & _ & Hla).
  fold entries stats in Hla. rewrite Hla. split.
  - split.
    + intros Hnone s Hs. destruct (AttemptStat.dated s) as [w|] eqn:E; [|reflexivity].
      destruct (latest_upper entries s w Hs E) as (m & Hm & _). congruence.
    + intro Hall. destruct (latest entries) as [m|] eqn:E; [|reflexivity].
      destruct (latest_attained entries m E) as (s & Hs & Hd).
      rewrite (Hall s Hs) in Hd. discriminate.
  - intros m Hm. split; [now apply latest_attained|].
    intros s w Hs Hw. destruct (latest_upper entries s w Hs Hw) as (m' & Hm' & Hle).
    congruence.
Qed.

(** The sample store: the one entry of the first track gives its
    [lastActive]. *)
Lemma lastActive_is_most_recent_witness :
  exists s,
    In s (values (getProgress Samples.storeAB "jc_progress")) /\
    AttemptStat.dated s = Some 1704139200000.
Proof.
  destruct (lastActive_is_most_recent (fun _ => None) Samples.ist Samples.storeAB
              Samples.today0 Samples.trackA) as [_ H].
  exact (proj1 (H 1704139200000 eq_refl)).
Defined.

(** X16: a submission shows in the analytics.  Take a recorded
    submission made now, on a host with a fixed UTC offset, with valid
    dates in the store and counters that stay below [2^53].  The
    analytics of the track still return afterwards; the card has one more
    attempt, one more pass exactly when every test passed, the same
    number of problems, at least as many solved problems and a streak of
    1 or more; and when no stored instant lies in the future,
    [lastActive] is now. *)
Theorem submission_shows_in_analytics :
  forall (cache : Cache) (offset : Z) (ls : LocalStorage) (track : Track.t)
         (p : Problem.t) (answers : list string) (now : Z),
    let key := Track.trackKey track in
    now <> 0 ->
    validTime now = true ->
    datesValid ls key = true ->
    recorded (Store.get ls key) (Problem.id p) = true ->
    JsNumber.safe (sumAttempts (values (Store.get ls key)) + 1) ->
    JsNumber.safe (sumPasses (values (Store.get ls key)) + 1) ->
    let ls' := snd (Practice.submit ls key (Store.get ls key) p answers now) in
    let before := computeTrackAnalytics cache (fixedZone offset) ls now track in
    let after := computeTrackAnalytics cache (fixedZone offset) ls' now track in
    computeTrackAnalytics_call cache (fixedZone offset) ls' now track = Some after /\
    attempts after = (attempts before + 1)%N /\
    passes after = (passes before + if Practice.passAll p answers then 1 else 0)%N /\
    total after = total before /\
    (solved before <= solved after)%N /\
    (1 <= streak after)%N /\
    ((forall w, lastActive before = Some w -> w <= now) ->
     lastActive after = Some now).
Proof.
  intros cache offset ls track p answers now key Hnow Hvalid Hdates Hrecd _ _
         ls' before after.
  set (progress := Store.get ls key) in *.
  set (progress' := Practice.recordAttempt progress (Problem.id p)
                      (Practice.passAll p answers) now).
  assert (Hget' : getProgress ls' (Track.trackKey track) = progress').
  { unfold ls', Practice.submit, getProgress, Store.set. cbn [snd]. fold key.
    now rewrite String.eqb_refl. }
  assert (Hget : getProgress ls (Track.trackKey track) = progress) by reflexivity.
  destruct (computeTrackAnalytics_fields cache (fixedZone offset) ls now track)
    as (Ht & Hs & Ha & Hp & _ & Hl).
  destruct (computeTrackAnalytics_fields cache (fixedZone offset) ls' now track)
    as (Ht' & Hs' & Ha' & Hp' & _ & Hl').
  rewrite Hget in *. rewrite Hget' in *.
  fold before in Ht, Hs, Ha, Hp, Hl. fold after in Ht', Hs', Ha', Hp', Hl'.
  set (old := match lookup (Problem.id p) progress with
              | Some s => s
              | None => AttemptStat.mk 0 0 None
              end).
  set (stat' := AttemptStat.mk (AttemptStat.attempts old + 1)
                  (if Practice.passAll p answers
                   then (AttemptStat.passes old + 1)%N else AttemptStat.passes old)
                  (Some now)).
  assert (Hrec : progress' = assign (Problem.id p) stat' progress).
  { unfold progress', Practice.recordAttempt, stat', old.
    unfold recorded in Hrecd.
    destruct (lookup (Problem.id p) progress); [reflexivity|].
    destruct (inherited (Problem.id p)); [discriminate|reflexivity]. }
  assert (Hdated : AttemptStat.dated stat' = Some now).
  { unfold AttemptStat.dated. simpl. destruct (Z.eqb_spec now 0); [contradiction|reflexivity]. }
  assert (Hpo : passesOf (Problem.id p) progress = AttemptStat.passes old).
  { unfold passesOf, old. destruct (lookup (Problem.id p) progress); reflexivity. }
  split; [|split; [|split; [|split; [|split; [|split]]]]].
  - unfold computeTrackAnalytics_call. fold after.
    assert (Hd' : datesValid ls' (Track.trackKey track) = true).
    { unfold datesValid. rewrite Hget', Hrec. apply forallb_forall. intros s Hs0.
      apply In_values_assign in Hs0. destruct Hs0 as [->|Hs0].
      - unfold dateOk. now rewrite Hdated.
      - change (forallb dateOk (values progress) = true) in Hdates.
        rewrite forallb_forall in Hdates. now apply Hdates. }
    now rewrite Hd'.
  - rewrite Ha', Ha. unfold progress'. rewrite sumAttempts_recordAttempt.
    now rewrite Hrecd.
  - rewrite Hp', Hp, Hrec.
    pose proof (sumPasses_assign (Problem.id p) stat' progress) as H.
    rewrite Hpo in H. unfold stat' in H at 2. cbn [AttemptStat.passes] in H.
    destruct (Practice.passAll p answers); lia.
  - rewrite Ht', Ht. reflexivity.
  - rewrite Hs', Hs, Hrec. apply countSolved_assign. rewrite Hpo.
    unfold stat'. cbn [AttemptStat.passes].
    destruct (Practice.passAll p answers); lia.
  - unfold after. rewrite streak_field, Hget'.
    destruct (calcStreak_run (fixedZone offset) now (fold_left dayStep (values progress') []))
      as (start & count & Hc & _ & _ & Htoday & _).
    rewrite Hc.
    assert (Hin : setHas (isoDay (daysBefore (fixedZone offset) now 0))
                         (fold_left dayStep (values progress') []) = true).
    { apply daysSet_has. right. exists stat', now.
      split; [rewrite Hrec; apply In_assign_new|]. split; [exact Hdated|].
      rewrite windowKey_fixedZone. lia. }
    destruct (Htoday Hin). lia.
  - intro Hpast. rewrite Hl'.
    destruct (latest_upper (values progress') stat' now
                (eq_ind_r (fun x => In stat' (values x)) (In_assign_new _ _ _) Hrec) Hdated)
      as (m & Hm & Hle).
    rewrite Hm. f_equal.
    destruct (latest_attained _ _ Hm) as (s & Hs0 & Hd).
    rewrite Hrec in Hs0. apply In_values_assign in Hs0.
    destruct Hs0 as [->|Hs0]; [congruence|].
    destruct (latest_upper (values progress) s m Hs0 Hd) as (m0 & Hm0 & Hle0).
    rewrite <- Hl in Hm0. specialize (Hpast m0 Hm0). lia.
Qed.

(** A first submission on an empty store, a solved one. *)
Lemma submission_shows_in_analytics_witness :
  attempts (computeTrackAnalytics (fun _ => None) (fixedZone 0)
              (snd (Practice.submit (fun _ => Missing) "jc_progress" []
                      (Samples.problem "p1" "Sum") ["4"%string] Samples.today0))
              Samples.today0 Samples.trackA) = 1%N.
Proof.
  assert (H0 : Samples.today0 <> 0) by discriminate.
  destruct (submission_shows_in_analytics (fun _ => None) 0 (fun _ => Missing)
              Samples.trackA (Samples.problem "p1" "Sum") ["4"%string]
              Samples.today0 H0 eq_refl eq_refl eq_refl
              ltac:(vm_compute; reflexivity) ltac:(vm_compute; reflexivity))
    as (_ & H & _).
  exact H.
Defined.

End ActivityProperties.

(* ================================================================== *)
(** * Analytics cards, the problem cache and unreadable storage *)
(* ================================================================== *)

Section CacheFacts.
Import Clock Analytics Spec Terms.

Lemma preload_other (net : Network) (tracks : list Track.t) :
  forall (cache : Cache) (k : string),
    ~ In k (map Track.trackKey tracks) ->
    preloadProblemsForTracks net cache tracks k = cache k.
Proof.
  unfold preloadProblemsForTracks.
  induction tracks as [|t tracks IH]; intros cache k Hk; [reflexivity|].
  cbn [fold_left]. rewrite IH by (intro H; apply Hk; now right).
  unfold preloadStep. destruct (Track.problemsUrl t); [reflexivity|].
  destruct (String.eqb_spec k (Track.trackKey t)) as [->|Hne]; [|reflexivity].
  exfalso. apply Hk. now left.
Qed.

Lemma preload_at (net : Network) (tracks : list Track.t) :
  forall (cache : Cache) (t : Track.t),
    NoDup (map Track.trackKey tracks) -> In t tracks ->
    preloadProblemsForTracks net cache tracks (Track.trackKey t) =
    match Track.problemsUrl t with
    | EmptyString => cache (Track.trackKey t)
    | url => net url
    end.
Proof.
  induction tracks as [|t0 tracks IH]; intros cache t Hnd Hin; [contradiction|].
  cbn [map] in Hnd. inversion Hnd as [|? ? Hnot Hrest]; subst.
  unfold preloadProblemsForTracks. cbn [fold_left].
  fold (preloadProblemsForTracks net (preloadStep net cache t0) tracks).
  destruct Hin as [->|Hin].
  - rewrite preload_other by exact Hnot. unfold preloadStep.
    destruct (Track.problemsUrl t); [reflexivity|]. now rewrite String.eqb_refl.
  - rewrite (IH _ t Hrest Hin).
    destruct (Track.problemsUrl t) eqn:Eu; [|reflexivity].
    unfold preloadStep. destruct (Track.problemsUrl t0); [reflexivity|].
    destruct (String.eqb_spec (Track.trackKey t) (Track.trackKey t0)) as [E|]; [|reflexivity].
    exfalso. apply Hnot. rewrite <- E. now apply in_map.
Qed.

Lemma progressFigures_cache (cache cache' : Cache) (tz : TimeZone)
      (ls : LocalStorage) (today : Z) (track : Track.t) :
  progressFigures (computeTrackAnalytics cache tz ls today track)
  = progressFigures (computeTrackAnalytics cache' tz ls today track).
Proof.
  unfold progressFigures. rewrite !streak_field.
  destruct (computeTrackAnalytics_fields cache tz ls today track)
    as (_ & -> & -> & -> & -> & ->).
  destruct (computeTrackAnalytics_fields cache' tz ls today track)
    as (_ & -> & -> & -> & -> & ->).
  reflexivity.
Qed.

(** [tracks.map] gets to the end exactly when the dates of every track
    are valid. *)
Lemma cardsFrom_outcome (cache : Cache) (tz : TimeZone) (ls : LocalStorage)
      (today : Z) (tracks : list Track.t) :
  cardsFrom cache tz ls today tracks =
  if forallb (fun t => datesValid ls (Track.trackKey t)) tracks
  then Some (map (fun t => (t, computeTrackAnalytics cache tz ls today t)) tracks)
  else None.
Proof.
  induction tracks as [|t tracks IH]; [reflexivity|].
  cbn [cardsFrom forallb map]. unfold computeTrackAnalytics_call.
  destruct (datesValid ls (Track.trackKey t)); cbn [andb]; [|reflexivity].
  rewrite IH. now destruct (forallb _ tracks).
Qed.

Lemma getProgress_healed (ls : LocalStorage) (key : string) :
  getProgress (healed ls) key = getProgress ls key.
Proof. unfold getProgress, healed. destruct (ls key); reflexivity. Qed.

Lemma Store_get_healed (ls : LocalStorage) (key : string) :
  Store.get (healed ls) key = Store.get ls key.
Proof. unfold Store.get, healed. destruct (ls key); reflexivity. Qed.

Lemma addTracks_healed (ls : LocalStorage) (keys : list string) :
  forall c, fold_left (addTrack (healed ls)) keys c = fold_left (addTrack ls) keys c.
Proof.
  induction keys as [|k keys IH]; intro c; [reflexivity|].
  cbn [fold_left]. rewrite IH. f_equal.
  unfold addTrack, healed. destruct (ls k); reflexivity.
Qed.

Lemma runSections_healed (net : Network) (ls : LocalStorage) (sections : list Track.t) :
  forall shared,
    Dashboard.runSections net (healed ls) sections shared
    = Dashboard.runSections net ls sections shared.
Proof.
  induction sections as [|s sections IH]; intro shared; [reflexivity|].
  cbn [Dashboard.runSections].
  assert (E : Dashboard.sectionStep net (healed ls) shared s
              = Dashboard.sectionStep net ls shared s).
  { unfold Dashboard.sectionStep. now rewrite Store_get_healed. }
  rewrite E. destruct (Dashboard.sectionStep net ls shared s); [apply IH|reflexivity].
Qed.

End CacheFacts.

Section CacheProperties.
Import Clock Analytics Spec Terms.

(** X17: the analytics cards.  [renderAnalytics] draws its cards exactly
    when the dates of every track are valid, whatever happens to the
    fetches: a failed fetch never keeps the cards from being drawn, and
    one date out of range in one track leaves the page without cards.
    When they are drawn there is one card per track, in order; with
    distinct storage keys the total of a card is the number of problems
    its fetch returned, 0 when the fetch failed, and what the cache held
    for a track without url; the other figures of a card (solved,
    attempts, passes, accuracy, last activity, streak) depend neither on
    the network nor on the cache. *)
Theorem analytics_cards_survive_failed_fetches :
  forall (net : Network) (cache : Cache) (tz : TimeZone) (ls : LocalStorage)
         (today : Z) (tracks : list Track.t),
    let outcome := renderAnalytics_call net cache tz ls today tracks in
    ((forall t, In t tracks -> datesValid ls (Track.trackKey t) = true) ->
     exists cards, outcome = Some cards) /\
    ((exists t, In t tracks /\ datesValid ls (Track.trackKey t) = false) ->
     outcome = None) /\
    (forall cards,
        outcome = Some cards ->
        map fst cards = tracks /\
        (NoDup (map Track.trackKey tracks) ->
         forall t stats,
           In (t, stats) cards ->
           total stats =
           match match Track.problemsUrl t with
                 | EmptyString => cache (Track.trackKey t)
                 | url => net url
                 end with
           | Some problems => N.of_nat (List.length problems)
           | None => 0%N
           end) /\
        (forall (net' : Network) (cache' : Cache),
            exists cards',
              renderAnalytics_call net' cache' tz ls today tracks = Some cards' /\
              map (fun c => progressFigures (snd c)) cards'
              = map (fun c => progressFigures (snd c)) cards)).
Proof.
  intros net cache tz ls today tracks outcome.
  unfold outcome, renderAnalytics_call.
  split; [|split].
  - intro Hok. rewrite cardsFrom_outcome.
    assert (E : forallb (fun t => datesValid ls (Track.trackKey t)) tracks = true)
      by (apply forallb_forall; exact Hok).
    rewrite E. eexists. reflexivity.
  - intros (t & Hin & Hbad). rewrite cardsFrom_outcome.
    destruct (forallb (fun t => datesValid ls (Track.trackKey t)) tracks) eqn:E;
      [|reflexivity].
    rewrite forallb_forall in E. rewrite (E t Hin) in Hbad. discriminate.
  - intros cards Hcards. rewrite cardsFrom_outcome in Hcards.
    destruct (forallb (fun t => datesValid ls (Track.trackKey t)) tracks) eqn:E;
      [|discriminate].
    injection Hcards as <-.
    split; [|split].
    + rewrite map_map. cbn [fst]. apply map_id.
    + intros Hnd t stats Hin. apply in_map_iff in Hin.
      destruct Hin as (t' & Heq & Hin). injection Heq as -> <-.
      destruct (computeTrackAnalytics_fields
                  (preloadProblemsForTracks net cache tracks) tz ls today t)
        as (-> & _).
      now rewrite (preload_at net tracks cache t Hnd Hin).
    + intros net' cache'. rewrite cardsFrom_outcome, E.
      eexists. split; [reflexivity|].
      rewrite !map_map. cbn [snd].
      apply map_ext. intro t. apply progressFigures_cache.
Qed.

(** The two sample tracks: the list of the second cannot be fetched, the
    cards are drawn. *)
Lemma analytics_cards_survive_failed_fetches_witness :
  exists cards,
    renderAnalytics_call Samples.netA (fun _ => None) Samples.ist Samples.storeAB
                         Samples.today0 [Samples.trackA; Samples.trackB]
    = Some cards.
Proof.
  destruct (analytics_cards_survive_failed_fetches Samples.netA (fun _ => None)
              Samples.ist Samples.storeAB Samples.today0
              [Samples.trackA; Samples.trackB]) as (H & _).
  apply H. intros t [<-|[<-|[]]]; reflexivity.
Defined.

(** X18: unreadable storage.  A key that is missing or holds a text that
    does not parse behaves in every view as an empty progress object: the
    store accessor, the daily series, the analytics card and the
    multi-track dashboard give what they give once such keys hold an
    empty object; the analytics card of such a track shows no solved
    problem, no attempt, no pass, an accuracy of 0, no last activity and
    a streak of 0. *)
Theorem unreadable_storage_is_empty :
  forall (ls : LocalStorage),
    (forall key, Store.get (healed ls) key = Store.get ls key) /\
    (forall tz today keys days,
        buildDailySeries tz (healed ls) today keys days
        = buildDailySeries tz ls today keys days) /\
    (forall cache tz today track,
        computeTrackAnalytics cache tz (healed ls) today track
        = computeTrackAnalytics cache tz ls today track) /\
    (forall net sections,
        Dashboard.renderDashboardMulti net (healed ls) sections
        = Dashboard.renderDashboardMulti net ls sections) /\
    (forall cache tz today track,
        ls (Track.trackKey track) = Missing \/ ls (Track.trackKey track) = Malformed ->
        progressFigures (computeTrackAnalytics cache tz ls today track)
        = (0%N, 0%N, 0%N, Some 0, None, 0%N)).
Proof.
  intro ls. split; [apply Store_get_healed|]. split; [|split; [|split]].
  - intros tz today keys days. unfold buildDailySeries.
    destruct (fillWindow tz today days [] []) as [l c].
    now rewrite addTracks_healed.
  - intros cache tz today track. unfold computeTrackAnalytics.
    now rewrite getProgress_healed.
  - intros net sections. unfold Dashboard.renderDashboardMulti.
    now rewrite runSections_healed.
  - intros cache tz today track H. unfold progressFigures, computeTrackAnalytics, getProgress.
    destruct H as [-> | ->]; reflexivity.
Qed.

(** A key that holds no JSON. *)
Lemma unreadable_storage_is_empty_witness :
  progressFigures (computeTrackAnalytics (fun _ => None) Samples.ist
                     (fun _ => Malformed) Samples.today0 Samples.trackA)
  = (0%N, 0%N, 0%N, Some 0, None, 0%N).
Proof.
  destruct (unreadable_storage_is_empty (fun _ => Malformed)) as (_ & _ & _ & _ & H).
  apply H. now right.
Defined.

End CacheProperties.

(* ================================================================== *)
(** * The run button *)
(* ================================================================== *)

Section EditorFacts.
Import Practice Listing Editor Terms.

Lemma chars_trimStart (s : string) (c : ascii) :
  In c (list_ascii_of_string (trimStart s)) -> In c (list_ascii_of_string s).
Proof.
  induction s as [|d r IH]; simpl; [tauto|].
  destruct (isWhiteSpace d); simpl; [intro H; right; now apply IH|tauto].
Qed.

Lemma chars_trimEnd (s : string) (c : ascii) :
  In c (list_ascii_of_string (trimEnd s)) -> In c (list_ascii_of_string s).
Proof.
  induction s as [|d r IH]; simpl; [tauto|].
  destruct (trimEnd r) as [|e r'].
  - destruct (isWhiteSpace d); simpl; tauto.
  - simpl in *. intros [H|H]; [now left|right; now apply IH].
Qed.

Lemma chars_removeQuotes (s : string) (c : ascii) :
  In c (list_ascii_of_string (removeQuotes s)) ->
  isQuote c = false /\ In c (list_ascii_of_string s).
Proof.
  induction s as [|d r IH]; simpl; [tauto|].
  destruct (isQuote d) eqn:Ed; simpl.
  - intro H. destruct (IH H). tauto.
  - intros [<-|H]; [tauto|]. destruct (IH H). tauto.
Qed.

Lemma chars_lineRest (s : string) (c : ascii) :
  In c (list_ascii_of_string (lineRest s)) -> In c (list_ascii_of_string s).
Proof.
  induction s as [|d r IH]; simpl; [tauto|].
  destruct (isLineTerminator d); simpl; [tauto|]. intros [H|H]; [now left|right; now apply IH].
Qed.

Lemma chars_skip (n : nat) (s : string) (c : ascii) :
  In c (list_ascii_of_string (skip n s)) -> In c (list_ascii_of_string s).
Proof.
  revert s; induction n as [|n IH]; intro s; destruct s as [|d r]; simpl; try tauto.
  intro H. right. now apply IH.
Qed.

Lemma chars_lastClose (line g : string) (c : ascii) :
  lastClose line = Some g ->
  In c (list_ascii_of_string g) -> In c (list_ascii_of_string line).
Proof.
  revert g; induction line as [|d r IH]; intro g; [discriminate|].
  cbn [lastClose]. destruct (lastClose r) as [x|].
  - intros [= <-]. simpl. intros [H|H]; [now left|right; now apply (IH x)].
  - destruct (startsWith (String d r) ");"); [|discriminate].
    intros [= <-]. simpl. tauto.
Qed.

Lemma chars_firstPrintln (code g : string) (c : ascii) :
  firstPrintln code = Some g ->
  In c (list_ascii_of_string g) -> In c (list_ascii_of_string code).
Proof.
  induction code as [|d r IH]; [discriminate|].
  cbn [firstPrintln].
  destruct (startsWith (String d r) println) eqn:Es.
  - destruct (lastClose (lineRest (skip (String.length println) (String d r)))) as [x|] eqn:El.
    + intros [= <-] Hc.
      apply (chars_skip (String.length println)), chars_lineRest.
      now apply (chars_lastClose _ x).
    + intros H Hc. simpl. right. now apply IH.
  - intros H Hc. simpl. right. now apply IH.
Qed.

Lemma trim_idem (s : string) : trim (trim s) = trim s.
Proof.
  unfold trim. rewrite (trimStart_headClean (trimEnd (trimStart s))).
  - apply trimEnd_idem.
  - apply headClean_trimEnd, headClean_trimStart.
Qed.

Lemma length_app (u v : string) :
  String.length (u ++ v) = (String.length u + String.length v)%nat.
Proof. induction u as [|c u IH]; simpl; [reflexivity|now rewrite IH]. Qed.

Lemma startsWith_app_l (q u v : string) :
  (String.length q <= String.length u)%nat ->
  startsWith (u ++ v) q = startsWith u q.
Proof.
  revert u; induction q as [|c q IH]; intros u Hlen.
  - destruct u; simpl; [destruct v|]; reflexivity.
  - destruct u as [|d u]; simpl in *; [lia|].
    rewrite IH by lia. reflexivity.
Qed.

Lemma firstPrintln_cons (c : ascii) (r : string) :
  firstPrintln (String c r) =
  match (if startsWith (String c r) println
         then lastClose (lineRest (skip (String.length println) (String c r)))
         else None) with
  | Some g => Some g
  | None => firstPrintln r
  end.
Proof. reflexivity. Qed.

(** A text in which the statement does not start is skipped. *)
Lemma firstPrintln_skip (pre rest : string) :
  includes (pre ++ printlnName) println = false ->
  firstPrintln (pre ++ println ++ rest) = firstPrintln (println ++ rest).
Proof.
  induction pre as [|c pre IH]; intro H; [reflexivity|].
  cbn [includes append] in H. apply orb_false_iff in H. destruct H as [Hs Hi].
  change ((String c pre ++ println ++ rest)%string)
    with (String c (pre ++ println ++ rest)).
  cbn [firstPrintln].
  assert (E : startsWith (String c (pre ++ println ++ rest)) println = false).
  { change (println ++ rest)%string with (printlnName ++ String "(" rest)%string.
    change (String c (pre ++ printlnName ++ String "(" rest))
      with (String c pre ++ (printlnName ++ String "(" rest))%string.
    rewrite <- string_app_assoc, startsWith_app_l; [exact Hs|].
    simpl. rewrite length_app. simpl. lia. }
  rewrite E. now apply IH.
Qed.

Lemma lastClose_closed (arg : string) :
  lastClose (arg ++ ");") = Some arg.
Proof.
  induction arg as [|c arg IH]; [reflexivity|].
  change ((String c arg ++ ");")%string) with (String c (arg ++ ");")).
  cbn [lastClose]. now rewrite IH.
Qed.

Lemma lineRest_line (arg rest : string) :
  noLineBreak arg = true -> endsLine rest = true ->
  lineRest (arg ++ ");" ++ rest) = (arg ++ ");")%string.
Proof.
  intros Harg Hrest. induction arg as [|c arg IH]; simpl in *.
  - destruct rest as [|d rest]; [reflexivity|]. simpl in *. now rewrite Hrest.
  - apply andb_true_iff in Harg. destruct Harg as [Hc Harg].
    apply negb_true_iff in Hc. rewrite Hc. now rewrite IH.
Qed.

End EditorFacts.

Section EditorProperties.
Import Practice Listing Editor Terms.

(** X19: the run button never runs anything.  While the editor is locked
    the output is the lock notice whatever the code; a code in which
    [System.out.println(] does not occur prints nothing; and a printed
    message is made of characters of the code, holds no quote and has no
    white space at either end. *)
Theorem run_only_echoes :
  forall (isOwner : bool) (code : string),
    (isOwner = false -> run isOwner code = Locked) /\
    (isOwner = true -> includes code println = false -> run isOwner code = NoOutput) /\
    (forall msg,
        run isOwner code = Printed msg ->
        isOwner = true /\
        trim msg = msg /\
        forall c, In c (list_ascii_of_string msg) ->
                  isQuote c = false /\ In c (list_ascii_of_string code)).
Proof.
  intros isOwner code. split; [|split].
  - intros ->. reflexivity.
  - intros -> Hno. unfold run. cbn [negb].
    assert (E : firstPrintln code = None).
    { induction code as [|d r IH]; [reflexivity|].
      cbn [includes] in Hno. apply orb_false_iff in Hno. destruct Hno as [Hs Hi].
      cbn [firstPrintln]. rewrite Hs. now apply IH. }
    now rewrite E.
  - intros msg. unfold run. destruct isOwner; cbn [negb]; [|discriminate].
    intro Hrun.
    assert (Hg : exists g, firstPrintln code = Some g /\ msg = trim (removeQuotes g)).
    { destruct (firstPrintln code) as [[|a g]|]; try discriminate.
      injection Hrun as <-. exists (String a g). split; reflexivity. }
    destruct Hg as (g & E & ->).
    split; [reflexivity|]. split; [apply trim_idem|].
    intros c Hc. unfold trim in Hc.
    apply chars_trimEnd, chars_trimStart, chars_removeQuotes in Hc.
    destruct Hc as [Hq Hc]. split; [exact Hq|].
    now apply (chars_firstPrintln code g).
Qed.

(** The locked editor in front of the starter program. *)
Lemma run_only_echoes_witness : run false Examples.starterCode = Locked.
Proof.
  destruct (run_only_echoes false Examples.starterCode) as (H & _).
  exact (H eq_refl).
Defined.

(** X20: one statement on its line.  When the first
    [System.out.println(] of the code opens a statement that is closed by
    a parenthesis and a semicolon at the end of its line, with a non-empty
    argument on that line, the owner sees the argument without its quotes
    and without white space around it. *)
Theorem run_prints_the_argument :
  forall (pre arg rest : string),
    includes (pre ++ printlnName) println = false ->
    noLineBreak arg = true ->
    arg <> EmptyString ->
    endsLine rest = true ->
    run true (pre ++ println ++ arg ++ ");" ++ rest)
    = Printed (trim (removeQuotes arg)).
Proof.
  intros pre arg rest Hpre Harg Hne Hrest. unfold run. cbn [negb].
  rewrite firstPrintln_skip by exact Hpre.
  assert (E : firstPrintln (println ++ arg ++ ");" ++ rest) = Some arg).
  { set (z := (arg ++ ");" ++ rest)%string).
    assert (Hc : (println ++ z)%string = String "S" ("ystem.out.println(" ++ z))
      by reflexivity.
    rewrite Hc, firstPrintln_cons, <- Hc.
    assert (Hs : startsWith (println ++ z) println = true)
      by (apply startsWith_app; now exists z).
    rewrite Hs.
    change (skip (String.length println) (println ++ z)) with z. unfold z.
    now rewrite lineRest_line, lastClose_closed. }
  rewrite E. destruct arg; [contradiction|reflexivity].
Qed.

(** The program the editor opens with prints its greeting. *)
Lemma run_prints_the_argument_witness :
  run true Examples.starterCode = Printed "Hello, Gokul!".
Proof.
  exact (run_prints_the_argument Examples.starterPrefix Examples.starterArgument
           Examples.starterRest eq_refl eq_refl
           ltac:(discriminate) eq_refl).
Defined.

End EditorProperties.
